(** * Car rental application: billing, settlement and occupancy

    A shallow embedding of the billing and settlement core of [app.py]
    (the Flask routes [add_rental], [edit_rental], [add_payment],
    [availability], [settle_rental], [rental_due_summary] and the helpers
    [date_in_range], [is_rented_today], [is_booked_today]).

    Conventions of the embedding:
    - the SQLAlchemy session is an explicit [Store], one list of rows per
      table, in insertion (row id) order; a route takes the store and
      returns its response together with the store it leaves behind;
    - [date.today()] is an argument of every route that reads it;
    - a [datetime.date] is its proleptic Gregorian ordinal
      ([date.toordinal()]), between [date_min] and [date_max];
    - a [db.Float] column is an exact rational ([Q]): sums, differences and
      products are those of the rationals, rounding is not modelled;
    - a nullable column is an [option];
    - a primary key is unique in its table: an assignment to a loaded object
      is an update in place of the row that carries its key;
    - the form of a POST request is taken after parsing ([int], [float],
      [strptime]); an empty optional field is [None]. *)

From Stdlib Require Import ZArith QArith Qminmax List Bool Lia Lqa String.
From Stdlib Require Import Permutation Sorted.
Import ListNotations.

Local Open Scope Z_scope.

(** ** Python's [datetime.date] *)

Module PyDate.

Definition date := Z.

(** [date.min] is 0001-01-01 and [date.max] is 9999-12-31. *)
Definition date_min : date := 1.
Definition date_max : date := 3652059.

Definition date_ok (d : date) : Prop := date_min <= d <= date_max.

Definition date_okb (d : date) : bool := (date_min <=? d) && (d <=? date_max).

Definition is_leap (y : Z) : bool :=
  (y mod 4 =? 0) && (negb (y mod 100 =? 0) || (y mod 400 =? 0)).

Definition days_before_year (year : Z) : Z :=
  let y := year - 1 in
  y * 365 + y / 4 - y / 100 + y / 400.

Definition days_before_month (year month : Z) : Z :=
  nth (Z.to_nat month) [-1; 0; 31; 59; 90; 120; 151; 181; 212; 243; 273; 304; 334] 0
  + (if (2 <? month) && is_leap year then 1 else 0).

(** [date(year, month, day).toordinal()] *)
Definition ymd2ord (year month day : Z) : date :=
  days_before_year year + days_before_month year month + day.

(** [(a - b).days] *)
Definition days_between (a b : date) : Z := a - b.

(** [d + timedelta(days=n)]; out of range is Python's [OverflowError]. *)
Definition add_days (d : date) (n : Z) : option date :=
  if date_okb (d + n) then Some (d + n) else None.

End PyDate.
Import PyDate.

(** ** Python helpers on nullable numbers *)

(** [x or 0] on a nullable float: [None] and [0.0] are both falsy. *)
Definition Qor0 (x : option Q) : Q :=
  match x with
  | Some v => if Qeq_bool v 0 then 0%Q else v
  | None => 0%Q
  end.

(** [n or 30] on a nullable integer. *)
Definition Zor (x : option Z) (dflt : Z) : Z :=
  match x with
  | Some v => if v =? 0 then dflt else v
  | None => dflt
  end.

(** [sum(...)]: starts from [0] and adds from the left. *)
Definition py_sum (l : list Q) : Q := fold_left Qplus l 0%Q.

(** [max(a, b)]: [b] only when it is strictly greater than [a]. *)
Definition py_max (a b : Q) : Q :=
  if Qle_bool b a then a else b.

(** ** The tables *)

Record Customer := mkCustomer {
  c_id : Z;
  c_name : string
}.

Record Car := mkCar {
  car_id : Z;
  car_model : string
}.

Record Rental := mkRental {
  r_id : Z;
  r_car_id : Z;
  r_customer_id : Z;
  r_start_date : date;
  r_end_date : option date;
  r_contract_type : string;
  r_planned_rent : option Q;
  r_actual_rent : option Q;
  r_deposit : option Q;
  r_deposit_refunded : bool;
  r_deposit_refunded_amount : option Q;
  r_deposit_refund_date : option date;
  r_billing_interval_days : option Z;
  r_next_billing_date : option date
}.

Record Payment := mkPayment {
  p_id : Z;
  p_rental_id : Z;
  p_amount : option Q;
  p_date : date;
  p_location : option string
}.

(** [Fine], [Damage] and [Salik] share the columns the core reads; a
    [Salik] row is attached to a rental, the other two to a customer. *)
Record Fine := mkFine {
  f_id : Z;
  f_car_id : Z;
  f_customer_id : Z;
  f_amount : option Q;
  f_paid : bool;
  f_settled_via : option string
}.

Record Damage := mkDamage {
  d_id : Z;
  d_car_id : Z;
  d_customer_id : Z;
  d_amount : option Q;
  d_paid : bool;
  d_settled_via : option string
}.

Record Salik := mkSalik {
  s_id : Z;
  s_car_id : Z;
  s_rental_id : Z;
  s_amount : option Q;
  s_paid : bool;
  s_settled_via : option string
}.

Record Booking := mkBooking {
  b_id : Z;
  b_car_id : Z;
  b_start_date : date;
  b_end_date : date
}.

Record Store := mkStore {
  customers : list Customer;
  cars : list Car;
  rentals : list Rental;
  payments : list Payment;
  fines : list Fine;
  damages : list Damage;
  saliks : list Salik;
  bookings : list Booking
}.

(** ** Queries and relationships *)

Section Relationships.
Variable st : Store.

(** [Rental.query.get(rental_id)] *)
Definition get_rental (rental_id : Z) : option Rental :=
  find (fun r => r_id r =? rental_id) (rentals st).

(** [rental.customer]; [None] when the referenced row is missing. *)
Definition rental_customer (r : Rental) : option Customer :=
  find (fun c => c_id c =? r_customer_id r) (customers st).

(** [customer.fines], [customer.damages] *)
Definition customer_fines (c : Customer) : list Fine :=
  filter (fun f => f_customer_id f =? c_id c) (fines st).

Definition customer_damages (c : Customer) : list Damage :=
  filter (fun d => d_customer_id d =? c_id c) (damages st).

(** [rental.salik_entries], [rental.payments] *)
Definition salik_entries (r : Rental) : list Salik :=
  filter (fun s => s_rental_id s =? r_id r) (saliks st).

Definition rental_payments (r : Rental) : list Payment :=
  filter (fun p => p_rental_id p =? r_id r) (payments st).

(** [car.rentals], [car.bookings], [Rental.query.filter_by(car_id=...)] *)
Definition rentals_of_car (cid : Z) : list Rental :=
  filter (fun r => r_car_id r =? cid) (rentals st).

Definition bookings_of_car (cid : Z) : list Booking :=
  filter (fun b => b_car_id b =? cid) (bookings st).

(** The three list comprehensions shared by [add_payment],
    [settle_rental] and [rental_due_summary]. *)
Definition outstanding_fines (r : Rental) (c : Customer) : list Fine :=
  filter (fun f => (f_car_id f =? r_car_id r) && negb (f_paid f))
         (customer_fines c).

Definition outstanding_damages (r : Rental) (c : Customer) : list Damage :=
  filter (fun d => (d_car_id d =? r_car_id r) && negb (d_paid d))
         (customer_damages c).

Definition outstanding_salik (r : Rental) : list Salik :=
  filter (fun s => negb (s_paid s)) (salik_entries r).

Definition charges_total (r : Rental) (c : Customer) : Q :=
  (py_sum (map (fun f => Qor0 (f_amount f)) (outstanding_fines r c))
   + py_sum (map (fun d => Qor0 (d_amount d)) (outstanding_damages r c))
   + py_sum (map (fun s => Qor0 (s_amount s)) (outstanding_salik r)))%Q.

End Relationships.

(** ** Responses *)

Inductive Method := GET | POST.

Inductive Outcome (P : Type) : Type :=
| Rendered (page : P)            (* render_template(...) *)
| Redirected (target : string)   (* redirect(url_for(...)) *)
| NotFound                       (* get_or_404 aborts with 404 *)
| Raised (exn : string).         (* an uncaught exception, nothing committed *)

Arguments Rendered {P} page.
Arguments Redirected {P} target.
Arguments NotFound {P}.
Arguments Raised {P} exn.

(** ** [rental_due_summary] *)

Module Due.

Definition period_end (r : Rental) (today : date) : date :=
  match r_end_date r with
  | Some e => if e <? today then e else today
  | None => today
  end.

Definition days_active (r : Rental) (today : date) : Z :=
  days_between (period_end r today) (r_start_date r).

Definition intervals (r : Rental) (today : date) : Z :=
  days_active r today / Zor (r_billing_interval_days r) 30 + 1.

Definition rent_rate (r : Rental) : Q :=
  match r_actual_rent r with
  | Some a => a
  | None => Qor0 (r_planned_rent r)
  end.

Definition base_due (r : Rental) (today : date) : Q :=
  (rent_rate r * inject_Z (intervals r today))%Q.

Record Page := mkPage {
  pg_base_due : Q;
  pg_intervals : Z;
  pg_charges_due : Q;
  pg_total_payments : Q;
  pg_due_amount : Q;
  pg_outstanding_fines : list Fine;
  pg_outstanding_damages : list Damage;
  pg_outstanding_salik : list Salik;
  pg_period_end : date
}.

Definition rental_due_summary (today : date) (rental_id : Z) (st : Store)
  : Outcome Page * Store :=
  match get_rental st rental_id with
  | None => (NotFound, st)
  | Some rental =>
      let pe := period_end rental today in
      let n := intervals rental today in
      let due := base_due rental today in
      let total_payments :=
        py_sum (map (fun p => Qor0 (p_amount p)) (rental_payments st rental)) in
      match rental_customer st rental with
      | None => (Raised "AttributeError", st)
      | Some c =>
          let charges_due := charges_total st rental c in
          (Rendered {| pg_base_due := due;
                       pg_intervals := n;
                       pg_charges_due := charges_due;
                       pg_total_payments := total_payments;
                       pg_due_amount := (due + charges_due - total_payments)%Q;
                       pg_outstanding_fines := outstanding_fines st rental c;
                       pg_outstanding_damages := outstanding_damages st rental c;
                       pg_outstanding_salik := outstanding_salik st rental;
                       pg_period_end := pe |}, st)
      end
  end.

End Due.

(** ** [settle_rental] *)

Module Settle.

Record Page := mkPage {
  pg_outstanding_fines : list Fine;
  pg_outstanding_damages : list Damage;
  pg_outstanding_salik : list Salik;
  pg_total_charges : Q;
  pg_refundable : Q
}.

(** [x.paid = True; x.settled_via = via] on each kind of charge. *)
Definition pay_fine (via : string) (f : Fine) : Fine :=
  {| f_id := f_id f; f_car_id := f_car_id f; f_customer_id := f_customer_id f;
     f_amount := f_amount f; f_paid := true; f_settled_via := Some via |}.

Definition pay_damage (via : string) (d : Damage) : Damage :=
  {| d_id := d_id d; d_car_id := d_car_id d; d_customer_id := d_customer_id d;
     d_amount := d_amount d; d_paid := true; d_settled_via := Some via |}.

Definition pay_salik (via : string) (s : Salik) : Salik :=
  {| s_id := s_id s; s_car_id := s_car_id s; s_rental_id := s_rental_id s;
     s_amount := s_amount s; s_paid := true; s_settled_via := Some via |}.

(** The rows that the comprehensions of [settle_rental] select, as tests
    on a row of the table. *)
Definition fine_selected (r : Rental) (c : Customer) (f : Fine) : bool :=
  (f_customer_id f =? c_id c) && ((f_car_id f =? r_car_id r) && negb (f_paid f)).

Definition damage_selected (r : Rental) (c : Customer) (d : Damage) : bool :=
  (d_customer_id d =? c_id c) && ((d_car_id d =? r_car_id r) && negb (d_paid d)).

Definition salik_selected (r : Rental) (s : Salik) : bool :=
  (s_rental_id s =? r_id r) && negb (s_paid s).

(** The assignments to [rental] in the POST branch. *)
Definition close_rental (today : date) (refundable : Q) (r : Rental) : Rental :=
  {| r_id := r_id r;
     r_car_id := r_car_id r;
     r_customer_id := r_customer_id r;
     r_start_date := r_start_date r;
     r_end_date := match r_end_date r with
                   | None => Some today
                   | Some e => Some e
                   end;
     r_contract_type := match r_end_date r with
                        | None => "fixed"%string
                        | Some _ => r_contract_type r
                        end;
     r_planned_rent := r_planned_rent r;
     r_actual_rent := r_actual_rent r;
     r_deposit := r_deposit r;
     r_deposit_refunded := true;
     r_deposit_refunded_amount := Some refundable;
     r_deposit_refund_date := Some today;
     r_billing_interval_days := r_billing_interval_days r;
     r_next_billing_date := r_next_billing_date r |}.

(** The session after the loops over the three lists and the update of
    the rental, as [db.session.commit()] writes it. *)
Definition commit (today : date) (rental : Rental) (c : Customer)
           (refundable : Q) (st : Store) : Store :=
  {| customers := customers st;
     cars := cars st;
     rentals := map (fun r => if r_id r =? r_id rental
                              then close_rental today refundable r else r)
                    (rentals st);
     payments := payments st;
     fines := map (fun f => if fine_selected rental c f
                            then pay_fine "deposit" f else f) (fines st);
     damages := map (fun d => if damage_selected rental c d
                              then pay_damage "deposit" d else d) (damages st);
     saliks := map (fun s => if salik_selected rental s
                             then pay_salik "deposit" s else s) (saliks st);
     bookings := bookings st |}.

(** [total_charges], [deposit] and [refundable] as the route computes
    them before it looks at the method. *)
Definition refundable (st : Store) (rental : Rental) (c : Customer) : Q :=
  py_max (Qor0 (r_deposit rental) - charges_total st rental c) 0.

Definition settle_rental (today : date) (method : Method) (rental_id : Z)
           (st : Store) : Outcome Page * Store :=
  match get_rental st rental_id with
  | None => (NotFound, st)
  | Some rental =>
      match rental_customer st rental with
      | None => (Raised "AttributeError", st)
      | Some c =>
          let total_charges := charges_total st rental c in
          let deposit := Qor0 (r_deposit rental) in
          let refundable := py_max (deposit - total_charges) 0 in
          match method with
          | POST =>
              (Redirected "list_rentals", commit today rental c refundable st)
          | GET =>
              (Rendered {| pg_outstanding_fines := outstanding_fines st rental c;
                           pg_outstanding_damages := outstanding_damages st rental c;
                           pg_outstanding_salik := outstanding_salik st rental;
                           pg_total_charges := total_charges;
                           pg_refundable := refundable |}, st)
          end
      end
  end.

End Settle.

(** ** [add_rental] and [edit_rental] *)

Module Rentals.

Record Form := mkForm {
  fm_car_id : Z;
  fm_customer_id : Z;
  fm_start_date : date;
  fm_end_date : option date;
  fm_planned_rent : option Q;
  fm_actual_rent : option Q;
  fm_deposit : option Q
}.

(** What the flashed message shows of [conflict_rental]: its start date
    and its end date, or "Open". *)
Record Conflict := mkConflict {
  cf_start : date;
  cf_end : option date
}.

(** The page [add_rental.html], with the flashed message if any. *)
Record Page := mkPage {
  pg_flash : option Conflict
}.

(** [x or date.max] *)
Definition or_max (e : option date) : date :=
  match e with
  | Some d => d
  | None => date_max
  end.

(** The test of the loop over [existing_rentals]. *)
Definition overlaps (start_date : date) (end_date : option date) (r : Rental) : bool :=
  let r_end := or_max (r_end_date r) in
  let new_end := or_max end_date in
  (r_start_date r <=? new_end) && (start_date <=? r_end).

(** The loop: the first overlapping rental of the car, if any. *)
Definition conflict_rental (st : Store) (f : Form) : option Rental :=
  find (overlaps (fm_start_date f) (fm_end_date f))
       (rentals_of_car st (fm_car_id f)).

(** The primary key given to a new row: one more than the largest. *)
Definition fresh_id (ids : list Z) : Z := fold_right Z.max 0 ids + 1.

Definition new_rental (st : Store) (f : Form) (next_billing : date) : Rental :=
  {| r_id := fresh_id (map r_id (rentals st));
     r_car_id := fm_car_id f;
     r_customer_id := fm_customer_id f;
     r_start_date := fm_start_date f;
     r_end_date := fm_end_date f;
     r_contract_type := match fm_end_date f with
                        | Some _ => "fixed"%string
                        | None => "open"%string
                        end;
     r_planned_rent := fm_planned_rent f;
     r_actual_rent := fm_actual_rent f;
     r_deposit := fm_deposit f;
     r_deposit_refunded := false;
     r_deposit_refunded_amount := None;
     r_deposit_refund_date := None;
     r_billing_interval_days := Some 30;
     r_next_billing_date := Some next_billing |}.

Definition with_rentals (st : Store) (rs : list Rental) : Store :=
  {| customers := customers st; cars := cars st; rentals := rs;
     payments := payments st; fines := fines st; damages := damages st;
     saliks := saliks st; bookings := bookings st |}.

Definition add_rental (method : Method) (f : Form) (st : Store)
  : Outcome Page * Store :=
  match method with
  | GET => (Rendered {| pg_flash := None |}, st)
  | POST =>
      match conflict_rental st f with
      | Some r =>
          (Rendered {| pg_flash := Some {| cf_start := r_start_date r;
                                           cf_end := r_end_date r |} |}, st)
      | None =>
          match add_days (fm_start_date f) 30 with
          | None => (Raised "OverflowError", st)
          | Some nb =>
              (Redirected "list_rentals",
               with_rentals st (rentals st ++ [new_rental st f nb]))
          end
      end
  end.

(** The assignments of the POST branch of [edit_rental]. *)
Definition update_rental (f : Form) (r : Rental) : Rental :=
  {| r_id := r_id r;
     r_car_id := fm_car_id f;
     r_customer_id := fm_customer_id f;
     r_start_date := fm_start_date f;
     r_end_date := fm_end_date f;
     r_contract_type := match fm_end_date f with
                        | Some _ => "fixed"%string
                        | None => "open"%string
                        end;
     r_planned_rent := fm_planned_rent f;
     r_actual_rent := fm_actual_rent f;
     r_deposit := fm_deposit f;
     r_deposit_refunded := r_deposit_refunded r;
     r_deposit_refunded_amount := r_deposit_refunded_amount r;
     r_deposit_refund_date := r_deposit_refund_date r;
     r_billing_interval_days := r_billing_interval_days r;
     r_next_billing_date := r_next_billing_date r |}.

Definition edit_rental (method : Method) (rental_id : Z) (f : Form) (st : Store)
  : Outcome Rental * Store :=
  match get_rental st rental_id with
  | None => (NotFound, st)
  | Some rental =>
      match method with
      | POST =>
          (Redirected "list_rentals",
           with_rentals st (map (fun r => if r_id r =? r_id rental
                                          then update_rental f r else r)
                                (rentals st)))
      | GET => (Rendered rental, st)
      end
  end.

End Rentals.

(** ** [add_payment] *)

Module Payments.

Record Form := mkForm {
  fm_amount : Q;
  fm_date : date;
  fm_location : option string;
  fm_fine_ids : list Z;
  fm_damage_ids : list Z;
  fm_salik_ids : list Z
}.

Record Page := mkPage {
  pg_outstanding_fines : list Fine;
  pg_outstanding_damages : list Damage;
  pg_outstanding_salik : list Salik
}.

(** [obj = Fine.query.get(fid)], then the two assignments if it exists;
    the primary key selects the row. *)
Definition settle_fine (fid : Z) (fs : list Fine) : list Fine :=
  map (fun f => if f_id f =? fid then Settle.pay_fine "rent" f else f) fs.

Definition settle_damage (did : Z) (ds : list Damage) : list Damage :=
  map (fun d => if d_id d =? did then Settle.pay_damage "rent" d else d) ds.

Definition settle_salik (sid : Z) (ss : list Salik) : list Salik :=
  map (fun s => if s_id s =? sid then Settle.pay_salik "rent" s else s) ss.

(** The three [for] loops over the selected ids. *)
Definition settle_fines (ids : list Z) (fs : list Fine) : list Fine :=
  fold_left (fun acc fid => settle_fine fid acc) ids fs.

Definition settle_damages (ids : list Z) (ds : list Damage) : list Damage :=
  fold_left (fun acc did => settle_damage did acc) ids ds.

Definition settle_saliks (ids : list Z) (ss : list Salik) : list Salik :=
  fold_left (fun acc sid => settle_salik sid acc) ids ss.

Definition new_payment (st : Store) (rental : Rental) (f : Form) : Payment :=
  {| p_id := Rentals.fresh_id (map p_id (payments st));
     p_rental_id := r_id rental;
     p_amount := Some (fm_amount f);
     p_date := fm_date f;
     p_location := fm_location f |}.

Definition add_payment (method : Method) (rental_id : Z) (f : Form) (st : Store)
  : Outcome Page * Store :=
  match get_rental st rental_id with
  | None => (NotFound, st)
  | Some rental =>
      match rental_customer st rental with
      | None => (Raised "AttributeError", st)
      | Some c =>
          match method with
          | POST =>
              (Redirected "list_rentals",
               {| customers := customers st;
                  cars := cars st;
                  rentals := rentals st;
                  payments := payments st ++ [new_payment st rental f];
                  fines := settle_fines (fm_fine_ids f) (fines st);
                  damages := settle_damages (fm_damage_ids f) (damages st);
                  saliks := settle_saliks (fm_salik_ids f) (saliks st);
                  bookings := bookings st |})
          | GET =>
              (Rendered {| pg_outstanding_fines := outstanding_fines st rental c;
                           pg_outstanding_damages := outstanding_damages st rental c;
                           pg_outstanding_salik := outstanding_salik st rental |},
               st)
          end
      end
  end.

End Payments.

(** The store once one more payment row has been written, the other
    tables as they were. *)
Definition with_payment (st : Store) (p : Payment) : Store :=
  {| customers := customers st; cars := cars st; rentals := rentals st;
     payments := payments st ++ [p]; fines := fines st;
     damages := damages st; saliks := saliks st; bookings := bookings st |}.

(** ** Occupancy: [date_in_range], [is_rented_today], [is_booked_today],
       and the row that [availability] builds for a car *)

Module Occupancy.

Definition date_in_range (d start end_ : date) : bool :=
  (start <=? d) && (d <=? end_).

(** The test on a rental in [is_rented_today]; the loop of
    [availability] that picks [active_rental] uses the same three
    conditions. A [date] is always truthy, so [r.start_date and ...]
    passes for every row. *)
Definition rental_active (today : date) (r : Rental) : bool :=
  match r_end_date r with
  | None => true
  | Some e => today <=? e
  end && (r_start_date r <=? today).

Definition is_rented_today (st : Store) (c : Car) (today : date) : bool :=
  existsb (rental_active today) (rentals_of_car st (car_id c)).

Definition booking_active (today : date) (b : Booking) : bool :=
  date_in_range today (b_start_date b) (b_end_date b).

Definition is_booked_today (st : Store) (c : Car) (today : date) : bool :=
  existsb (booking_active today) (bookings_of_car st (car_id c)).

Inductive Status := Available | Rented | Booked.

(** The [info] string: empty, "Available from <date>", "Open ended" or
    "Booked until <date>". *)
Inductive Info :=
| NoInfo
| AvailableFrom (d : date)
| OpenEnded
| BookedUntil (d : date).

(** The body of the loop over the cars; [None] is the [OverflowError]
    of [end_date + timedelta(days=1)]. *)
Definition availability_row (st : Store) (today : date) (c : Car)
  : option (Status * Info) :=
  if is_rented_today st c today then
    match find (rental_active today) (rentals_of_car st (car_id c)) with
    | Some active_rental =>
        match r_end_date active_rental with
        | Some e =>
            match add_days e 1 with
            | Some available_date => Some (Rented, AvailableFrom available_date)
            | None => None
            end
        | None => Some (Rented, OpenEnded)
        end
    | None => Some (Rented, NoInfo)
    end
  else if is_booked_today st c today then
    match find (booking_active today) (bookings_of_car st (car_id c)) with
    | Some active_booking => Some (Booked, BookedUntil (b_end_date active_booking))
    | None => Some (Booked, NoInfo)
    end
  else Some (Available, NoInfo).

(** The loop itself, over the cars the query returned. *)
Fixpoint availability_rows (st : Store) (today : date) (cs : list Car)
  : option (list (Car * Status * Info)) :=
  match cs with
  | [] => Some []
  | c :: rest =>
      match availability_row st today c with
      | None => None
      | Some (status, info) =>
          match availability_rows st today rest with
          | None => None
          | Some rows => Some ((c, status, info) :: rows)
          end
      end
  end.

End Occupancy.

(** * Specification-level vocabulary

    The quantities the properties are stated with, written from their
    descriptions rather than from the code: a plain sum, a missing amount
    read as zero, the unpaid charges of a rental, open-ended ranges. *)

Module Spec.

Fixpoint total (l : list Q) : Q :=
  match l with
  | [] => 0%Q
  | x :: rest => (x + total rest)%Q
  end.

Definition amount (a : option Q) : Q :=
  match a with
  | Some v => v
  | None => 0%Q
  end.

(** Unpaid fines and damages of the rental's car and customer, and
    unpaid toll entries of the rental. *)
Definition unpaid_fine (r : Rental) (f : Fine) : bool :=
  (f_car_id f =? r_car_id r) && (f_customer_id f =? r_customer_id r)
  && negb (f_paid f).

Definition unpaid_damage (r : Rental) (d : Damage) : bool :=
  (d_car_id d =? r_car_id r) && (d_customer_id d =? r_customer_id r)
  && negb (d_paid d).

Definition unpaid_salik (r : Rental) (s : Salik) : bool :=
  (s_rental_id s =? r_id r) && negb (s_paid s).

Definition unpaid_charges (st : Store) (r : Rental) : Q :=
  (total (map (fun f => amount (f_amount f)) (filter (unpaid_fine r) (fines st)))
   + total (map (fun d => amount (d_amount d)) (filter (unpaid_damage r) (damages st)))
   + total (map (fun s => amount (s_amount s)) (filter (unpaid_salik r) (saliks st))))%Q.

Definition payments_total (st : Store) (r : Rental) : Q :=
  total (map (fun p => amount (p_amount p))
             (filter (fun p => p_rental_id p =? r_id r) (payments st))).

(** A charge [x'] is the charge [x] marked paid and settled via [via],
    nothing else changed. *)
Definition fine_paid_via (via : string) (f f' : Fine) : Prop :=
  f_id f' = f_id f /\ f_car_id f' = f_car_id f
  /\ f_customer_id f' = f_customer_id f /\ f_amount f' = f_amount f
  /\ f_paid f' = true /\ f_settled_via f' = Some via.

Definition damage_paid_via (via : string) (d d' : Damage) : Prop :=
  d_id d' = d_id d /\ d_car_id d' = d_car_id d
  /\ d_customer_id d' = d_customer_id d /\ d_amount d' = d_amount d
  /\ d_paid d' = true /\ d_settled_via d' = Some via.

Definition salik_paid_via (via : string) (s s' : Salik) : Prop :=
  s_id s' = s_id s /\ s_car_id s' = s_car_id s
  /\ s_rental_id s' = s_rental_id s /\ s_amount s' = s_amount s
  /\ s_paid s' = true /\ s_settled_via s' = Some via.

(** Row by row, the table [after] is the table [before] with exactly the
    rows selected by [sel] changed as [paid] says. *)
Definition marked {A} (sel : A -> bool) (paid : A -> A -> Prop)
           (before after : list A) : Prop :=
  Forall2 (fun x x' => if sel x then paid x x' else x' = x) before after.

(** The key [k] is one of the selected ids. *)
Definition selected (ids : list Z) (k : Z) : bool :=
  existsb (Z.eqb k) ids.

(** [d <= e], an absent [e] being +infinity. *)
Definition le_end (d : date) (e : option date) : Prop :=
  match e with
  | Some e' => d <= e'
  | None => True
  end.

(** rangesOverlap(aStart, aEnd, bStart, bEnd) *)
Definition ranges_overlap (a_start : date) (a_end : option date)
           (b_start : date) (b_end : option date) : Prop :=
  le_end a_start b_end /\ le_end b_start a_end.

(** Some rental of the car has started by [today] and has no end date
    or ends on [today] or later. *)
Definition rented (st : Store) (c : Car) (today : date) : Prop :=
  exists r, In r (rentals st) /\ r_car_id r = car_id c
            /\ r_start_date r <= today /\ le_end today (r_end_date r).

(** Some booking of the car contains [today], bounds included. *)
Definition booked (st : Store) (c : Car) (today : date) : Prop :=
  exists b, In b (bookings st) /\ b_car_id b = car_id c
            /\ b_start_date b <= today <= b_end_date b.

(** The rate of a rental: the actual rent if set, else the planned rent,
    else zero. *)
Definition rate (r : Rental) : Q :=
  match r_actual_rent r, r_planned_rent r with
  | Some a, _ => a
  | None, Some p => p
  | None, None => 0%Q
  end.

(** The billing interval in days, 30 when none is stored. *)
Definition billing_interval (r : Rental) : Z :=
  match r_billing_interval_days r with
  | Some 0 | None => 30
  | Some k => k
  end.

End Spec.

(** The dates of a rental are dates: Python builds no other. *)
Definition rental_dates_ok (r : Rental) : bool :=
  date_okb (r_start_date r)
  && match r_end_date r with
     | Some e => date_okb e
     | None => true
     end.

(** * Scenarios *)

Module Scenario.

Definition alice : Customer := {| c_id := 1; c_name := "Alice" |}.
Definition bob : Customer := {| c_id := 2; c_name := "Bob" |}.
Definition car1 : Car := {| car_id := 1; car_model := "Sunny" |}.
Definition car2 : Car := {| car_id := 2; car_model := "Yaris" |}.

Definition rental (id car cust : Z) (start : date) (end_ : option date)
           (actual deposit : option Q) : Rental :=
  {| r_id := id; r_car_id := car; r_customer_id := cust;
     r_start_date := start; r_end_date := end_;
     r_contract_type := match end_ with
                        | Some _ => "fixed"%string
                        | None => "open"%string
                        end;
     r_planned_rent := None; r_actual_rent := actual; r_deposit := deposit;
     r_deposit_refunded := false; r_deposit_refunded_amount := None;
     r_deposit_refund_date := None;
     r_billing_interval_days := Some 30;
     r_next_billing_date := add_days start 30 |}.

Definition store (rs : list Rental) (fs : list Fine) (ss : list Salik) : Store :=
  {| customers := [alice; bob]; cars := [car1; car2]; rentals := rs;
     payments := []; fines := fs; damages := []; saliks := ss;
     bookings := [] |}.

(** Rent of 3000 per 30 days from 2024-01-01, open ended. *)
Definition monthly : Store :=
  store [rental 1 1 1 (ymd2ord 2024 1 1) None (Some 3000%Q) None] [] [].

(** A rental entered with its end date before its start date. *)
Definition misdated : Store :=
  store [rental 1 1 1 (ymd2ord 2024 1 10) (Some (ymd2ord 2023 1 1))
                (Some 3000%Q) None] [] [].

(** A rental entered with a negative rent. *)
Definition negative_rent : Store :=
  store [rental 1 1 1 (ymd2ord 2024 1 1) None (Some (-100)%Q) None] [] [].

(** Deposit 5000, an unpaid fine of 1200 and an unpaid toll of 300. *)
Definition fine1200 : Fine :=
  {| f_id := 1; f_car_id := 1; f_customer_id := 1; f_amount := Some 1200%Q;
     f_paid := false; f_settled_via := None |}.

Definition toll300 : Salik :=
  {| s_id := 1; s_car_id := 1; s_rental_id := 1; s_amount := Some 300%Q;
     s_paid := false; s_settled_via := None |}.

Definition with_deposit : Store :=
  store [rental 1 1 1 (ymd2ord 2024 1 1) None (Some 3000%Q) (Some 5000%Q)]
        [fine1200] [toll300].

(** The same store once the rental has been settled on 2024-03-01. *)
Definition settled : Store :=
  snd (Settle.settle_rental (ymd2ord 2024 3 1) POST 1 with_deposit).

(** Car 1 rented from 1 to 10 January 2024. *)
Definition january : Store :=
  store [rental 1 1 1 (ymd2ord 2024 1 1) (Some (ymd2ord 2024 1 10)) None None]
        [] [].

(** The same rental under another primary key. *)
Definition january' : Store :=
  store [rental 7 1 1 (ymd2ord 2024 1 1) (Some (ymd2ord 2024 1 10)) None None]
        [] [].

Definition form (car cust : Z) (start : date) (end_ : option date)
  : Rentals.Form :=
  {| Rentals.fm_car_id := car; Rentals.fm_customer_id := cust;
     Rentals.fm_start_date := start; Rentals.fm_end_date := end_;
     Rentals.fm_planned_rent := None; Rentals.fm_actual_rent := None;
     Rentals.fm_deposit := None |}.

Definition jan5_jan15 : Rentals.Form :=
  form 1 2 (ymd2ord 2024 1 5) (Some (ymd2ord 2024 1 15)).

Definition jan11_jan20 : Rentals.Form :=
  form 1 2 (ymd2ord 2024 1 11) (Some (ymd2ord 2024 1 20)).

(** Car 1 rented from 1 to 10 January and again from 11 to 20 January. *)
Definition two_rentals : Store :=
  snd (Rentals.add_rental POST jan11_jan20 january).

(** A rental of car 1 that ended in January 2023 and was settled then. *)
Definition old_settled_rental : Rental :=
  {| r_id := 1; r_car_id := 1; r_customer_id := 1;
     r_start_date := ymd2ord 2023 1 1;
     r_end_date := Some (ymd2ord 2023 1 31);
     r_contract_type := "fixed";
     r_planned_rent := None; r_actual_rent := Some 3000%Q;
     r_deposit := Some 5000%Q;
     r_deposit_refunded := true;
     r_deposit_refunded_amount := Some 5000%Q;
     r_deposit_refund_date := Some (ymd2ord 2023 1 31);
     r_billing_interval_days := Some 30;
     r_next_billing_date := Some (ymd2ord 2023 1 31) |}.

Definition history : Store := store [old_settled_rental] [] [].

(** A back-dated rental of car 1 from 15 January 2023, open ended. *)
Definition backdated : Rentals.Form := form 1 2 (ymd2ord 2023 1 15) None.

(** Alice rents car 1, Bob rents car 2; the unpaid fine 7 is Bob's, on
    car 2. *)
Definition bobs_fine : Fine :=
  {| f_id := 7; f_car_id := 2; f_customer_id := 2; f_amount := Some 400%Q;
     f_paid := false; f_settled_via := None |}.

Definition two_customers : Store :=
  store [rental 1 1 1 (ymd2ord 2024 1 1) None (Some 3000%Q) None;
         rental 2 2 2 (ymd2ord 2024 1 1) None (Some 2000%Q) None]
        [bobs_fine] [].

(** Car 1 rented from 1 to 10 January 2024, car 2 booked from 3 to 8
    January 2024. *)
Definition with_booking : Store :=
  {| customers := [alice; bob]; cars := [car1; car2];
     rentals := rentals january;
     payments := []; fines := []; damages := []; saliks := [];
     bookings := [{| b_id := 1; b_car_id := 2;
                     b_start_date := ymd2ord 2024 1 3;
                     b_end_date := ymd2ord 2024 1 8 |}] |}.

Definition alice_pays : Payments.Form :=
  {| Payments.fm_amount := 3000%Q; Payments.fm_date := ymd2ord 2024 2 1;
     Payments.fm_location := Some "Dubai"%string;
     Payments.fm_fine_ids := [7]; Payments.fm_damage_ids := [];
     Payments.fm_salik_ids := [] |}.

End Scenario.

(** * Invariants of the rentals table *)

Module Invariant.

(** Two rentals are on the same car and their ranges intersect. *)
Definition clash (a b : Rental) : Prop :=
  r_car_id a = r_car_id b
  /\ Spec.ranges_overlap (r_start_date a) (r_end_date a)
                         (r_start_date b) (r_end_date b).

(** No two rows of the table clash. *)
Definition no_overlap (rs : list Rental) : Prop :=
  ForallOrdPairs (fun a b => ~ clash a b) rs.

End Invariant.

(** The response is a redirect: the only responses sent after a
    [db.session.commit()]. *)
Definition is_redirect {P} (o : Outcome P) : bool :=
  match o with
  | Redirected _ => true
  | _ => false
  end.

(** * The rest of the application *)

(** [sorted(l, key=...)]: Python's sort is stable; this one inserts each
    element before the first element of the sorted rest whose key is not
    smaller, which keeps equal keys in their order. *)
Fixpoint insert_by {A} (key : A -> Z) (x : A) (l : list A) : list A :=
  match l with
  | [] => [x]
  | y :: rest => if key x <=? key y then x :: l else y :: insert_by key x rest
  end.

Fixpoint sort_by {A} (key : A -> Z) (l : list A) : list A :=
  match l with
  | [] => []
  | x :: rest => insert_by key x (sort_by key rest)
  end.

(** [Car.query.get(car_id)], [Customer.query.get(customer_id)] *)
Definition get_car (st : Store) (id : Z) : option Car :=
  find (fun c => car_id c =? id) (cars st).

Definition get_customer (st : Store) (id : Z) : option Customer :=
  find (fun c => c_id c =? id) (customers st).

(** ** [rental_deposit_balance] *)

Module Deposit.

(** [x.settled_via == 'deposit'] *)
Definition via_deposit (v : option string) : bool :=
  match v with
  | Some s => String.eqb s "deposit"
  | None => false
  end.

(** [None] is the [AttributeError] of [rental.customer.fines] when the
    customer row is missing; it is not reached without a deposit. *)
Definition rental_deposit_balance (st : Store) (rental : Rental) : option Q :=
  match r_deposit rental with
  | None => Some 0%Q
  | Some deposit =>
      if Qeq_bool deposit 0 then Some 0%Q
      else
        match rental_customer st rental with
        | None => None
        | Some c =>
            let balance :=
              fold_left (fun b f =>
                           if (f_car_id f =? r_car_id rental)
                              && via_deposit (f_settled_via f)
                           then (b - Qor0 (f_amount f))%Q else b)
                        (customer_fines st c) deposit in
            let balance :=
              fold_left (fun b d =>
                           if (d_car_id d =? r_car_id rental)
                              && via_deposit (d_settled_via d)
                           then (b - Qor0 (d_amount d))%Q else b)
                        (customer_damages st c) balance in
            Some (py_max balance 0)
        end
  end.

End Deposit.

(** ** [add_fine], [add_damage], [add_salik] *)

Module Charges.

(** The fields of the three forms that reach the columns of the model. *)
Record Form := mkForm {
  fm_amount : Q;
  fm_paid : bool;
  fm_settled_via : option string
}.

Definition with_fines (st : Store) (fs : list Fine) : Store :=
  {| customers := customers st; cars := cars st; rentals := rentals st;
     payments := payments st; fines := fs; damages := damages st;
     saliks := saliks st; bookings := bookings st |}.

Definition with_damages (st : Store) (ds : list Damage) : Store :=
  {| customers := customers st; cars := cars st; rentals := rentals st;
     payments := payments st; fines := fines st; damages := ds;
     saliks := saliks st; bookings := bookings st |}.

Definition with_saliks (st : Store) (ss : list Salik) : Store :=
  {| customers := customers st; cars := cars st; rentals := rentals st;
     payments := payments st; fines := fines st; damages := damages st;
     saliks := ss; bookings := bookings st |}.

(** [request.form.get('settled_via') or None] *)
Definition or_none (v : option string) : option string :=
  match v with
  | Some s => if String.eqb s "" then None else Some s
  | None => None
  end.

Definition add_fine (method : Method) (cid cust_id : Z) (f : Form)
           (st : Store) : Outcome unit * Store :=
  match get_car st cid with
  | None => (NotFound, st)
  | Some car =>
      match get_customer st cust_id with
      | None => (NotFound, st)
      | Some customer =>
          match method with
          | POST =>
              (Redirected "list_rentals",
               with_fines st
                 (fines st ++ [{| f_id := Rentals.fresh_id (map f_id (fines st));
                                  f_car_id := car_id car;
                                  f_customer_id := c_id customer;
                                  f_amount := Some (fm_amount f);
                                  f_paid := fm_paid f;
                                  f_settled_via := fm_settled_via f |}]))
          | GET => (Rendered tt, st)
          end
      end
  end.

Definition add_damage (method : Method) (cid cust_id : Z) (f : Form)
           (st : Store) : Outcome unit * Store :=
  match get_car st cid with
  | None => (NotFound, st)
  | Some car =>
      match get_customer st cust_id with
      | None => (NotFound, st)
      | Some customer =>
          match method with
          | POST =>
              (Redirected "list_rentals",
               with_damages st
                 (damages st
                  ++ [{| d_id := Rentals.fresh_id (map d_id (damages st));
                         d_car_id := car_id car;
                         d_customer_id := c_id customer;
                         d_amount := Some (fm_amount f);
                         d_paid := fm_paid f;
                         d_settled_via := fm_settled_via f |}]))
          | GET => (Rendered tt, st)
          end
      end
  end.

Definition add_salik (method : Method) (rental_id : Z) (f : Form)
           (st : Store) : Outcome unit * Store :=
  match get_rental st rental_id with
  | None => (NotFound, st)
  | Some rental =>
      match method with
      | POST =>
          (Redirected "list_rentals",
           with_saliks st
             (saliks st ++ [{| s_id := Rentals.fresh_id (map s_id (saliks st));
                               s_car_id := r_car_id rental;
                               s_rental_id := rental_id;
                               s_amount := Some (fm_amount f);
                               s_paid := fm_paid f;
                               s_settled_via := or_none (fm_settled_via f) |}]))
      | GET => (Rendered tt, st)
      end
  end.

End Charges.

(** ** [add_booking] *)

Module Bookings.

Record Form := mkForm {
  fm_car_id : Z;
  fm_start_date : date;
  fm_end_date : date
}.

(** The page [add_booking.html]; the flashed message names the end date
    of the conflicting rental. *)
Record Page := mkPage {
  pg_flash : option date
}.

(** The two nested tests of the loop over [rentals_for_car]. *)
Definition covers (start_date : date) (r : Rental) : bool :=
  match r_end_date r with
  | None => true
  | Some e => start_date <=? e
  end && (r_start_date r <=? start_date).

Definition conflict_rental (st : Store) (f : Form) : option Rental :=
  find (covers (fm_start_date f)) (rentals_of_car st (fm_car_id f)).

Definition with_bookings (st : Store) (bs : list Booking) : Store :=
  {| customers := customers st; cars := cars st; rentals := rentals st;
     payments := payments st; fines := fines st; damages := damages st;
     saliks := saliks st; bookings := bs |}.

Definition new_booking (st : Store) (f : Form) : Booking :=
  {| b_id := Rentals.fresh_id (map b_id (bookings st));
     b_car_id := fm_car_id f;
     b_start_date := fm_start_date f;
     b_end_date := fm_end_date f |}.

Definition add_booking (method : Method) (f : Form) (st : Store)
  : Outcome Page * Store :=
  match method with
  | GET => (Rendered {| pg_flash := None |}, st)
  | POST =>
      let accept :=
        (Redirected "list_bookings",
         with_bookings st (bookings st ++ [new_booking st f])) in
      match conflict_rental st f with
      | Some r =>
          match r_end_date r with
          | Some e =>
              if fm_start_date f <=? e
              then (Rendered {| pg_flash := Some e |}, st)
              else accept
          | None => accept
          end
      | None => accept
      end
  end.

End Bookings.

(** ** [defleet_car] *)

Module Fleet.

Record CarOrder := mkCarOrder {
  co_id : Z;
  co_car_id : Z;
  co_order_index : Z
}.

Record DefleetedCar := mkDefleetedCar {
  df_id : Z;
  df_car_id : Z;
  df_date : date
}.

(** The two side tables of the cars. *)
Record Tables := mkTables {
  car_orders : list CarOrder;
  defleeted : list DefleetedCar
}.

(** [car.defleet_record] *)
Definition defleet_record (fl : Tables) (c : Car) : option DefleetedCar :=
  find (fun d => df_car_id d =? car_id c) (defleeted fl).

(** The test of the loop over [car.rentals]. *)
Definition blocks (today : date) (r : Rental) : bool :=
  negb (r_deposit_refunded r)
  && match r_end_date r with
     | None => true
     | Some e => today <=? e
     end.

Inductive Flash := CannotDefleet | HasBeenDefleeted.

(** Every path redirects to [list_cars]; what differs is the flashed
    message and what is written. *)
Definition defleet_car (today : date) (cid : Z) (st : Store) (fl : Tables)
  : Outcome unit * option Flash * Tables :=
  match get_car st cid with
  | None => (NotFound, None, fl)
  | Some car =>
      if existsb (blocks today) (rentals_of_car st (car_id car))
      then (Redirected "list_cars", Some CannotDefleet, fl)
      else
        match defleet_record fl car with
        | None =>
            (Redirected "list_cars", Some HasBeenDefleeted,
             {| car_orders := car_orders fl;
                defleeted :=
                  defleeted fl
                  ++ [{| df_id := Rentals.fresh_id (map df_id (defleeted fl));
                         df_car_id := car_id car;
                         df_date := today |}] |})
        | Some _ => (Redirected "list_cars", None, fl)
        end
  end.

(** ** [ensure_car_order], [move_car_up], [move_car_down] *)

(** [db.session.query(func.max(CarOrder.order_index)).scalar() or 0] *)
Definition max_index (os : list CarOrder) : Z :=
  match os with
  | [] => 0
  | o :: rest =>
      let m := fold_left Z.max (map co_order_index rest) (co_order_index o) in
      if m =? 0 then 0 else m
  end.

(** [co.order_index = idx] *)
Definition set_index (o : CarOrder) (idx : Z) : CarOrder :=
  {| co_id := co_id o; co_car_id := co_car_id o; co_order_index := idx |}.

(** The first loop: a row at the end of the order for each car without
    one. [existing_ids] is computed once, before the loop. *)
Definition add_missing (cs : list Car) (os : list CarOrder) : list CarOrder :=
  let existing_ids := map co_car_id os in
  snd (fold_left
         (fun state car =>
            if existsb (Z.eqb (car_id car)) existing_ids then state
            else
              (fst state + 1,
               snd state
               ++ [{| co_id := Rentals.fresh_id (map co_id (snd state));
                      co_car_id := car_id car;
                      co_order_index := fst state + 1 |}]))
         cs (max_index os, os)).

(** [enumerate(l, start=...)] *)
Fixpoint enumerate {A} (start : Z) (l : list A) : list (Z * A) :=
  match l with
  | [] => []
  | x :: rest => (start, x) :: enumerate (start + 1) rest
  end.

(** The second loop: the rows taken in the order of their index receive
    1, 2, 3, ... Rows with equal indices, whose order the query leaves
    open, are taken in table order; the rows the application writes never
    have equal indices. *)
Definition normalise (os : list CarOrder) : list CarOrder :=
  fold_left
    (fun acc ic =>
       map (fun o => if co_id o =? co_id (snd ic)
                     then set_index o (fst ic) else o) acc)
    (enumerate 1 (sort_by co_order_index os)) os.

Definition ensure_car_order (st : Store) (fl : Tables) : Tables :=
  {| car_orders := normalise (add_missing (cars st) (car_orders fl));
     defleeted := defleeted fl |}.

(** [a.order_index, b.order_index = b.order_index, a.order_index] *)
Definition swap_index (a b : CarOrder) (os : list CarOrder) : list CarOrder :=
  map (fun o => if co_id o =? co_id a then set_index o (co_order_index b)
                else if co_id o =? co_id b then set_index o (co_order_index a)
                else o) os.

Definition with_orders (fl : Tables) (os : list CarOrder) : Tables :=
  {| car_orders := os; defleeted := defleeted fl |}.

(** [order_by(CarOrder.order_index.desc())] sorts on the negated index. *)
Definition move_car_up (cid : Z) (st : Store) (fl : Tables)
  : Outcome unit * Tables :=
  let fl1 := ensure_car_order st fl in
  match find (fun o => co_car_id o =? cid) (car_orders fl1) with
  | None => (Redirected "list_cars", fl1)
  | Some current =>
      match sort_by (fun o => - co_order_index o)
                    (filter (fun o => co_order_index o <? co_order_index current)
                            (car_orders fl1)) with
      | prev :: _ =>
          (Redirected "list_cars",
           with_orders fl1 (swap_index current prev (car_orders fl1)))
      | [] => (Redirected "list_cars", fl1)
      end
  end.

Definition move_car_down (cid : Z) (st : Store) (fl : Tables)
  : Outcome unit * Tables :=
  let fl1 := ensure_car_order st fl in
  match find (fun o => co_car_id o =? cid) (car_orders fl1) with
  | None => (Redirected "list_cars", fl1)
  | Some current =>
      match sort_by co_order_index
                    (filter (fun o => co_order_index current <? co_order_index o)
                            (car_orders fl1)) with
      | nxt :: _ =>
          (Redirected "list_cars",
           with_orders fl1 (swap_index current nxt (car_orders fl1)))
      | [] => (Redirected "list_cars", fl1)
      end
  end.

End Fleet.

(** ** The counters and the overdue rentals of [index] *)

Module Dashboard.

(** [sum(1 for x in l if p(x))] *)
Definition count {A} (p : A -> bool) (l : list A) : Z :=
  fold_left (fun acc x => if p x then acc + 1 else acc) l 0.

Definition total_cars (st : Store) : Z := Z.of_nat (List.length (cars st)).

Definition rented_count (st : Store) (today : date) : Z :=
  count (fun c => Occupancy.is_rented_today st c today) (cars st).

Definition booked_count (st : Store) (today : date) : Z :=
  count (fun c => negb (Occupancy.is_rented_today st c today)
                  && Occupancy.is_booked_today st c today) (cars st).

Definition available_count (st : Store) (today : date) : Z :=
  total_cars st - rented_count st today - booked_count st today.

(** The loop over the payments sorted by date: the date of the last one.
    Every payment of the model has a date, so [p.date or date.min] is
    [p.date]. *)
Definition last_payment_date (ps : list Payment) : option date :=
  fold_left (fun _ p => Some (p_date p)) (sort_by p_date ps) None.

(** The test that puts a rental on the list of overdue rentals. *)
Definition overdue (st : Store) (today : date) (r : Rental) : bool :=
  match r_end_date r with
  | None => true
  | Some e => today <=? e
  end
  && match last_payment_date (rental_payments st r) with
     | None => true
     | Some d => 30 <? days_between today d
     end.

Definition overdue_rentals (st : Store) (today : date) : list Rental :=
  filter (overdue st today) (rentals st).

End Dashboard.

(** ** [list_rentals], [list_settled_rentals] *)

Module Listing.

(** Rows with equal start dates are kept in table order. *)
Definition list_rentals (st : Store) : list Rental :=
  sort_by r_start_date (filter (fun r => negb (r_deposit_refunded r)) (rentals st)).

Definition list_settled_rentals (st : Store) : list Rental :=
  filter r_deposit_refunded (rentals st).

End Listing.

(** ** The day counts of [reports] *)

Module Reports.

(** [min(start_dates)] if there is one, else [today]. *)
Definition earliest (today : date) (car_rentals : list Rental) : date :=
  match map r_start_date car_rentals with
  | [] => today
  | d :: ds => fold_left Z.min ds d
  end.

Definition days_rented (today : date) (car_rentals : list Rental) : Z :=
  fold_left (fun acc r =>
               let e := match r_end_date r with
                        | Some e => e
                        | None => today
                        end in
               acc + (days_between e (r_start_date r) + 1))
            car_rentals 0.

Definition total_period (today : date) (car_rentals : list Rental) : Z :=
  let t := days_between today (earliest today car_rentals) + 1 in
  if t <? 1 then 1 else t.

End Reports.

(** ** Vocabulary for the deposit *)

Module Ledger.

(** A charge of the rental's car and customer that was settled via the
    deposit. *)
Definition fine_on_deposit (r : Rental) (f : Fine) : bool :=
  (f_car_id f =? r_car_id r) && (f_customer_id f =? r_customer_id r)
  && Deposit.via_deposit (f_settled_via f).

Definition damage_on_deposit (r : Rental) (d : Damage) : bool :=
  (d_car_id d =? r_car_id r) && (d_customer_id d =? r_customer_id r)
  && Deposit.via_deposit (d_settled_via d).

End Ledger.

(** * More scenarios *)

Module Examples.

(** Car 1 is out on an open-ended rental since 2024-01-01, car 2 on a
    rental from 1 to 10 January 2024. *)
Definition open_and_fixed : Store :=
  Scenario.store
    [Scenario.rental 1 1 1 (ymd2ord 2024 1 1) None (Some 3000%Q) (Some 5000%Q);
     Scenario.rental 2 2 2 (ymd2ord 2024 1 1) (Some (ymd2ord 2024 1 10))
                     (Some 2000%Q) None]
    [] [].

Definition booking (car : Z) (start end_ : date) : Bookings.Form :=
  {| Bookings.fm_car_id := car; Bookings.fm_start_date := start;
     Bookings.fm_end_date := end_ |}.

Definition no_tables : Fleet.Tables :=
  {| Fleet.car_orders := []; Fleet.defleeted := [] |}.

End Examples.

(** The order in which [sort_by] leaves a list. *)
Definition key_le {A} (key : A -> Z) (a b : A) : Prop := key a <= key b.

(** ** Vocabulary for the day counts *)

Module Spans.

(** A range of days, bounds included, and the number of its days. *)
Definition span_len (p : Z * Z) : Z := snd p - fst p + 1.

Fixpoint total_len (l : list (Z * Z)) : Z :=
  match l with
  | [] => 0
  | p :: rest => span_len p + total_len rest
  end.

(** Two ranges have no day in common. *)
Definition apart (p q : Z * Z) : Prop := snd p < fst q \/ snd q < fst p.

(** The days of a rental up to [today]: from its start date to its end
    date, or to [today] when it has none. *)
Definition span (today : date) (r : Rental) : Z * Z :=
  (r_start_date r,
   match r_end_date r with
   | Some e => e
   | None => today
   end).

End Spans.

Module FleetExamples.

(** Three cars; the order table knows car 2 (index 5) and car 1 (index 9),
    and nothing of car 3 yet. *)
Definition three_cars : Store :=
  {| customers := [Scenario.alice];
     cars := [Scenario.car1; Scenario.car2;
              {| car_id := 3; car_model := "Pajero" |}];
     rentals := []; payments := []; fines := []; damages := [];
     saliks := []; bookings := [] |}.

Definition gappy : Fleet.Tables :=
  {| Fleet.car_orders :=
       [{| Fleet.co_id := 1; Fleet.co_car_id := 2; Fleet.co_order_index := 5 |};
        {| Fleet.co_id := 2; Fleet.co_car_id := 1; Fleet.co_order_index := 9 |}];
     Fleet.defleeted := [] |}.

End FleetExamples.

(** ** Vocabulary for the order of the cars *)

Module FleetSpec.

(** The order table as [ensure_car_order] leaves it: keys and cars occur
    once, every car has a row, and the indices are the numbers 1 to N. *)
Definition normal (st : Store) (fl : Fleet.Tables) : Prop :=
  NoDup (map Fleet.co_id (Fleet.car_orders fl))
  /\ NoDup (map Fleet.co_car_id (Fleet.car_orders fl))
  /\ (forall c, In c (cars st) ->
                In (car_id c) (map Fleet.co_car_id (Fleet.car_orders fl)))
  /\ Permutation (map Fleet.co_order_index (Fleet.car_orders fl))
                 (map (fun i => 1 + Z.of_nat i)
                      (seq 0 (List.length (Fleet.car_orders fl)))).

(** Exchanging the two numbers [a] and [b]. *)
Definition transpose (a b x : Z) : Z :=
  if x =? a then b else if x =? b then a else x.

End FleetSpec.

Module FleetExamples2.

(** The order table of the three cars once it has been put in order:
    car 2, car 1, car 3. *)
Definition ordered : Fleet.Tables :=
  {| Fleet.car_orders :=
       [{| Fleet.co_id := 1; Fleet.co_car_id := 2; Fleet.co_order_index := 1 |};
        {| Fleet.co_id := 2; Fleet.co_car_id := 1; Fleet.co_order_index := 2 |};
        {| Fleet.co_id := 3; Fleet.co_car_id := 3; Fleet.co_order_index := 3 |}];
     Fleet.defleeted := [] |}.

Definition row_of_car1 : Fleet.CarOrder :=
  {| Fleet.co_id := 2; Fleet.co_car_id := 1; Fleet.co_order_index := 2 |}.

End FleetExamples2.

(** * Sums in the order the code takes them

    [sum] adds from the left, starting from 0, and the deposit balance
    subtracts one charge after the other. The quantities below add and
    subtract in that very order, over the rows that the predicates of
    [Spec] and [Ledger] select, in table order, a missing amount counting
    as 0. A statement written with them regroups no sum and no difference:
    it names the additions and subtractions that the code performs, one by
    one, and so it does not depend on how they round. *)

Module Tally.

Definition fine_amounts (sel : Fine -> bool) (st : Store) : list Q :=
  map (fun f => Qor0 (f_amount f)) (filter sel (fines st)).

Definition damage_amounts (sel : Damage -> bool) (st : Store) : list Q :=
  map (fun d => Qor0 (d_amount d)) (filter sel (damages st)).

Definition salik_amounts (sel : Salik -> bool) (st : Store) : list Q :=
  map (fun s => Qor0 (s_amount s)) (filter sel (saliks st)).

Definition payment_amounts (st : Store) (r : Rental) : list Q :=
  map (fun p => Qor0 (p_amount p))
      (filter (fun p => p_rental_id p =? r_id r) (payments st)).

(** The sum of a list: [0 + a1 + a2 + ...], in list order. *)
Definition added (l : list Q) : Q := fold_left Qplus l 0%Q.

(** [b - a1 - a2 - ...], from the left. *)
Definition deduct (b : Q) (l : list Q) : Q := fold_left Qminus l b.

(** The unpaid charges of a rental: its fines, then its damages, then its
    toll entries. *)
Definition unpaid_charges (st : Store) (r : Rental) : Q :=
  (added (fine_amounts (Spec.unpaid_fine r) st)
   + added (damage_amounts (Spec.unpaid_damage r) st)
   + added (salik_amounts (Spec.unpaid_salik r) st))%Q.

Definition payments_total (st : Store) (r : Rental) : Q :=
  added (payment_amounts st r).

(** The deposit less the fines, then less the damages, of the rental's car
    and customer that [sel_f] and [sel_d] select. *)
Definition deposit_less (deposit : Q) (sel_f : Fine -> bool)
           (sel_d : Damage -> bool) (st : Store) : Q :=
  deduct (deduct deposit (fine_amounts sel_f st)) (damage_amounts sel_d st).

(** [x] when it is not negative, else [0]. *)
Definition floored (x : Q) : Q := if Qle_bool 0 x then x else 0%Q.

End Tally.

Module Paid.

(** The store of [Scenario.with_deposit] once 1000 has been paid on the
    rental. *)
Definition first_payment : Payment :=
  {| p_id := 1; p_rental_id := 1; p_amount := Some 1000%Q;
     p_date := ymd2ord 2024 1 15; p_location := None |}.

Definition second_payment : Payment :=
  {| p_id := 2; p_rental_id := 1; p_amount := Some 500%Q;
     p_date := ymd2ord 2024 2 1; p_location := None |}.

Definition once : Store := with_payment Scenario.with_deposit first_payment.

(** A payment of 3000 that ticks no charge. *)
Definition plain : Payments.Form :=
  {| Payments.fm_amount := 3000%Q; Payments.fm_date := ymd2ord 2024 2 1;
     Payments.fm_location := None;
     Payments.fm_fine_ids := []; Payments.fm_damage_ids := [];
     Payments.fm_salik_ids := [] |}.

(** A fine of 250 and a toll of 250, entered as unpaid. *)
Definition charge250 : Charges.Form :=
  {| Charges.fm_amount := 250%Q; Charges.fm_paid := false;
     Charges.fm_settled_via := None |}.

End Paid.

(** * Basic facts *)

Lemma date_okb_spec d : date_okb d = true <-> date_ok d.
Proof.
  unfold date_okb, date_ok. rewrite andb_true_iff, !Z.leb_le. tauto.
Qed.

Section PythonFacts.

Lemma Qor0_amount (a : option Q) : (Qor0 a == Spec.amount a)%Q.
Proof.
  destruct a as [v|]; simpl; [|reflexivity].
  destruct (Qeq_bool v 0) eqn:E; [|reflexivity].
  apply Qeq_bool_eq in E. symmetry. exact E.
Qed.

Lemma Zor_billing_interval (r : Rental) :
  Zor (r_billing_interval_days r) 30 = Spec.billing_interval r.
Proof.
  unfold Zor, Spec.billing_interval.
  destruct (r_billing_interval_days r) as [[|p|p]|]; reflexivity.
Qed.

Lemma fold_left_Qplus (l : list Q) (acc : Q) :
  (fold_left Qplus l acc == acc + Spec.total l)%Q.
Proof.
  revert acc. induction l as [|x l IH]; intros acc; simpl.
  - ring.
  - rewrite IH. ring.
Qed.

Lemma py_sum_total (l : list Q) : (py_sum l == Spec.total l)%Q.
Proof. unfold py_sum. rewrite fold_left_Qplus. ring. Qed.

Lemma total_map_ext {A} (f g : A -> Q) (l : list A) :
  (forall x, f x == g x)%Q ->
  (Spec.total (map f l) == Spec.total (map g l))%Q.
Proof.
  intros H. induction l as [|x l IH]; simpl; [reflexivity|].
  rewrite IH, (H x). reflexivity.
Qed.

Lemma py_sum_amounts {A} (amt : A -> option Q) (l : list A) :
  (py_sum (map (fun x => Qor0 (amt x)) l)
   == Spec.total (map (fun x => Spec.amount (amt x)) l))%Q.
Proof.
  rewrite py_sum_total. apply total_map_ext. intros x. apply Qor0_amount.
Qed.

Lemma py_max_Qmax (a b : Q) : (py_max a b == Qmax a b)%Q.
Proof.
  unfold py_max. destruct (Qle_bool b a) eqn:E.
  - apply Qle_bool_iff in E. symmetry. apply Q.max_l. exact E.
  - symmetry. apply Q.max_r.
    destruct (Qlt_le_dec a b) as [H|H]; [apply Qlt_le_weak; exact H|].
    apply Qle_bool_iff in H. congruence.
Qed.

Lemma py_max_nonneg (a : Q) : (0 <= py_max a 0)%Q.
Proof.
  unfold py_max. destruct (Qle_bool 0 a) eqn:E.
  - apply Qle_bool_iff. exact E.
  - apply Qle_refl.
Qed.

End PythonFacts.

Section StoreFacts.
Variable st : Store.

Lemma get_rental_id rid r : get_rental st rid = Some r -> r_id r = rid.
Proof.
  unfold get_rental. intros H. apply find_some in H as [_ H].
  apply Z.eqb_eq. exact H.
Qed.

Lemma get_rental_In rid r : get_rental st rid = Some r -> In r (rentals st).
Proof. unfold get_rental. intros H. apply find_some in H. tauto. Qed.

Lemma rental_customer_id r c :
  rental_customer st r = Some c -> c_id c = r_customer_id r.
Proof.
  unfold rental_customer. intros H. apply find_some in H as [_ H].
  apply Z.eqb_eq. exact H.
Qed.

Lemma filter_filter {A} (p q : A -> bool) (l : list A) :
  filter p (filter q l) = filter (fun x => q x && p x) l.
Proof.
  induction l as [|x l IH]; simpl; [reflexivity|].
  destruct (q x); simpl; [destruct (p x)|]; rewrite ?IH; reflexivity.
Qed.

Lemma outstanding_fines_spec r c :
  rental_customer st r = Some c ->
  outstanding_fines st r c = filter (Spec.unpaid_fine r) (fines st).
Proof.
  intros H. apply rental_customer_id in H.
  unfold outstanding_fines, customer_fines. rewrite filter_filter.
  apply filter_ext. intros f. unfold Spec.unpaid_fine. rewrite H.
  destruct (f_customer_id f =? r_customer_id r), (f_car_id f =? r_car_id r);
    reflexivity.
Qed.

Lemma outstanding_damages_spec r c :
  rental_customer st r = Some c ->
  outstanding_damages st r c = filter (Spec.unpaid_damage r) (damages st).
Proof.
  intros H. apply rental_customer_id in H.
  unfold outstanding_damages, customer_damages. rewrite filter_filter.
  apply filter_ext. intros d. unfold Spec.unpaid_damage. rewrite H.
  destruct (d_customer_id d =? r_customer_id r), (d_car_id d =? r_car_id r);
    reflexivity.
Qed.

Lemma outstanding_salik_spec r :
  outstanding_salik st r = filter (Spec.unpaid_salik r) (saliks st).
Proof.
  unfold outstanding_salik, salik_entries. rewrite filter_filter. reflexivity.
Qed.

Lemma charges_total_spec r c :
  rental_customer st r = Some c ->
  (charges_total st r c == Spec.unpaid_charges st r)%Q.
Proof.
  intros H. unfold charges_total, Spec.unpaid_charges.
  rewrite (outstanding_fines_spec r c H), (outstanding_damages_spec r c H),
    outstanding_salik_spec.
  rewrite !py_sum_amounts. reflexivity.
Qed.

End StoreFacts.


(** * The rent due *)

Section RentDue.

Lemma rent_rate_spec (r : Rental) : (Due.rent_rate r == Spec.rate r)%Q.
Proof.
  unfold Due.rent_rate, Spec.rate.
  destruct (r_actual_rent r) as [a|]; [reflexivity|].
  apply (Qor0_amount (r_planned_rent r)).
Qed.

Lemma period_end_mono (r : Rental) (a b : date) :
  a <= b -> Due.period_end r a <= Due.period_end r b.
Proof.
  intros Hab. unfold Due.period_end.
  destruct (r_end_date r) as [e|]; [|exact Hab].
  destruct (Z.ltb_spec e a), (Z.ltb_spec e b); lia.
Qed.

Lemma intervals_mono (r : Rental) (a b : date) :
  0 < Spec.billing_interval r -> a <= b ->
  Due.intervals r a <= Due.intervals r b.
Proof.
  intros Hk Hab. unfold Due.intervals, Due.days_active, days_between.
  rewrite Zor_billing_interval.
  pose proof (period_end_mono r a b Hab) as Hpe.
  apply Z.add_le_mono_r. apply Z.div_le_mono; lia.
Qed.

Lemma intervals_at_least_one (r : Rental) (today : date) :
  r_start_date r <= today ->
  Spec.le_end (r_start_date r) (r_end_date r) ->
  0 < Spec.billing_interval r ->
  1 <= Due.intervals r today.
Proof.
  intros Hs He Hk. unfold Due.intervals, Due.days_active, days_between.
  rewrite Zor_billing_interval.
  assert (0 <= Due.period_end r today - r_start_date r) as Hd.
  { unfold Due.period_end. unfold Spec.le_end in He.
    destruct (r_end_date r) as [e|]; [|lia].
    destruct (Z.ltb_spec e today); lia. }
  pose proof (Z.div_pos _ _ Hd Hk). lia.
Qed.

Lemma rental_due_summary_renders st today rid rental c :
  get_rental st rid = Some rental ->
  rental_customer st rental = Some c ->
  exists pg,
    Due.rental_due_summary today rid st = (Rendered pg, st)
    /\ Due.pg_period_end pg = Due.period_end rental today
    /\ Due.pg_intervals pg = Due.intervals rental today
    /\ Due.pg_base_due pg = Due.base_due rental today
    /\ Due.pg_charges_due pg = charges_total st rental c
    /\ Due.pg_total_payments pg
       = py_sum (map (fun p => Qor0 (p_amount p)) (rental_payments st rental))
    /\ Due.pg_due_amount pg
       = (Due.pg_base_due pg + Due.pg_charges_due pg - Due.pg_total_payments pg)%Q
    /\ Due.pg_outstanding_fines pg = outstanding_fines st rental c
    /\ Due.pg_outstanding_damages pg = outstanding_damages st rental c
    /\ Due.pg_outstanding_salik pg = outstanding_salik st rental.
Proof.
  intros Hr Hc. unfold Due.rental_due_summary. rewrite Hr, Hc.
  eexists. split; [reflexivity|]. simpl. repeat split; reflexivity.
Qed.

End RentDue.

(** C1 (amended). For every stored rental and every query date, the due
    summary ends the period at the rental's end date when that date is set
    and earlier than the query date, and at the query date otherwise; it
    counts [floor(days / interval) + 1] intervals, where [days] runs from
    the start date to the end of the period and the interval is the stored
    one (30 when absent or zero); the rate is the actual rent when set,
    else the planned rent, else zero; and the base amount due is the rate
    times the number of intervals. At least one interval is counted once
    the query date has reached the start date, provided the end date, when
    set, is not before the start date and the interval is positive. The
    scenario of the specification (start 2024-01-01, no end, interval 30,
    rent 3000, query date 2024-02-15) gives 45 days, 2 intervals, 6000. *)
Theorem rent_due_computation :
  (forall st today rid rental c,
      get_rental st rid = Some rental ->
      rental_customer st rental = Some c ->
      exists pg,
        Due.rental_due_summary today rid st = (Rendered pg, st)
        /\ let period_end :=
               match r_end_date rental with
               | Some e => if Z_lt_dec e today then e else today
               | None => today
               end in
           let days_active := period_end - r_start_date rental in
           let n := days_active / Spec.billing_interval rental + 1 in
           Due.pg_period_end pg = period_end
           /\ Due.pg_intervals pg = n
           /\ (Due.pg_base_due pg == Spec.rate rental * inject_Z n)%Q
           /\ (r_start_date rental <= today ->
               Spec.le_end (r_start_date rental) (r_end_date rental) ->
               0 < Spec.billing_interval rental ->
               1 <= n))
  /\ (let today := ymd2ord 2024 2 15 in
      exists r pg,
        get_rental Scenario.monthly 1 = Some r
        /\ Due.rental_due_summary today 1 Scenario.monthly
           = (Rendered pg, Scenario.monthly)
        /\ Due.days_active r today = 45
        /\ Due.pg_intervals pg = 2
        /\ (Due.pg_base_due pg == 6000)%Q).
Proof.
  split.
  - intros st today rid rental c Hr Hc.
    destruct (rental_due_summary_renders st today rid rental c Hr Hc)
      as (pg & Hpg & Hpe & Hn & Hb & _).
    exists pg. split; [exact Hpg|]. cbv zeta.
    assert (Due.period_end rental today
            = match r_end_date rental with
              | Some e => if Z_lt_dec e today then e else today
              | None => today
              end) as Epe.
    { unfold Due.period_end. destruct (r_end_date rental) as [e|]; [|reflexivity].
      destruct (Z.ltb_spec e today), (Z_lt_dec e today); try reflexivity; lia. }
    assert (Due.intervals rental today
            = (match r_end_date rental with
               | Some e => if Z_lt_dec e today then e else today
               | None => today
               end - r_start_date rental) / Spec.billing_interval rental + 1) as En.
    { unfold Due.intervals, Due.days_active, days_between.
      rewrite Zor_billing_interval, Epe. reflexivity. }
    split; [rewrite Hpe; exact Epe|]. split; [rewrite Hn; exact En|]. split.
    + rewrite Hb. unfold Due.base_due. rewrite rent_rate_spec, En. reflexivity.
    + intros Hs He Hk.
      pose proof (intervals_at_least_one rental today Hs He Hk) as H.
      rewrite En in H. exact H.
  - cbv zeta. eexists. eexists.
    split; [reflexivity|]. split; [vm_compute; reflexivity|].
    split; [reflexivity|]. split; reflexivity.
Qed.

Lemma rent_due_computation_witness :
  get_rental Scenario.with_deposit 1
  = Some (Scenario.rental 1 1 1 (ymd2ord 2024 1 1) None (Some 3000%Q) (Some 5000%Q))
  /\ exists pg,
      Due.rental_due_summary (ymd2ord 2024 4 1) 1 Scenario.with_deposit
      = (Rendered pg, Scenario.with_deposit)
      /\ Due.pg_intervals pg = 91 / 30 + 1 /\ 1 <= 91 / 30 + 1.
Proof.
  split; [reflexivity|].
  destruct (proj1 rent_due_computation Scenario.with_deposit (ymd2ord 2024 4 1) 1
              (Scenario.rental 1 1 1 (ymd2ord 2024 1 1) None
                               (Some 3000%Q) (Some 5000%Q))
              Scenario.alice eq_refl eq_refl)
    as (pg & Hpg & _ & Hn & _ & Hone).
  exists pg. split; [exact Hpg|]. split; [exact Hn|].
  apply Hone.
  - vm_compute. discriminate.
  - exact I.
  - reflexivity.
Defined.

(** The rental of [Scenario.misdated] has started by 2024-02-15, and the
    summary counts -12 intervals for it. *)
Lemma rent_due_misdated_counterexample :
  exists r pg,
    get_rental Scenario.misdated 1 = Some r
    /\ r_start_date r <= ymd2ord 2024 2 15
    /\ Due.rental_due_summary (ymd2ord 2024 2 15) 1 Scenario.misdated
       = (Rendered pg, Scenario.misdated)
    /\ Due.pg_intervals pg = -12
    /\ ~ 1 <= Due.pg_intervals pg.
Proof.
  eexists. eexists. split; [reflexivity|].
  split; [vm_compute; discriminate|].
  split; [vm_compute; reflexivity|].
  split; [reflexivity|]. simpl. vm_compute. intros H. apply H. reflexivity.
Qed.

(** C8 (amended). For a stored rental whose rate is not negative and whose
    billing interval is positive, the base amount due does not decrease
    when the query date moves forward. *)
Theorem base_due_monotone st rid rental c (a b : date) :
  get_rental st rid = Some rental ->
  rental_customer st rental = Some c ->
  (0 <= Spec.rate rental)%Q ->
  0 < Spec.billing_interval rental ->
  a <= b ->
  exists pa pb,
    Due.rental_due_summary a rid st = (Rendered pa, st)
    /\ Due.rental_due_summary b rid st = (Rendered pb, st)
    /\ (Due.pg_base_due pa <= Due.pg_base_due pb)%Q.
Proof.
  intros Hr Hc Hrate Hk Hab.
  destruct (rental_due_summary_renders st a rid rental c Hr Hc)
    as (pa & Hpa & _ & _ & Hba & _).
  destruct (rental_due_summary_renders st b rid rental c Hr Hc)
    as (pb & Hpb & _ & _ & Hbb & _).
  exists pa, pb. split; [exact Hpa|]. split; [exact Hpb|].
  rewrite Hba, Hbb. unfold Due.base_due. rewrite !rent_rate_spec.
  pose proof (intervals_mono rental a b Hk Hab) as Hn.
  rewrite Zle_Qle in Hn.
  rewrite !(Qmult_comm (Spec.rate rental)).
  apply Qmult_le_compat_r; assumption.
Qed.

Lemma base_due_monotone_witness :
  (0 <= 3000)%Q /\ 0 < 30 /\ ymd2ord 2024 1 15 <= ymd2ord 2024 2 15
  /\ exists pa pb,
      Due.rental_due_summary (ymd2ord 2024 1 15) 1 Scenario.monthly
      = (Rendered pa, Scenario.monthly)
      /\ Due.rental_due_summary (ymd2ord 2024 2 15) 1 Scenario.monthly
         = (Rendered pb, Scenario.monthly)
      /\ (Due.pg_base_due pa <= Due.pg_base_due pb)%Q.
Proof.
  assert (0 <= 3000)%Q as H1 by (vm_compute; discriminate).
  assert (0 < 30) as H2 by reflexivity.
  assert (ymd2ord 2024 1 15 <= ymd2ord 2024 2 15) as H3
      by (vm_compute; discriminate).
  split; [exact H1|]. split; [exact H2|]. split; [exact H3|].
  exact (base_due_monotone Scenario.monthly 1
           (Scenario.rental 1 1 1 (ymd2ord 2024 1 1) None (Some 3000%Q) None)
           Scenario.alice (ymd2ord 2024 1 15) (ymd2ord 2024 2 15)
           eq_refl eq_refl H1 H2 H3).
Defined.

(** With a rent of -100 the base amount due is -100 on 2024-01-15 and -200
    on 2024-02-15. *)
Lemma base_due_negative_rent_counterexample :
  exists pa pb,
    ymd2ord 2024 1 15 <= ymd2ord 2024 2 15
    /\ Due.rental_due_summary (ymd2ord 2024 1 15) 1 Scenario.negative_rent
       = (Rendered pa, Scenario.negative_rent)
    /\ Due.rental_due_summary (ymd2ord 2024 2 15) 1 Scenario.negative_rent
       = (Rendered pb, Scenario.negative_rent)
    /\ (Due.pg_base_due pa == -100)%Q
    /\ (Due.pg_base_due pb == -200)%Q
    /\ ~ (Due.pg_base_due pa <= Due.pg_base_due pb)%Q.
Proof.
  eexists. eexists.
  split; [vm_compute; discriminate|].
  split; [vm_compute; reflexivity|].
  split; [vm_compute; reflexivity|].
  split; [reflexivity|]. split; [reflexivity|].
  vm_compute. intros H. apply H. reflexivity.
Qed.

(** * The amount outstanding *)

Section FlatCredit.
Variable st : Store.

Lemma total_app (l1 l2 : list Q) :
  (Spec.total (l1 ++ l2) == Spec.total l1 + Spec.total l2)%Q.
Proof.
  induction l1 as [|x l1 IH]; simpl; [ring|]. rewrite IH. ring.
Qed.

End FlatCredit.

Section RunningSums.

Lemma added_snoc (l : list Q) (a : Q) :
  Tally.added (l ++ [a]) = (Tally.added l + a)%Q.
Proof. unfold Tally.added. rewrite fold_left_app. reflexivity. Qed.

Lemma deduct_le (l : list Q) (b : Q) :
  Forall (fun a => (0 <= a)%Q) l -> (Tally.deduct b l <= b)%Q.
Proof.
  unfold Tally.deduct. revert b.
  induction l as [|a l IH]; intros b Hl; simpl; [lra|].
  inversion Hl as [|? ? Ha Hl']; subst.
  specialize (IH (b - a)%Q Hl'). lra.
Qed.

Lemma floored_nonneg (x : Q) : (0 <= Tally.floored x)%Q.
Proof.
  unfold Tally.floored. destruct (Qle_bool 0 x) eqn:E; [|lra].
  apply Qle_bool_iff. exact E.
Qed.

Lemma floored_le (x y : Q) :
  (x <= y)%Q -> (Tally.floored x <= Tally.floored y)%Q.
Proof.
  intros Hxy. unfold Tally.floored.
  destruct (Qle_bool 0 x) eqn:Ex, (Qle_bool 0 y) eqn:Ey.
  - exact Hxy.
  - apply Qle_bool_iff in Ex.
    assert (Qle_bool 0 y = true) as H by (apply Qle_bool_iff; lra).
    congruence.
  - apply Qle_bool_iff. exact Ey.
  - lra.
Qed.

Lemma floored_le_bound (x d : Q) :
  (0 <= d)%Q -> (x <= d)%Q -> (Tally.floored x <= d)%Q.
Proof.
  intros Hd Hx. unfold Tally.floored. destruct (Qle_bool 0 x); assumption.
Qed.

Lemma py_max_floored (x : Q) : py_max x 0 = Tally.floored x.
Proof. reflexivity. Qed.

Variable st : Store.
Variables (rental : Rental) (c : Customer).
Hypothesis Hc : rental_customer st rental = Some c.

Lemma charges_total_tally :
  charges_total st rental c = Tally.unpaid_charges st rental.
Proof.
  unfold charges_total, Tally.unpaid_charges, Tally.fine_amounts,
    Tally.damage_amounts, Tally.salik_amounts.
  rewrite (outstanding_fines_spec st rental c Hc),
    (outstanding_damages_spec st rental c Hc), outstanding_salik_spec.
  reflexivity.
Qed.

Lemma payments_with_payment (p : Payment) :
  p_rental_id p = r_id rental ->
  Tally.payment_amounts (with_payment st p) rental
  = Tally.payment_amounts st rental ++ [Qor0 (p_amount p)].
Proof.
  intros Hp. unfold Tally.payment_amounts. simpl.
  rewrite filter_app. simpl. rewrite Hp, Z.eqb_refl, map_app. reflexivity.
Qed.

Lemma due_summary_tally today rid :
  get_rental st rid = Some rental ->
  exists pg,
    Due.rental_due_summary today rid st = (Rendered pg, st)
    /\ Due.pg_base_due pg = Due.base_due rental today
    /\ Due.pg_charges_due pg = Tally.unpaid_charges st rental
    /\ Due.pg_total_payments pg = Tally.payments_total st rental
    /\ Due.pg_due_amount pg
       = (Due.pg_base_due pg + Due.pg_charges_due pg
          - Due.pg_total_payments pg)%Q
    /\ Due.pg_outstanding_fines pg = filter (Spec.unpaid_fine rental) (fines st)
    /\ Due.pg_outstanding_damages pg
       = filter (Spec.unpaid_damage rental) (damages st)
    /\ Due.pg_outstanding_salik pg = filter (Spec.unpaid_salik rental) (saliks st).
Proof.
  intros Hr.
  destruct (rental_due_summary_renders st today rid rental c Hr Hc)
    as (pg & Hpg & _ & _ & Hb & Hch & Hpay & Hdue & Hf & Hd & Hs).
  exists pg. split; [exact Hpg|]. split; [exact Hb|].
  split; [rewrite Hch; apply charges_total_tally|].
  split; [rewrite Hpay; reflexivity|]. split; [exact Hdue|].
  rewrite Hf, Hd, Hs.
  rewrite (outstanding_fines_spec st rental c Hc),
    (outstanding_damages_spec st rental c Hc), outstanding_salik_spec.
  repeat split.
Qed.

End RunningSums.

(** C6. For every stored rental and query date, the amount due shown by
    the summary is the base amount due, plus the unpaid fines and damages
    of the rental's car and customer and the unpaid toll entries of the
    rental, minus the payments recorded on the rental, each sum taken over
    the rows in table order. The summary writes nothing. A further payment
    on the rental comes last in the payments sum, as one more term: the
    base amount, the charges and the three lists of outstanding charges
    stay as they were, no charge is marked, the amount due is the base
    amount plus the charges minus the new payments sum, and it does not
    rise when the amount paid is not negative. *)
Theorem due_amount_flat_credit st today rid rental c :
  get_rental st rid = Some rental ->
  rental_customer st rental = Some c ->
  exists pg,
    Due.rental_due_summary today rid st = (Rendered pg, st)
    /\ Due.pg_base_due pg = Due.base_due rental today
    /\ Due.pg_charges_due pg = Tally.unpaid_charges st rental
    /\ Due.pg_total_payments pg = Tally.payments_total st rental
    /\ Due.pg_due_amount pg
       = (Due.base_due rental today + Tally.unpaid_charges st rental
          - Tally.payments_total st rental)%Q
    /\ forall p, p_rental_id p = r_id rental ->
         exists pg',
           Due.rental_due_summary today rid (with_payment st p)
           = (Rendered pg', with_payment st p)
           /\ Due.pg_total_payments pg'
              = Tally.added (Tally.payment_amounts st rental
                             ++ [Qor0 (p_amount p)])
           /\ Due.pg_due_amount pg'
              = (Due.pg_base_due pg + Due.pg_charges_due pg
                 - Due.pg_total_payments pg')%Q
           /\ Due.pg_base_due pg' = Due.pg_base_due pg
           /\ Due.pg_charges_due pg' = Due.pg_charges_due pg
           /\ Due.pg_outstanding_fines pg' = Due.pg_outstanding_fines pg
           /\ Due.pg_outstanding_damages pg' = Due.pg_outstanding_damages pg
           /\ Due.pg_outstanding_salik pg' = Due.pg_outstanding_salik pg
           /\ fines (with_payment st p) = fines st
           /\ damages (with_payment st p) = damages st
           /\ saliks (with_payment st p) = saliks st
           /\ ((0 <= Qor0 (p_amount p))%Q ->
               (Due.pg_due_amount pg' <= Due.pg_due_amount pg)%Q).
Proof.
  intros Hr Hc.
  destruct (due_summary_tally st rental c Hc today rid Hr)
    as (pg & Hpg & Hb & Hch & Hpay & Hdue & Hf & Hd & Hs).
  exists pg. split; [exact Hpg|]. split; [exact Hb|]. split; [exact Hch|].
  split; [exact Hpay|].
  split; [rewrite Hdue, Hb, Hch, Hpay; reflexivity|].
  intros p Hp.
  destruct (due_summary_tally (with_payment st p) rental c Hc today rid Hr)
    as (pg' & Hpg' & Hb' & Hch' & Hpay' & Hdue' & Hf' & Hd' & Hs').
  assert (Due.pg_total_payments pg'
          = Tally.added (Tally.payment_amounts st rental
                         ++ [Qor0 (p_amount p)])) as Etot.
  { rewrite Hpay'. unfold Tally.payments_total.
    rewrite (payments_with_payment st rental p Hp). reflexivity. }
  assert (Due.pg_charges_due pg' = Due.pg_charges_due pg) as Ech.
  { rewrite Hch', Hch. reflexivity. }
  assert (Due.pg_base_due pg' = Due.pg_base_due pg) as Eb.
  { rewrite Hb', Hb. reflexivity. }
  assert (Due.pg_due_amount pg'
          = (Due.pg_base_due pg + Due.pg_charges_due pg
             - Due.pg_total_payments pg')%Q) as Ed.
  { rewrite Hdue', Eb, Ech. reflexivity. }
  exists pg'. split; [exact Hpg'|]. split; [exact Etot|]. split; [exact Ed|].
  split; [exact Eb|]. split; [exact Ech|].
  split; [rewrite Hf', Hf; reflexivity|].
  split; [rewrite Hd', Hd; reflexivity|].
  split; [rewrite Hs', Hs; reflexivity|].
  split; [reflexivity|]. split; [reflexivity|]. split; [reflexivity|].
  intros Hp0. rewrite Ed, Etot, added_snoc, Hdue, Hpay.
  unfold Tally.payments_total. lra.
Qed.

Lemma due_amount_flat_credit_witness :
  exists pg pg',
    Due.rental_due_summary (ymd2ord 2024 2 15) 1 Paid.once
    = (Rendered pg, Paid.once)
    /\ (Due.pg_due_amount pg == 6000 + (1200 + 300) - 1000)%Q
    /\ Due.rental_due_summary (ymd2ord 2024 2 15) 1
         (with_payment Paid.once Paid.second_payment)
       = (Rendered pg', with_payment Paid.once Paid.second_payment)
    /\ (Due.pg_total_payments pg' == 1000 + 500)%Q
    /\ (Due.pg_due_amount pg' == 6000 + (1200 + 300) - (1000 + 500))%Q
    /\ (Due.pg_due_amount pg' <= Due.pg_due_amount pg)%Q.
Proof.
  destruct (due_amount_flat_credit Paid.once (ymd2ord 2024 2 15) 1
              (Scenario.rental 1 1 1 (ymd2ord 2024 1 1) None
                               (Some 3000%Q) (Some 5000%Q))
              Scenario.alice eq_refl eq_refl)
    as (pg & Hpg & Hb & Hch & Hpay & Hdue & Hnext).
  destruct (Hnext Paid.second_payment eq_refl)
    as (pg' & Hpg' & Etot & Ed & _ & _ & _ & _ & _ & _ & _ & _ & Hle).
  exists pg, pg'. split; [exact Hpg|].
  split; [rewrite Hdue; vm_compute; reflexivity|].
  split; [exact Hpg'|].
  split; [rewrite Etot; vm_compute; reflexivity|].
  split; [rewrite Ed, Etot, Hb, Hch; vm_compute; reflexivity|].
  apply Hle. vm_compute. discriminate.
Defined.

(** * Settlement *)

Section SettlementFacts.

Lemma marked_map {A} (sel : A -> bool) (paid : A -> A -> Prop) (g : A -> A)
      (l : list A) :
  (forall x, sel x = true -> paid x (g x)) ->
  Spec.marked sel paid l (map (fun x => if sel x then g x else x) l).
Proof.
  intros Hg. unfold Spec.marked.
  induction l as [|x l IH]; simpl; constructor; [|exact IH].
  destruct (sel x) eqn:E; [apply Hg; exact E|reflexivity].
Qed.

Lemma marked_ext {A} (sel sel' : A -> bool) (paid : A -> A -> Prop)
      (l l' : list A) :
  (forall x, sel x = sel' x) ->
  Spec.marked sel paid l l' -> Spec.marked sel' paid l l'.
Proof.
  intros He H. unfold Spec.marked in *.
  induction H as [|x x' l l' Hx _ IH]; constructor; [|exact IH].
  rewrite <- He. exact Hx.
Qed.

Lemma pay_fine_spec via f : Spec.fine_paid_via via f (Settle.pay_fine via f).
Proof. repeat split. Qed.

Lemma pay_damage_spec via d : Spec.damage_paid_via via d (Settle.pay_damage via d).
Proof. repeat split. Qed.

Lemma pay_salik_spec via s : Spec.salik_paid_via via s (Settle.pay_salik via s).
Proof. repeat split. Qed.

Lemma fine_selected_spec r c f :
  c_id c = r_customer_id r ->
  Settle.fine_selected r c f = Spec.unpaid_fine r f.
Proof.
  intros H. unfold Settle.fine_selected, Spec.unpaid_fine. rewrite H.
  destruct (f_customer_id f =? r_customer_id r), (f_car_id f =? r_car_id r);
    reflexivity.
Qed.

Lemma damage_selected_spec r c d :
  c_id c = r_customer_id r ->
  Settle.damage_selected r c d = Spec.unpaid_damage r d.
Proof.
  intros H. unfold Settle.damage_selected, Spec.unpaid_damage. rewrite H.
  destruct (d_customer_id d =? r_customer_id r), (d_car_id d =? r_car_id r);
    reflexivity.
Qed.

(** Looking a row up by its key after the rows with that key have been
    updated in place. *)
Lemma find_updated (k : Z) (g : Rental -> Rental) (l : list Rental) :
  (forall r, r_id (g r) = r_id r) ->
  find (fun r => r_id r =? k) (map (fun r => if r_id r =? k then g r else r) l)
  = option_map g (find (fun r => r_id r =? k) l).
Proof.
  intros Hg. induction l as [|r l IH]; simpl; [reflexivity|].
  destruct (r_id r =? k) eqn:E.
  - rewrite Hg, E. reflexivity.
  - rewrite E. exact IH.
Qed.

Lemma refundable_spec (deposit : option Q) (total spec_total : Q) :
  (total == spec_total)%Q ->
  (py_max (Qor0 deposit - total) 0
   == Qmax (Spec.amount deposit - spec_total) 0)%Q.
Proof.
  intros H. rewrite py_max_Qmax, (Qor0_amount deposit), H. reflexivity.
Qed.

Variable st : Store.
Variables (today : date) (rid : Z) (rental : Rental) (c : Customer).
Hypothesis Hr : get_rental st rid = Some rental.
Hypothesis Hc : rental_customer st rental = Some c.

Lemma settle_preview :
  Settle.settle_rental today GET rid st
  = (Rendered {| Settle.pg_outstanding_fines := outstanding_fines st rental c;
                 Settle.pg_outstanding_damages := outstanding_damages st rental c;
                 Settle.pg_outstanding_salik := outstanding_salik st rental;
                 Settle.pg_total_charges := charges_total st rental c;
                 Settle.pg_refundable := (Settle.refundable st rental c) |}, st).
Proof. unfold Settle.settle_rental. rewrite Hr, Hc. reflexivity. Qed.

Lemma settle_commit :
  Settle.settle_rental today POST rid st
  = (Redirected "list_rentals", Settle.commit today rental c (Settle.refundable st rental c) st).
Proof. unfold Settle.settle_rental. rewrite Hr, Hc. reflexivity. Qed.

Lemma commit_rental :
  get_rental (Settle.commit today rental c (Settle.refundable st rental c) st) rid
  = Some (Settle.close_rental today (Settle.refundable st rental c) rental).
Proof.
  unfold get_rental. simpl. rewrite (get_rental_id st rid rental Hr).
  rewrite find_updated by reflexivity.
  unfold get_rental in Hr. rewrite Hr. reflexivity.
Qed.

Lemma commit_charges :
  let st' := Settle.commit today rental c (Settle.refundable st rental c) st in
  Spec.marked (Spec.unpaid_fine rental) (Spec.fine_paid_via "deposit")
              (fines st) (fines st')
  /\ Spec.marked (Spec.unpaid_damage rental) (Spec.damage_paid_via "deposit")
                 (damages st) (damages st')
  /\ Spec.marked (Spec.unpaid_salik rental) (Spec.salik_paid_via "deposit")
                 (saliks st) (saliks st').
Proof.
  pose proof (rental_customer_id st rental c Hc) as Hid.
  simpl. split; [|split].
  - apply (marked_ext (Settle.fine_selected rental c)).
    + intros f. apply fine_selected_spec. exact Hid.
    + apply marked_map. intros f _. apply pay_fine_spec.
  - apply (marked_ext (Settle.damage_selected rental c)).
    + intros d. apply damage_selected_spec. exact Hid.
    + apply marked_map. intros d _. apply pay_damage_spec.
  - apply (marked_ext (Settle.salik_selected rental)).
    + intros s. reflexivity.
    + apply marked_map. intros s _. apply pay_salik_spec.
Qed.

Lemma refundable_now_spec :
  ((Settle.refundable st rental c)
   == Qmax (Spec.amount (r_deposit rental) - Spec.unpaid_charges st rental) 0)%Q.
Proof.
  unfold Settle.refundable. apply refundable_spec.
  apply charges_total_spec. exact Hc.
Qed.

End SettlementFacts.

(** C2. For every stored rental, the settlement preview shows as total
    charges the sum of the unpaid fines and damages of the rental's car and
    customer and of the unpaid toll entries of the rental, and as
    refundable amount [max(deposit - total charges, 0)], a missing deposit
    counting as zero. The preview leaves the store as it was. The
    refundable amount is never negative: when the charges reach or exceed
    the deposit it is zero, and nothing records the shortfall. *)
Theorem settlement_preview st today rid rental c :
  get_rental st rid = Some rental ->
  rental_customer st rental = Some c ->
  exists pg,
    Settle.settle_rental today GET rid st = (Rendered pg, st)
    /\ (Settle.pg_total_charges pg == Spec.unpaid_charges st rental)%Q
    /\ (Settle.pg_refundable pg
        == Qmax (Spec.amount (r_deposit rental) - Settle.pg_total_charges pg) 0)%Q
    /\ (0 <= Settle.pg_refundable pg)%Q
    /\ ((Spec.amount (r_deposit rental) <= Settle.pg_total_charges pg)%Q ->
        (Settle.pg_refundable pg == 0)%Q).
Proof.
  intros Hr Hc. eexists. split; [apply settle_preview; eassumption|]. simpl.
  pose proof (charges_total_spec st rental c Hc) as Hch.
  assert (Settle.refundable st rental c
          == Qmax (Spec.amount (r_deposit rental) - charges_total st rental c) 0)%Q
    as Href by (apply refundable_spec; reflexivity).
  split; [exact Hch|]. split; [exact Href|]. split.
  - apply py_max_nonneg.
  - intros Hle. rewrite Href. apply Q.max_r. lra.
Qed.

Lemma settlement_preview_witness :
  exists pg,
    Settle.settle_rental (ymd2ord 2024 3 1) GET 1 Scenario.with_deposit
    = (Rendered pg, Scenario.with_deposit)
    /\ (Settle.pg_total_charges pg == 1500)%Q
    /\ (0 <= Settle.pg_refundable pg)%Q.
Proof.
  destruct (settlement_preview Scenario.with_deposit (ymd2ord 2024 3 1) 1
              (Scenario.rental 1 1 1 (ymd2ord 2024 1 1) None
                               (Some 3000%Q) (Some 5000%Q))
              Scenario.alice eq_refl eq_refl)
    as (pg & Hpg & Htot & _ & Hpos & _).
  exists pg. split; [exact Hpg|]. split; [|exact Hpos].
  rewrite Htot. vm_compute. reflexivity.
Defined.

(** C5. For every stored rental, committing the settlement marks every
    unpaid fine and damage of the rental's car and customer and every
    unpaid toll entry of the rental as paid and settled via the deposit,
    and changes no other charge; it sets [deposit_refunded], stores the
    refundable amount of the preview as [deposit_refunded_amount] and today
    as [deposit_refund_date], and gives a rental without end date today as
    its end date. With a deposit of 5000, a fine of 1200 and a toll of 300
    the total is 1500, the refund 3500, and both charges end up paid via
    the deposit. *)
Theorem settlement_commit :
  (forall st today rid rental c,
      get_rental st rid = Some rental ->
      rental_customer st rental = Some c ->
      exists pg st' rental',
        Settle.settle_rental today GET rid st = (Rendered pg, st)
        /\ Settle.settle_rental today POST rid st = (Redirected "list_rentals", st')
        /\ Spec.marked (Spec.unpaid_fine rental) (Spec.fine_paid_via "deposit")
                       (fines st) (fines st')
        /\ Spec.marked (Spec.unpaid_damage rental) (Spec.damage_paid_via "deposit")
                       (damages st) (damages st')
        /\ Spec.marked (Spec.unpaid_salik rental) (Spec.salik_paid_via "deposit")
                       (saliks st) (saliks st')
        /\ get_rental st' rid = Some rental'
        /\ r_deposit_refunded rental' = true
        /\ r_deposit_refunded_amount rental' = Some (Settle.pg_refundable pg)
        /\ r_deposit_refund_date rental' = Some today
        /\ r_end_date rental' = match r_end_date rental with
                                | Some e => Some e
                                | None => Some today
                                end)
  /\ (let today := ymd2ord 2024 3 1 in
      exists pg st' rental',
        Settle.settle_rental today GET 1 Scenario.with_deposit
        = (Rendered pg, Scenario.with_deposit)
        /\ Settle.settle_rental today POST 1 Scenario.with_deposit
           = (Redirected "list_rentals", st')
        /\ (Settle.pg_total_charges pg == 1500)%Q
        /\ get_rental st' 1 = Some rental'
        /\ r_deposit_refunded_amount rental' = Some 3500%Q
        /\ fines st' = [Settle.pay_fine "deposit" Scenario.fine1200]
        /\ saliks st' = [Settle.pay_salik "deposit" Scenario.toll300]
        /\ Spec.fine_paid_via "deposit" Scenario.fine1200
                              (Settle.pay_fine "deposit" Scenario.fine1200)
        /\ Spec.salik_paid_via "deposit" Scenario.toll300
                               (Settle.pay_salik "deposit" Scenario.toll300)).
Proof.
  split.
  - intros st today rid rental c Hr Hc.
    destruct (commit_charges st today rental c Hc) as (Hf & Hd & Hs).
    eexists. eexists. eexists.
    split; [apply settle_preview; eassumption|].
    split; [apply settle_commit; eassumption|].
    split; [exact Hf|]. split; [exact Hd|]. split; [exact Hs|].
    split; [apply commit_rental; assumption|].
    simpl. split; [reflexivity|]. split; [reflexivity|].
    split; [reflexivity|].
    destruct (r_end_date rental); reflexivity.
  - cbv zeta. eexists. eexists. eexists.
    split; [vm_compute; reflexivity|].
    split; [vm_compute; reflexivity|].
    split; [reflexivity|].
    split; [reflexivity|].
    split; [reflexivity|].
    split; [reflexivity|].
    split; [reflexivity|].
    split; [apply pay_fine_spec|apply pay_salik_spec].
Qed.

Lemma settlement_commit_witness :
  exists st' rental',
    Settle.settle_rental (ymd2ord 2024 3 1) POST 1 Scenario.with_deposit
    = (Redirected "list_rentals", st')
    /\ get_rental st' 1 = Some rental'
    /\ r_deposit_refunded rental' = true
    /\ r_end_date rental' = Some (ymd2ord 2024 3 1).
Proof.
  destruct (proj1 settlement_commit Scenario.with_deposit (ymd2ord 2024 3 1) 1
              (Scenario.rental 1 1 1 (ymd2ord 2024 1 1) None
                               (Some 3000%Q) (Some 5000%Q))
              Scenario.alice eq_refl eq_refl)
    as (pg & st' & rental' & _ & Hpost & _ & _ & _ & Hget & Href & _ & _ & Hend).
  exists st', rental'. repeat split; assumption.
Defined.

(** C3 (amended). Committing the settlement of a rental that is already
    settled is not refused: the route answers as for a first settlement and
    runs the same steps. Charges paid before stay as they were, so no
    charge is deducted twice; charges that are unpaid at that moment are
    marked paid via the deposit; [deposit_refunded] stays set, and
    [deposit_refunded_amount] and [deposit_refund_date] are overwritten
    with [max(deposit - charges unpaid now, 0)] and today. *)
Theorem settlement_commit_again st today rid rental c :
  get_rental st rid = Some rental ->
  rental_customer st rental = Some c ->
  r_deposit_refunded rental = true ->
  exists st' rental' amount,
    Settle.settle_rental today POST rid st = (Redirected "list_rentals", st')
    /\ Spec.marked (Spec.unpaid_fine rental) (Spec.fine_paid_via "deposit")
                   (fines st) (fines st')
    /\ Spec.marked (Spec.unpaid_damage rental) (Spec.damage_paid_via "deposit")
                   (damages st) (damages st')
    /\ Spec.marked (Spec.unpaid_salik rental) (Spec.salik_paid_via "deposit")
                   (saliks st) (saliks st')
    /\ get_rental st' rid = Some rental'
    /\ r_deposit_refunded rental' = true
    /\ r_deposit_refunded_amount rental' = Some amount
    /\ (amount
        == Qmax (Spec.amount (r_deposit rental) - Spec.unpaid_charges st rental) 0)%Q
    /\ r_deposit_refund_date rental' = Some today.
Proof.
  intros Hr Hc _.
  destruct (commit_charges st today rental c Hc) as (Hf & Hd & Hs).
  eexists. eexists. eexists.
  split; [apply settle_commit; eassumption|].
  split; [exact Hf|]. split; [exact Hd|]. split; [exact Hs|].
  split; [apply commit_rental; assumption|].
  simpl. split; [reflexivity|]. split; [reflexivity|].
  split; [apply refundable_now_spec; assumption|reflexivity].
Qed.

Lemma settlement_commit_again_witness :
  exists r st' rental' amount,
    get_rental Scenario.settled 1 = Some r
    /\ r_deposit_refunded r = true
    /\ Settle.settle_rental (ymd2ord 2024 3 2) POST 1 Scenario.settled
       = (Redirected "list_rentals", st')
    /\ fines st' = fines Scenario.settled
    /\ get_rental st' 1 = Some rental'
    /\ r_deposit_refunded_amount rental' = Some amount
    /\ (amount == 5000)%Q.
Proof.
  destruct (settlement_commit_again Scenario.settled (ymd2ord 2024 3 2) 1
              (Settle.close_rental (ymd2ord 2024 3 1) 3500%Q
                 (Scenario.rental 1 1 1 (ymd2ord 2024 1 1) None
                                  (Some 3000%Q) (Some 5000%Q)))
              Scenario.alice eq_refl eq_refl eq_refl)
    as (st' & rental' & amount & Hpost & _ & _ & _ & Hget & _ & Hamt & Hq & _).
  eexists. exists st', rental', amount.
  split; [reflexivity|]. split; [reflexivity|]. split; [exact Hpost|].
  split.
  - assert (st' = snd (Settle.settle_rental (ymd2ord 2024 3 2) POST 1
                         Scenario.settled)) as -> by (rewrite Hpost; reflexivity).
    reflexivity.
  - split; [exact Hget|]. split; [exact Hamt|].
    rewrite Hq. vm_compute. reflexivity.
Defined.

(** The rental of [Scenario.settled] was settled on 2024-03-01 with a
    refund of 3500. Committing its settlement again on 2024-03-02 is
    answered like the first time and rewrites the refund to 5000 and its
    date to 2024-03-02. *)
Lemma double_settlement_counterexample :
  exists r st' r',
    get_rental Scenario.settled 1 = Some r
    /\ r_deposit_refunded r = true
    /\ r_deposit_refunded_amount r = Some 3500%Q
    /\ r_deposit_refund_date r = Some (ymd2ord 2024 3 1)
    /\ Settle.settle_rental (ymd2ord 2024 3 2) POST 1 Scenario.settled
       = (Redirected "list_rentals", st')
    /\ get_rental st' 1 = Some r'
    /\ r_deposit_refunded_amount r' = Some 5000%Q
    /\ r_deposit_refund_date r' = Some (ymd2ord 2024 3 2)
    /\ st' <> Scenario.settled.
Proof.
  eexists. eexists. eexists.
  split; [reflexivity|]. split; [reflexivity|]. split; [reflexivity|].
  split; [reflexivity|]. split; [vm_compute; reflexivity|].
  split; [reflexivity|]. split; [reflexivity|]. split; [reflexivity|].
  vm_compute. intros H. discriminate H.
Qed.

(** * Overlapping rentals *)

Section OverlapFacts.

Lemma or_max_le_end (d : date) (e : option date) :
  d <= date_max ->
  (d <= Rentals.or_max e <-> Spec.le_end d e).
Proof.
  intros Hd. destruct e as [e|]; simpl; tauto.
Qed.

Lemma rental_dates_ok_start (r : Rental) :
  rental_dates_ok r = true -> r_start_date r <= date_max.
Proof.
  unfold rental_dates_ok. rewrite andb_true_iff. intros [H _].
  apply date_okb_spec in H. unfold date_ok in H. lia.
Qed.

Lemma overlaps_code (start : date) (end_ : option date) (r : Rental) :
  Rentals.overlaps start end_ r = true
  <-> r_start_date r <= Rentals.or_max end_
      /\ start <= Rentals.or_max (r_end_date r).
Proof.
  unfold Rentals.overlaps. rewrite andb_true_iff, !Z.leb_le. tauto.
Qed.

Lemma overlaps_spec (start : date) (end_ : option date) (r : Rental) :
  start <= date_max -> r_start_date r <= date_max ->
  (Rentals.overlaps start end_ r = true
   <-> Spec.ranges_overlap start end_ (r_start_date r) (r_end_date r)).
Proof.
  intros Hs Hr. rewrite overlaps_code. unfold Spec.ranges_overlap.
  rewrite (or_max_le_end _ end_ Hr), (or_max_le_end _ (r_end_date r) Hs).
  tauto.
Qed.

Variable st : Store.
Variable f : Rentals.Form.

Lemma conflict_rental_some r :
  Rentals.conflict_rental st f = Some r ->
  In r (rentals st) /\ r_car_id r = Rentals.fm_car_id f
  /\ Rentals.overlaps (Rentals.fm_start_date f) (Rentals.fm_end_date f) r = true.
Proof.
  unfold Rentals.conflict_rental, rentals_of_car. intros H.
  apply find_some in H as [Hin Hov]. apply filter_In in Hin as [Hin Hcar].
  apply Z.eqb_eq in Hcar. auto.
Qed.

Lemma conflict_rental_found r :
  In r (rentals st) -> r_car_id r = Rentals.fm_car_id f ->
  Rentals.overlaps (Rentals.fm_start_date f) (Rentals.fm_end_date f) r = true ->
  exists r', Rentals.conflict_rental st f = Some r'.
Proof.
  intros Hin Hcar Hov.
  destruct (Rentals.conflict_rental st f) as [r'|] eqn:E; [eauto|].
  unfold Rentals.conflict_rental in E.
  pose proof (find_none _ _ E r) as Hn. rewrite Hov in Hn.
  assert (false = true); [|discriminate]. symmetry. apply Hn.
  unfold rentals_of_car. apply filter_In. split; [exact Hin|].
  apply Z.eqb_eq. exact Hcar.
Qed.

Lemma conflict_rental_none :
  (forall r, In r (rentals st) -> r_car_id r = Rentals.fm_car_id f ->
             Rentals.overlaps (Rentals.fm_start_date f)
                              (Rentals.fm_end_date f) r = false) ->
  Rentals.conflict_rental st f = None.
Proof.
  intros H.
  destruct (Rentals.conflict_rental st f) as [r|] eqn:E; [|reflexivity].
  apply conflict_rental_some in E as (Hin & Hcar & Hov).
  rewrite (H r Hin Hcar) in Hov. discriminate.
Qed.

Lemma add_rental_rejects r :
  Rentals.conflict_rental st f = Some r ->
  Rentals.add_rental POST f st
  = (Rendered {| Rentals.pg_flash :=
                   Some {| Rentals.cf_start := r_start_date r;
                           Rentals.cf_end := r_end_date r |} |}, st).
Proof. intros H. unfold Rentals.add_rental. rewrite H. reflexivity. Qed.

Lemma add_rental_accepts nb :
  Rentals.conflict_rental st f = None ->
  add_days (Rentals.fm_start_date f) 30 = Some nb ->
  Rentals.add_rental POST f st
  = (Redirected "list_rentals",
     Rentals.with_rentals st (rentals st ++ [Rentals.new_rental st f nb])).
Proof. intros H Hnb. unfold Rentals.add_rental. rewrite H, Hnb. reflexivity. Qed.

End OverlapFacts.

(** C10. On creation the new range is compared with every rental stored
    for the car, whatever its settlement or activity status, an absent end
    date on either side standing for the maximum date: if any of them
    intersects the new range the creation is rejected, the store is left
    as it was and the dates of a conflicting rental are shown. This holds
    for a rental that ended in the past and whose deposit was refunded, as
    for the rental of [Scenario.history], so the check is stronger than one
    against active rentals only. *)
Theorem creation_checks_every_rental :
  (forall st f r,
      In r (rentals st) ->
      r_car_id r = Rentals.fm_car_id f ->
      r_start_date r <= Rentals.or_max (Rentals.fm_end_date f) ->
      Rentals.fm_start_date f <= Rentals.or_max (r_end_date r) ->
      exists r',
        In r' (rentals st)
        /\ r_car_id r' = Rentals.fm_car_id f
        /\ r_start_date r' <= Rentals.or_max (Rentals.fm_end_date f)
        /\ Rentals.fm_start_date f <= Rentals.or_max (r_end_date r')
        /\ Rentals.add_rental POST f st
           = (Rendered {| Rentals.pg_flash :=
                            Some {| Rentals.cf_start := r_start_date r';
                                    Rentals.cf_end := r_end_date r' |} |}, st))
  /\ (exists r e,
         rentals Scenario.history = [r]
         /\ r_deposit_refunded r = true
         /\ r_end_date r = Some e
         /\ e < ymd2ord 2024 1 1
         /\ Occupancy.rental_active (ymd2ord 2024 1 1) r = false
         /\ Rentals.add_rental POST Scenario.backdated Scenario.history
            = (Rendered {| Rentals.pg_flash :=
                             Some {| Rentals.cf_start := r_start_date r;
                                     Rentals.cf_end := r_end_date r |} |},
               Scenario.history)).
Proof.
  split.
  - intros st f r Hin Hcar H1 H2.
    destruct (conflict_rental_found st f r Hin Hcar) as [r' Hr'].
    { apply overlaps_code. split; assumption. }
    exists r'. pose proof (conflict_rental_some st f r' Hr') as (Hin' & Hcar' & Hov).
    apply overlaps_code in Hov as [Ha Hb].
    split; [exact Hin'|]. split; [exact Hcar'|]. split; [exact Ha|].
    split; [exact Hb|]. apply add_rental_rejects. exact Hr'.
  - eexists. eexists. split; [reflexivity|]. split; [reflexivity|].
    split; [reflexivity|]. split; [reflexivity|]. split; [reflexivity|].
    vm_compute. reflexivity.
Qed.

Lemma creation_checks_every_rental_witness :
  In Scenario.old_settled_rental (rentals Scenario.history)
  /\ r_deposit_refunded Scenario.old_settled_rental = true
  /\ exists r',
      In r' (rentals Scenario.history)
      /\ Rentals.add_rental POST Scenario.backdated Scenario.history
         = (Rendered {| Rentals.pg_flash :=
                          Some {| Rentals.cf_start := r_start_date r';
                                  Rentals.cf_end := r_end_date r' |} |},
            Scenario.history).
Proof.
  assert (In Scenario.old_settled_rental (rentals Scenario.history)) as Hin
      by (left; reflexivity).
  split; [exact Hin|]. split; [reflexivity|].
  destruct (proj1 creation_checks_every_rental Scenario.history Scenario.backdated
              Scenario.old_settled_rental Hin eq_refl)
    as (r' & Hin' & _ & _ & _ & Hrej).
  - vm_compute. discriminate.
  - vm_compute. discriminate.
  - exists r'. split; [exact Hin'|exact Hrej].
Defined.

(** C4 (amended). For every rental creation whose dates, and those of the
    stored rentals, are dates: if the new range, an absent end date being
    open ended, intersects the range of a rental stored for the same car,
    the creation is rejected, nothing is persisted and the start and end
    dates of a conflicting rental are shown; if it intersects none and the
    first billing date (thirty days after the start) is a date, the rental
    is stored. A request for 5 to 15 January on a car rented from 1 to 10
    January is rejected; one for 11 to 20 January is accepted. *)
Theorem creation_overlap_check :
  (forall st f,
      date_okb (Rentals.fm_start_date f) = true ->
      forallb rental_dates_ok (rentals st) = true ->
      ((exists r,
           In r (rentals st) /\ r_car_id r = Rentals.fm_car_id f
           /\ Spec.ranges_overlap (Rentals.fm_start_date f) (Rentals.fm_end_date f)
                                  (r_start_date r) (r_end_date r)) ->
       exists r',
         In r' (rentals st) /\ r_car_id r' = Rentals.fm_car_id f
         /\ Spec.ranges_overlap (Rentals.fm_start_date f) (Rentals.fm_end_date f)
                                (r_start_date r') (r_end_date r')
         /\ Rentals.add_rental POST f st
            = (Rendered {| Rentals.pg_flash :=
                             Some {| Rentals.cf_start := r_start_date r';
                                     Rentals.cf_end := r_end_date r' |} |}, st))
      /\ ((forall r,
              In r (rentals st) -> r_car_id r = Rentals.fm_car_id f ->
              ~ Spec.ranges_overlap (Rentals.fm_start_date f) (Rentals.fm_end_date f)
                                    (r_start_date r) (r_end_date r)) ->
          date_okb (Rentals.fm_start_date f + 30) = true ->
          exists new,
            Rentals.add_rental POST f st
            = (Redirected "list_rentals",
               Rentals.with_rentals st (rentals st ++ [new]))
            /\ r_car_id new = Rentals.fm_car_id f
            /\ r_start_date new = Rentals.fm_start_date f
            /\ r_end_date new = Rentals.fm_end_date f))
  /\ Rentals.add_rental POST Scenario.jan5_jan15 Scenario.january
     = (Rendered {| Rentals.pg_flash :=
                      Some {| Rentals.cf_start := ymd2ord 2024 1 1;
                              Rentals.cf_end := Some (ymd2ord 2024 1 10) |} |},
        Scenario.january)
  /\ (exists new,
         Rentals.add_rental POST Scenario.jan11_jan20 Scenario.january
         = (Redirected "list_rentals",
            Rentals.with_rentals Scenario.january
                                 (rentals Scenario.january ++ [new]))
         /\ r_start_date new = ymd2ord 2024 1 11
         /\ r_end_date new = Some (ymd2ord 2024 1 20)).
Proof.
  split; [|split].
  - intros st f Hs Hst.
    assert (Rentals.fm_start_date f <= date_max) as Hs'.
    { apply date_okb_spec in Hs. unfold date_ok in Hs. lia. }
    assert (forall r, In r (rentals st) -> r_start_date r <= date_max) as Hst'.
    { intros r Hin. apply rental_dates_ok_start.
      rewrite forallb_forall in Hst. apply Hst. exact Hin. }
    split.
    + intros (r & Hin & Hcar & Hov).
      destruct (conflict_rental_found st f r Hin Hcar) as [r' Hr'].
      { apply overlaps_spec; auto. }
      exists r'.
      pose proof (conflict_rental_some st f r' Hr') as (Hin' & Hcar' & Hov').
      apply overlaps_spec in Hov'; auto.
      split; [exact Hin'|]. split; [exact Hcar'|]. split; [exact Hov'|].
      apply add_rental_rejects. exact Hr'.
    + intros Hnone Hnb.
      eexists. split.
      * apply add_rental_accepts.
        -- apply conflict_rental_none. intros r Hin Hcar.
           destruct (Rentals.overlaps (Rentals.fm_start_date f)
                                      (Rentals.fm_end_date f) r) eqn:E;
             [|reflexivity].
           apply overlaps_spec in E; auto.
           exfalso. exact (Hnone r Hin Hcar E).
        -- unfold add_days. rewrite Hnb. reflexivity.
      * simpl. repeat split.
  - vm_compute. reflexivity.
  - eexists. split; [vm_compute; reflexivity|]. split; reflexivity.
Qed.

Lemma creation_overlap_check_witness :
  date_okb (Rentals.fm_start_date Scenario.jan5_jan15) = true
  /\ forallb rental_dates_ok (rentals Scenario.january) = true
  /\ exists r',
      In r' (rentals Scenario.january)
      /\ Rentals.add_rental POST Scenario.jan5_jan15 Scenario.january
         = (Rendered {| Rentals.pg_flash :=
                          Some {| Rentals.cf_start := r_start_date r';
                                  Rentals.cf_end := r_end_date r' |} |},
            Scenario.january).
Proof.
  split; [reflexivity|]. split; [reflexivity|].
  destruct (proj1 (proj1 creation_overlap_check Scenario.january
                         Scenario.jan5_jan15 eq_refl eq_refl))
    as (r' & Hin & _ & _ & Hrej).
  - exists (Scenario.rental 1 1 1 (ymd2ord 2024 1 1) (Some (ymd2ord 2024 1 10))
                            None None).
    split; [left; reflexivity|]. split; [reflexivity|].
    split; vm_compute; discriminate.
  - exists r'. split; [exact Hin|exact Hrej].
Defined.

(** Editing the second rental of [Scenario.two_rentals] to run from 5 to 15
    January is accepted and stored although car 1 is rented from 1 to 10
    January; and the response to a rejected creation is the same whatever
    the primary key of the conflicting rental. *)
Lemma edit_overlap_counterexample :
  (exists st' a b,
      Rentals.edit_rental POST 2 Scenario.jan5_jan15 Scenario.two_rentals
      = (Redirected "list_rentals", st')
      /\ rentals st' = [a; b]
      /\ r_id a <> r_id b
      /\ r_car_id a = r_car_id b
      /\ r_deposit_refunded a = false
      /\ Spec.ranges_overlap (r_start_date b) (r_end_date b)
                             (r_start_date a) (r_end_date a))
  /\ map r_id (rentals Scenario.january) <> map r_id (rentals Scenario.january')
  /\ fst (Rentals.add_rental POST Scenario.jan5_jan15 Scenario.january)
     = fst (Rentals.add_rental POST Scenario.jan5_jan15 Scenario.january').
Proof.
  split; [|split].
  - eexists. eexists. eexists.
    split; [vm_compute; reflexivity|]. split; [reflexivity|].
    split; [vm_compute; discriminate|]. split; [reflexivity|].
    split; [reflexivity|]. split; vm_compute; discriminate.
  - vm_compute. discriminate.
  - vm_compute. reflexivity.
Qed.

(** * Payments *)

Section PaymentFacts.

(** A loop that updates the row of each selected key updates exactly the
    rows whose key is selected. *)
Lemma fold_mark {A} (key : A -> Z) (pay : A -> A) (ids : list Z) (l : list A) :
  (forall x, key (pay x) = key x) ->
  (forall x, pay (pay x) = pay x) ->
  fold_left (fun acc i => map (fun x => if key x =? i then pay x else x) acc)
            ids l
  = map (fun x => if Spec.selected ids (key x) then pay x else x) l.
Proof.
  intros Hkey Hpay. revert l.
  induction ids as [|i ids IH]; intros l; simpl.
  - symmetry. apply map_id.
  - rewrite IH, map_map. apply map_ext. intros x.
    destruct (key x =? i) eqn:E; simpl.
    + rewrite Hkey, Hpay. destruct (Spec.selected ids (key x)); reflexivity.
    + reflexivity.
Qed.

Lemma settle_fines_marked ids fs :
  Spec.marked (fun f => Spec.selected ids (f_id f)) (Spec.fine_paid_via "rent")
              fs (Payments.settle_fines ids fs).
Proof.
  unfold Payments.settle_fines, Payments.settle_fine.
  rewrite (fold_mark f_id (Settle.pay_fine "rent")) by reflexivity.
  apply marked_map. intros f _. apply pay_fine_spec.
Qed.

Lemma settle_damages_marked ids ds :
  Spec.marked (fun d => Spec.selected ids (d_id d)) (Spec.damage_paid_via "rent")
              ds (Payments.settle_damages ids ds).
Proof.
  unfold Payments.settle_damages, Payments.settle_damage.
  rewrite (fold_mark d_id (Settle.pay_damage "rent")) by reflexivity.
  apply marked_map. intros d _. apply pay_damage_spec.
Qed.

Lemma settle_saliks_marked ids ss :
  Spec.marked (fun s => Spec.selected ids (s_id s)) (Spec.salik_paid_via "rent")
              ss (Payments.settle_saliks ids ss).
Proof.
  unfold Payments.settle_saliks, Payments.settle_salik.
  rewrite (fold_mark s_id (Settle.pay_salik "rent")) by reflexivity.
  apply marked_map. intros s _. apply pay_salik_spec.
Qed.

Lemma marked_none {A} (sel : A -> bool) (paid : A -> A -> Prop) (l l' : list A) :
  (forall x, In x l -> sel x = false) ->
  Spec.marked sel paid l l' -> l' = l.
Proof.
  intros Hsel H. unfold Spec.marked in H.
  induction H as [|x x' l l' Hx _ IH]; [reflexivity|].
  rewrite (Hsel x) in Hx by (left; reflexivity). subst x'.
  f_equal. apply IH. intros y Hy. apply Hsel. right. exact Hy.
Qed.

End PaymentFacts.

(** C7 (amended). For every payment recorded on a stored rental with lists
    of selected fine, damage and toll ids, exactly the fines, damages and
    toll entries whose id is in the list of their kind are marked paid and
    settled via rent, and every other charge stays as it was: an unselected
    charge remains unpaid, and a list naming no stored charge settles
    nothing. The lists are taken as given. *)
Theorem payment_settles_selected st rid f rental c :
  get_rental st rid = Some rental ->
  rental_customer st rental = Some c ->
  exists st' p,
    Payments.add_payment POST rid f st = (Redirected "list_rentals", st')
    /\ payments st' = payments st ++ [p]
    /\ p_rental_id p = rid
    /\ p_amount p = Some (Payments.fm_amount f)
    /\ Spec.marked (fun x => Spec.selected (Payments.fm_fine_ids f) (f_id x))
                   (Spec.fine_paid_via "rent") (fines st) (fines st')
    /\ Spec.marked (fun x => Spec.selected (Payments.fm_damage_ids f) (d_id x))
                   (Spec.damage_paid_via "rent") (damages st) (damages st')
    /\ Spec.marked (fun x => Spec.selected (Payments.fm_salik_ids f) (s_id x))
                   (Spec.salik_paid_via "rent") (saliks st) (saliks st')
    /\ ((forall x, In x (fines st) ->
                   Spec.selected (Payments.fm_fine_ids f) (f_id x) = false) ->
        fines st' = fines st)
    /\ ((forall x, In x (damages st) ->
                   Spec.selected (Payments.fm_damage_ids f) (d_id x) = false) ->
        damages st' = damages st)
    /\ ((forall x, In x (saliks st) ->
                   Spec.selected (Payments.fm_salik_ids f) (s_id x) = false) ->
        saliks st' = saliks st).
Proof.
  intros Hr Hc. unfold Payments.add_payment. rewrite Hr, Hc.
  eexists. eexists. split; [reflexivity|]. simpl.
  split; [reflexivity|]. split; [apply (get_rental_id st); exact Hr|].
  split; [reflexivity|].
  pose proof (settle_fines_marked (Payments.fm_fine_ids f) (fines st)) as Hf.
  pose proof (settle_damages_marked (Payments.fm_damage_ids f) (damages st)) as Hd.
  pose proof (settle_saliks_marked (Payments.fm_salik_ids f) (saliks st)) as Hs.
  split; [exact Hf|]. split; [exact Hd|]. split; [exact Hs|].
  split; [|split]; intros Hnone.
  - exact (marked_none _ _ _ _ Hnone Hf).
  - exact (marked_none _ _ _ _ Hnone Hd).
  - exact (marked_none _ _ _ _ Hnone Hs).
Qed.

Lemma payment_settles_selected_witness :
  exists st' p,
    Payments.add_payment POST 1 Scenario.alice_pays Scenario.two_customers
    = (Redirected "list_rentals", st')
    /\ payments st' = [p]
    /\ p_rental_id p = 1
    /\ damages st' = [].
Proof.
  destruct (payment_settles_selected Scenario.two_customers 1 Scenario.alice_pays
              (Scenario.rental 1 1 1 (ymd2ord 2024 1 1) None (Some 3000%Q) None)
              Scenario.alice eq_refl eq_refl)
    as (st' & p & Hpost & Hpay & Hrid & _ & _ & _ & _ & _ & Hd & _).
  exists st', p. split; [exact Hpost|]. split; [exact Hpay|].
  split; [exact Hrid|]. apply Hd. intros x [].
Defined.

(** Fine 7 is Bob's, on car 2: it is not among the outstanding charges of
    Alice's rental of car 1. A payment on that rental that selects id 7
    marks it paid via rent. *)
Lemma payment_unvalidated_counterexample :
  exists r pg st' f',
    get_rental Scenario.two_customers 1 = Some r
    /\ Spec.unpaid_fine r Scenario.bobs_fine = false
    /\ Payments.add_payment GET 1 Scenario.alice_pays Scenario.two_customers
       = (Rendered pg, Scenario.two_customers)
    /\ Payments.pg_outstanding_fines pg = []
    /\ Payments.add_payment POST 1 Scenario.alice_pays Scenario.two_customers
       = (Redirected "list_rentals", st')
    /\ fines Scenario.two_customers = [Scenario.bobs_fine]
    /\ fines st' = [f']
    /\ f_id f' = 7
    /\ f_paid Scenario.bobs_fine = false
    /\ f_paid f' = true
    /\ f_settled_via f' = Some "rent"%string.
Proof.
  eexists. eexists. eexists. eexists.
  split; [reflexivity|]. split; [reflexivity|].
  split; [vm_compute; reflexivity|]. split; [reflexivity|].
  split; [vm_compute; reflexivity|].
  repeat (split; [reflexivity|]). reflexivity.
Qed.

(** * Occupancy *)

Section OccupancyFacts.

Lemma existsb_find {A} (p : A -> bool) (l : list A) :
  existsb p l = true -> exists x, find p l = Some x.
Proof.
  induction l as [|x l IH]; simpl; [discriminate|].
  destruct (p x); [eauto|exact IH].
Qed.

Lemma rental_active_spec (today : date) (r : Rental) :
  Occupancy.rental_active today r = true
  <-> r_start_date r <= today /\ Spec.le_end today (r_end_date r).
Proof.
  unfold Occupancy.rental_active, Spec.le_end. rewrite andb_true_iff, Z.leb_le.
  destruct (r_end_date r) as [e|]; [rewrite Z.leb_le|]; intuition.
Qed.

Lemma booking_active_spec (today : date) (b : Booking) :
  Occupancy.booking_active today b = true
  <-> b_start_date b <= today <= b_end_date b.
Proof.
  unfold Occupancy.booking_active, Occupancy.date_in_range.
  rewrite andb_true_iff, !Z.leb_le. tauto.
Qed.

Variable st : Store.
Variable today : date.
Variable c : Car.

Lemma is_rented_today_spec :
  Occupancy.is_rented_today st c today = true <-> Spec.rented st c today.
Proof.
  unfold Occupancy.is_rented_today, Spec.rented, rentals_of_car.
  rewrite existsb_exists. split.
  - intros (r & Hin & Hact). apply filter_In in Hin as [Hin Hcar].
    apply Z.eqb_eq in Hcar. apply rental_active_spec in Hact.
    exists r. tauto.
  - intros (r & Hin & Hcar & Hs & He). exists r. split.
    + apply filter_In. split; [exact Hin|]. apply Z.eqb_eq. exact Hcar.
    + apply rental_active_spec. tauto.
Qed.

Lemma is_booked_today_spec :
  Occupancy.is_booked_today st c today = true <-> Spec.booked st c today.
Proof.
  unfold Occupancy.is_booked_today, Spec.booked, bookings_of_car.
  rewrite existsb_exists. split.
  - intros (b & Hin & Hact). apply filter_In in Hin as [Hin Hcar].
    apply Z.eqb_eq in Hcar. apply booking_active_spec in Hact.
    exists b. tauto.
  - intros (b & Hin & Hcar & Hd). exists b. split.
    + apply filter_In. split; [exact Hin|]. apply Z.eqb_eq. exact Hcar.
    + apply booking_active_spec. exact Hd.
Qed.

Lemma not_rented_false :
  ~ Spec.rented st c today -> Occupancy.is_rented_today st c today = false.
Proof.
  intros H. destruct (Occupancy.is_rented_today st c today) eqn:E;
    [|reflexivity].
  exfalso. apply H. apply is_rented_today_spec. exact E.
Qed.

Lemma not_booked_false :
  ~ Spec.booked st c today -> Occupancy.is_booked_today st c today = false.
Proof.
  intros H. destruct (Occupancy.is_booked_today st c today) eqn:E;
    [|reflexivity].
  exfalso. apply H. apply is_booked_today_spec. exact E.
Qed.

Lemma row_rented :
  Spec.rented st c today ->
  exists r,
    In r (rentals st) /\ r_car_id r = car_id c
    /\ r_start_date r <= today /\ Spec.le_end today (r_end_date r)
    /\ Occupancy.availability_row st today c
       = match r_end_date r with
         | Some e => match add_days e 1 with
                     | Some d => Some (Occupancy.Rented, Occupancy.AvailableFrom d)
                     | None => None
                     end
         | None => Some (Occupancy.Rented, Occupancy.OpenEnded)
         end.
Proof.
  intros H. apply is_rented_today_spec in H.
  unfold Occupancy.availability_row. rewrite H.
  unfold Occupancy.is_rented_today in H.
  destruct (existsb_find _ _ H) as [r Hr]. rewrite Hr.
  apply find_some in Hr as [Hin Hact].
  apply filter_In in Hin as [Hin Hcar]. apply Z.eqb_eq in Hcar.
  apply rental_active_spec in Hact as [Hs He].
  exists r. repeat (split; [assumption|]).
  destruct (r_end_date r) as [e|]; [|reflexivity].
  destruct (add_days e 1); reflexivity.
Qed.

Lemma row_booked :
  ~ Spec.rented st c today -> Spec.booked st c today ->
  exists b,
    In b (bookings st) /\ b_car_id b = car_id c
    /\ b_start_date b <= today <= b_end_date b
    /\ Occupancy.availability_row st today c
       = Some (Occupancy.Booked, Occupancy.BookedUntil (b_end_date b)).
Proof.
  intros Hnr H. apply is_booked_today_spec in H.
  unfold Occupancy.availability_row. rewrite (not_rented_false Hnr), H.
  unfold Occupancy.is_booked_today in H.
  destruct (existsb_find _ _ H) as [b Hb]. rewrite Hb.
  apply find_some in Hb as [Hin Hact].
  apply filter_In in Hin as [Hin Hcar]. apply Z.eqb_eq in Hcar.
  apply booking_active_spec in Hact.
  exists b. repeat (split; [assumption|]). reflexivity.
Qed.

Lemma row_available :
  ~ Spec.rented st c today -> ~ Spec.booked st c today ->
  Occupancy.availability_row st today c
  = Some (Occupancy.Available, Occupancy.NoInfo).
Proof.
  intros Hnr Hnb. unfold Occupancy.availability_row.
  rewrite (not_rented_false Hnr), (not_booked_false Hnb). reflexivity.
Qed.

Lemma row_status s i :
  Occupancy.availability_row st today c = Some (s, i) ->
  (s = Occupancy.Rented <-> Spec.rented st c today)
  /\ (s = Occupancy.Booked <-> ~ Spec.rented st c today /\ Spec.booked st c today)
  /\ (s = Occupancy.Available
      <-> ~ Spec.rented st c today /\ ~ Spec.booked st c today).
Proof.
  intros Hrow.
  destruct (Occupancy.is_rented_today st c today) eqn:Er.
  - assert (Spec.rented st c today) as HR by (apply is_rented_today_spec; exact Er).
    destruct (row_rented HR) as (r & _ & _ & _ & _ & Hrow').
    rewrite Hrow in Hrow'.
    assert (s = Occupancy.Rented) as ->.
    { destruct (r_end_date r) as [e|]; [destruct (add_days e 1)|];
        congruence. }
    repeat split; try tauto; try discriminate; intros [Hn _]; tauto.
  - assert (~ Spec.rented st c today) as HR.
    { intros H. apply is_rented_today_spec in H. congruence. }
    destruct (Occupancy.is_booked_today st c today) eqn:Eb.
    + assert (Spec.booked st c today) as HB
          by (apply is_booked_today_spec; exact Eb).
      destruct (row_booked HR HB) as (b & _ & _ & _ & Hrow').
      rewrite Hrow in Hrow'. assert (s = Occupancy.Booked) as -> by congruence.
      repeat split; try tauto; try discriminate.
    + assert (~ Spec.booked st c today) as HB.
      { intros H. apply is_booked_today_spec in H. congruence. }
      rewrite (row_available HR HB) in Hrow.
      assert (s = Occupancy.Available) as -> by congruence.
      repeat split; try tauto; try discriminate.
Qed.

End OccupancyFacts.

(** C9. For every car and reference date, the car is reported rented
    exactly when one of its rentals has started by that date and has no end
    date or ends on that date or later; otherwise booked exactly when one
    of its bookings contains the date, bounds included; otherwise
    available. For a rented car the information is "open ended" when the
    active rental has no end date and otherwise the day after its end
    date, when that day is a date; for a booked car it is the end date of
    the booking. *)
Theorem occupancy_status st today c :
  (Occupancy.is_rented_today st c today = true <-> Spec.rented st c today)
  /\ (Occupancy.is_booked_today st c today = true <-> Spec.booked st c today)
  /\ (Spec.rented st c today ->
      exists r,
        In r (rentals st) /\ r_car_id r = car_id c
        /\ r_start_date r <= today /\ Spec.le_end today (r_end_date r)
        /\ match r_end_date r with
           | None =>
               Occupancy.availability_row st today c
               = Some (Occupancy.Rented, Occupancy.OpenEnded)
           | Some e =>
               date_ok (e + 1) ->
               Occupancy.availability_row st today c
               = Some (Occupancy.Rented, Occupancy.AvailableFrom (e + 1))
           end)
  /\ (~ Spec.rented st c today -> Spec.booked st c today ->
      exists b,
        In b (bookings st) /\ b_car_id b = car_id c
        /\ b_start_date b <= today <= b_end_date b
        /\ Occupancy.availability_row st today c
           = Some (Occupancy.Booked, Occupancy.BookedUntil (b_end_date b)))
  /\ (~ Spec.rented st c today -> ~ Spec.booked st c today ->
      Occupancy.availability_row st today c
      = Some (Occupancy.Available, Occupancy.NoInfo))
  /\ (forall s i,
         Occupancy.availability_row st today c = Some (s, i) ->
         (s = Occupancy.Rented <-> Spec.rented st c today)
         /\ (s = Occupancy.Booked
             <-> ~ Spec.rented st c today /\ Spec.booked st c today)
         /\ (s = Occupancy.Available
             <-> ~ Spec.rented st c today /\ ~ Spec.booked st c today)).
Proof.
  split; [apply is_rented_today_spec|].
  split; [apply is_booked_today_spec|].
  split; [|split; [apply row_booked|split; [apply row_available|apply row_status]]].
  intros HR. destruct (row_rented st today c HR)
    as (r & Hin & Hcar & Hs & He & Hrow).
  exists r. repeat (split; [assumption|]).
  destruct (r_end_date r) as [e|]; [|exact Hrow].
  intros Hok. rewrite Hrow. unfold add_days.
  apply date_okb_spec in Hok. rewrite Hok. reflexivity.
Qed.

Lemma occupancy_status_witness :
  ~ Spec.rented Scenario.with_booking Scenario.car2 (ymd2ord 2024 1 5)
  /\ Spec.booked Scenario.with_booking Scenario.car2 (ymd2ord 2024 1 5)
  /\ exists b,
      In b (bookings Scenario.with_booking)
      /\ b_end_date b = ymd2ord 2024 1 8
      /\ Occupancy.availability_row Scenario.with_booking (ymd2ord 2024 1 5)
                                    Scenario.car2
         = Some (Occupancy.Booked, Occupancy.BookedUntil (b_end_date b)).
Proof.
  pose proof (occupancy_status Scenario.with_booking (ymd2ord 2024 1 5)
                               Scenario.car2) as (Hr & Hb & _ & Hbooked & _).
  assert (~ Spec.rented Scenario.with_booking Scenario.car2 (ymd2ord 2024 1 5))
    as H1 by (intros H; apply Hr in H; discriminate H).
  assert (Spec.booked Scenario.with_booking Scenario.car2 (ymd2ord 2024 1 5))
    as H2 by (apply Hb; reflexivity).
  split; [exact H1|]. split; [exact H2|].
  destruct (Hbooked H1 H2) as (b & Hin & _ & _ & Hrow).
  exists b. split; [exact Hin|]. split; [|exact Hrow].
  destruct Hin as [<-|[]]. reflexivity.
Defined.

(** * Further properties of the rent due *)

(** X1. Once the query date has reached the end date of a rental, the
    summary no longer moves: the period ends at the end date, and the
    number of intervals and the base amount due are those of the end date
    itself. *)
Theorem due_frozen_after_end st rid rental c (e asOf : date) :
  get_rental st rid = Some rental ->
  rental_customer st rental = Some c ->
  r_end_date rental = Some e ->
  e <= asOf ->
  exists pg pg_e,
    Due.rental_due_summary asOf rid st = (Rendered pg, st)
    /\ Due.rental_due_summary e rid st = (Rendered pg_e, st)
    /\ Due.pg_period_end pg = e
    /\ Due.pg_intervals pg = Due.pg_intervals pg_e
    /\ Due.pg_base_due pg = Due.pg_base_due pg_e.
Proof.
  intros Hr Hc He Hle.
  destruct (rental_due_summary_renders st asOf rid rental c Hr Hc)
    as (pg & Hpg & Hpe & Hn & Hb & _).
  destruct (rental_due_summary_renders st e rid rental c Hr Hc)
    as (pg_e & Hpg_e & _ & Hn_e & Hb_e & _).
  assert (Due.period_end rental asOf = e) as E1.
  { unfold Due.period_end. rewrite He. destruct (Z.ltb_spec e asOf); lia. }
  assert (Due.period_end rental e = e) as E2.
  { unfold Due.period_end. rewrite He. destruct (Z.ltb_spec e e); lia. }
  assert (Due.intervals rental asOf = Due.intervals rental e) as E3.
  { unfold Due.intervals, Due.days_active. rewrite E1, E2. reflexivity. }
  exists pg, pg_e. split; [exact Hpg|]. split; [exact Hpg_e|].
  split; [rewrite Hpe; exact E1|]. split; [rewrite Hn, Hn_e; exact E3|].
  rewrite Hb, Hb_e. unfold Due.base_due. rewrite E3. reflexivity.
Qed.

Lemma due_frozen_after_end_witness :
  ymd2ord 2024 1 10 <= ymd2ord 2024 6 1
  /\ exists pg pg_e,
      Due.rental_due_summary (ymd2ord 2024 6 1) 1 Scenario.january
      = (Rendered pg, Scenario.january)
      /\ Due.rental_due_summary (ymd2ord 2024 1 10) 1 Scenario.january
         = (Rendered pg_e, Scenario.january)
      /\ Due.pg_intervals pg = Due.pg_intervals pg_e.
Proof.
  assert (ymd2ord 2024 1 10 <= ymd2ord 2024 6 1) as H by (vm_compute; discriminate).
  split; [exact H|].
  destruct (due_frozen_after_end Scenario.january 1
              (Scenario.rental 1 1 1 (ymd2ord 2024 1 1) (Some (ymd2ord 2024 1 10))
                               None None)
              Scenario.alice (ymd2ord 2024 1 10) (ymd2ord 2024 6 1)
              eq_refl eq_refl eq_refl H)
    as (pg & pg_e & H1 & H2 & _ & H3 & _).
  exists pg, pg_e. split; [exact H1|]. split; [exact H2|exact H3].
Defined.

(** X2. For a query date before the start date of a rental and not after
    its end date, when it has one, with a positive billing interval, the
    summary counts no interval or a negative number of them: zero during
    the last interval before the start, where the base amount due is zero,
    and the base amount due is never positive when the rate is not
    negative. *)
Theorem due_before_start st rid rental c (asOf : date) :
  get_rental st rid = Some rental ->
  rental_customer st rental = Some c ->
  asOf < r_start_date rental ->
  Spec.le_end asOf (r_end_date rental) ->
  0 < Spec.billing_interval rental ->
  exists pg,
    Due.rental_due_summary asOf rid st = (Rendered pg, st)
    /\ Due.pg_intervals pg <= 0
    /\ (r_start_date rental - Spec.billing_interval rental <= asOf ->
        Due.pg_intervals pg = 0 /\ (Due.pg_base_due pg == 0)%Q)
    /\ ((0 <= Spec.rate rental)%Q -> (Due.pg_base_due pg <= 0)%Q).
Proof.
  intros Hr Hc Hs He Hk.
  destruct (rental_due_summary_renders st asOf rid rental c Hr Hc)
    as (pg & Hpg & _ & Hn & Hb & _).
  exists pg. split; [exact Hpg|].
  assert (Due.period_end rental asOf = asOf) as Epe.
  { unfold Due.period_end. unfold Spec.le_end in He.
    destruct (r_end_date rental) as [e|]; [|reflexivity].
    destruct (Z.ltb_spec e asOf); [lia|reflexivity]. }
  assert (Due.intervals rental asOf
          = (asOf - r_start_date rental) / Spec.billing_interval rental + 1) as En.
  { unfold Due.intervals, Due.days_active, days_between.
    rewrite Zor_billing_interval, Epe. reflexivity. }
  assert ((asOf - r_start_date rental) / Spec.billing_interval rental < 0) as Hq.
  { apply Z.div_lt_upper_bound; lia. }
  rewrite Hn, Hb. unfold Due.base_due. rewrite En. split; [lia|]. split.
  - intros Hlast.
    assert ((asOf - r_start_date rental) / Spec.billing_interval rental = -1) as ->.
    { symmetry. apply (Z.div_unique _ _ _ (asOf - r_start_date rental
                                           + Spec.billing_interval rental)); lia. }
    split; [reflexivity|]. simpl. unfold inject_Z. ring.
  - intros Hrate. rewrite rent_rate_spec.
    assert (inject_Z ((asOf - r_start_date rental) / Spec.billing_interval rental + 1)
            <= 0)%Q as Hi.
    { change 0%Q with (inject_Z 0). rewrite <- Zle_Qle. lia. }
    nra.
Qed.

Lemma due_before_start_witness :
  exists pg,
    Due.rental_due_summary (ymd2ord 2023 12 20) 1 Scenario.monthly
    = (Rendered pg, Scenario.monthly)
    /\ Due.pg_intervals pg = 0
    /\ (Due.pg_base_due pg == 0)%Q.
Proof.
  destruct (due_before_start Scenario.monthly 1
              (Scenario.rental 1 1 1 (ymd2ord 2024 1 1) None (Some 3000%Q) None)
              Scenario.alice (ymd2ord 2023 12 20) eq_refl eq_refl)
    as (pg & Hpg & _ & Hzero & _).
  - vm_compute. reflexivity.
  - exact I.
  - reflexivity.
  - exists pg. split; [exact Hpg|]. apply Hzero. vm_compute. discriminate.
Defined.

(** * Failures and what they leave behind *)

(** X3. A request that is not answered with a redirect writes nothing: for
    the due summary, the settlement, the creation and the edit of a rental
    and the recording of a payment, a rendered page, a 404 or an exception
    leaves the store as it was. An unknown rental id is answered with 404 by
    every route that takes one. *)
Theorem only_redirects_write st (today : date) (m : Method) (rid : Z)
        (rf : Rentals.Form) (pf : Payments.Form) :
  (is_redirect (fst (Due.rental_due_summary today rid st)) = false
   /\ snd (Due.rental_due_summary today rid st) = st)
  /\ (is_redirect (fst (Settle.settle_rental today m rid st)) = false ->
      snd (Settle.settle_rental today m rid st) = st)
  /\ (is_redirect (fst (Rentals.add_rental m rf st)) = false ->
      snd (Rentals.add_rental m rf st) = st)
  /\ (is_redirect (fst (Rentals.edit_rental m rid rf st)) = false ->
      snd (Rentals.edit_rental m rid rf st) = st)
  /\ (is_redirect (fst (Payments.add_payment m rid pf st)) = false ->
      snd (Payments.add_payment m rid pf st) = st)
  /\ (get_rental st rid = None ->
      Due.rental_due_summary today rid st = (NotFound, st)
      /\ Settle.settle_rental today m rid st = (NotFound, st)
      /\ Rentals.edit_rental m rid rf st = (NotFound, st)
      /\ Payments.add_payment m rid pf st = (NotFound, st)).
Proof.
  split; [|split; [|split; [|split; [|split]]]].
  - unfold Due.rental_due_summary.
    destruct (get_rental st rid) as [r|]; [|split; reflexivity].
    destruct (rental_customer st r); split; reflexivity.
  - unfold Settle.settle_rental.
    destruct (get_rental st rid) as [r|]; [|reflexivity].
    destruct (rental_customer st r); [|reflexivity].
    destruct m; simpl; [reflexivity|discriminate].
  - unfold Rentals.add_rental. destruct m; [reflexivity|].
    destruct (Rentals.conflict_rental st rf); [reflexivity|].
    destruct (add_days (Rentals.fm_start_date rf) 30); simpl;
      [discriminate|reflexivity].
  - unfold Rentals.edit_rental.
    destruct (get_rental st rid) as [r|]; [|reflexivity].
    destruct m; simpl; [reflexivity|discriminate].
  - unfold Payments.add_payment.
    destruct (get_rental st rid) as [r|]; [|reflexivity].
    destruct (rental_customer st r); [|reflexivity].
    destruct m; simpl; [reflexivity|discriminate].
  - intros Hnone.
    unfold Due.rental_due_summary, Settle.settle_rental, Rentals.edit_rental,
      Payments.add_payment.
    rewrite Hnone. repeat split.
Qed.

Lemma only_redirects_write_witness :
  get_rental Scenario.monthly 9 = None
  /\ Settle.settle_rental (ymd2ord 2024 3 1) POST 9 Scenario.monthly
     = (NotFound, Scenario.monthly)
  /\ snd (Rentals.add_rental POST Scenario.jan5_jan15 Scenario.january)
     = Scenario.january.
Proof.
  pose proof (only_redirects_write Scenario.monthly (ymd2ord 2024 3 1) POST 9
                Scenario.jan5_jan15 Scenario.alice_pays)
    as (_ & _ & _ & _ & _ & H404).
  pose proof (only_redirects_write Scenario.january (ymd2ord 2024 3 1) POST 9
                Scenario.jan5_jan15 Scenario.alice_pays)
    as (_ & _ & Hadd & _).
  split; [reflexivity|]. split.
  - apply (H404 eq_refl).
  - apply Hadd. reflexivity.
Defined.

(** * Settlement, continued *)

Section AfterSettlement.

Lemma filter_map_none {A} (p : A -> bool) (g : A -> A) (l : list A) :
  (forall x, p (g x) = false) -> filter p (map g l) = [].
Proof.
  intros H. induction l as [|x l IH]; simpl; [reflexivity|].
  rewrite H. exact IH.
Qed.

Variable st : Store.
Variables (today : date) (rid : Z) (rental : Rental) (c : Customer).
Hypothesis Hr : get_rental st rid = Some rental.
Hypothesis Hc : rental_customer st rental = Some c.


Lemma commit_customer : rental_customer (Settle.commit today rental c (Settle.refundable st rental c) st) (Settle.close_rental today (Settle.refundable st rental c) rental) = Some c.
Proof. exact Hc. Qed.

Lemma commit_no_unpaid_fines :
  filter (Spec.unpaid_fine (Settle.close_rental today (Settle.refundable st rental c) rental)) (fines (Settle.commit today rental c (Settle.refundable st rental c) st)) = [].
Proof.
  pose proof (rental_customer_id st rental c Hc) as Hid.
  simpl. apply filter_map_none. intros f.
  rewrite (fine_selected_spec rental c f Hid).
  destruct (Spec.unpaid_fine rental f) eqn:E.
  - unfold Spec.unpaid_fine. simpl. apply andb_false_r.
  - exact E.
Qed.

Lemma commit_no_unpaid_damages :
  filter (Spec.unpaid_damage (Settle.close_rental today (Settle.refundable st rental c) rental)) (damages (Settle.commit today rental c (Settle.refundable st rental c) st)) = [].
Proof.
  pose proof (rental_customer_id st rental c Hc) as Hid.
  simpl. apply filter_map_none. intros d.
  rewrite (damage_selected_spec rental c d Hid).
  destruct (Spec.unpaid_damage rental d) eqn:E.
  - unfold Spec.unpaid_damage. simpl. apply andb_false_r.
  - exact E.
Qed.

Lemma commit_no_unpaid_salik :
  filter (Spec.unpaid_salik (Settle.close_rental today (Settle.refundable st rental c) rental)) (saliks (Settle.commit today rental c (Settle.refundable st rental c) st)) = [].
Proof.
  simpl. apply filter_map_none. intros s.
  change (Settle.salik_selected rental s) with (Spec.unpaid_salik rental s).
  destruct (Spec.unpaid_salik rental s) eqn:E.
  - unfold Spec.unpaid_salik. simpl. apply andb_false_r.
  - exact E.
Qed.

Lemma commit_nothing_outstanding :
  outstanding_fines (Settle.commit today rental c (Settle.refundable st rental c) st) (Settle.close_rental today (Settle.refundable st rental c) rental) c = []
  /\ outstanding_damages (Settle.commit today rental c (Settle.refundable st rental c) st) (Settle.close_rental today (Settle.refundable st rental c) rental) c = []
  /\ outstanding_salik (Settle.commit today rental c (Settle.refundable st rental c) st) (Settle.close_rental today (Settle.refundable st rental c) rental) = []
  /\ (charges_total (Settle.commit today rental c (Settle.refundable st rental c) st) (Settle.close_rental today (Settle.refundable st rental c) rental) c == 0)%Q.
Proof.
  assert (outstanding_fines (Settle.commit today rental c (Settle.refundable st rental c) st) (Settle.close_rental today (Settle.refundable st rental c) rental) c = []) as Ef.
  { rewrite (outstanding_fines_spec (Settle.commit today rental c (Settle.refundable st rental c) st) (Settle.close_rental today (Settle.refundable st rental c) rental) c commit_customer).
    apply commit_no_unpaid_fines. }
  assert (outstanding_damages (Settle.commit today rental c (Settle.refundable st rental c) st) (Settle.close_rental today (Settle.refundable st rental c) rental) c = []) as Ed.
  { rewrite (outstanding_damages_spec (Settle.commit today rental c (Settle.refundable st rental c) st) (Settle.close_rental today (Settle.refundable st rental c) rental) c commit_customer).
    apply commit_no_unpaid_damages. }
  assert (outstanding_salik (Settle.commit today rental c (Settle.refundable st rental c) st) (Settle.close_rental today (Settle.refundable st rental c) rental) = []) as Es.
  { rewrite outstanding_salik_spec. apply commit_no_unpaid_salik. }
  repeat split; try assumption.
  unfold charges_total. rewrite Ef, Ed, Es. reflexivity.
Qed.

Lemma commit_get_rental : get_rental (Settle.commit today rental c (Settle.refundable st rental c) st) rid = Some (Settle.close_rental today (Settle.refundable st rental c) rental).
Proof. apply commit_rental; assumption. Qed.

End AfterSettlement.

(** X4. Right after the settlement of a rental has been committed, nothing
    is outstanding for it any more: a new preview lists no fine, no damage
    and no toll entry, shows total charges of zero, and would refund
    [max(deposit, 0)]. *)
Theorem settlement_clears_charges st (today later : date) rid rental c :
  get_rental st rid = Some rental ->
  rental_customer st rental = Some c ->
  exists st' pg,
    Settle.settle_rental today POST rid st = (Redirected "list_rentals", st')
    /\ Settle.settle_rental later GET rid st' = (Rendered pg, st')
    /\ Settle.pg_outstanding_fines pg = []
    /\ Settle.pg_outstanding_damages pg = []
    /\ Settle.pg_outstanding_salik pg = []
    /\ (Settle.pg_total_charges pg == 0)%Q
    /\ (Settle.pg_refundable pg == Qmax (Spec.amount (r_deposit rental)) 0)%Q.
Proof.
  intros Hr Hc.
  destruct (commit_nothing_outstanding st today rental c Hc)
    as (Ef & Ed & Es & Et).
  eexists. eexists.
  split; [apply settle_commit; eassumption|].
  split.
  - apply (settle_preview _ later rid
             (Settle.close_rental today (Settle.refundable st rental c) rental) c).
    + apply commit_get_rental; assumption.
    + exact Hc.
  - simpl. split; [exact Ef|]. split; [exact Ed|]. split; [exact Es|].
    split; [exact Et|].
    unfold Settle.refundable. simpl r_deposit.
    rewrite (refundable_spec (r_deposit rental) _ 0%Q Et).
    apply Q.max_compat; [ring|reflexivity].
Qed.

Lemma settlement_clears_charges_witness :
  exists st' pg,
    Settle.settle_rental (ymd2ord 2024 3 1) POST 1 Scenario.with_deposit
    = (Redirected "list_rentals", st')
    /\ Settle.settle_rental (ymd2ord 2024 3 2) GET 1 st' = (Rendered pg, st')
    /\ Settle.pg_outstanding_fines pg = []
    /\ (Settle.pg_total_charges pg == 0)%Q.
Proof.
  destruct (settlement_clears_charges Scenario.with_deposit
              (ymd2ord 2024 3 1) (ymd2ord 2024 3 2) 1
              (Scenario.rental 1 1 1 (ymd2ord 2024 1 1) None
                               (Some 3000%Q) (Some 5000%Q))
              Scenario.alice eq_refl eq_refl)
    as (st' & pg & H1 & H2 & H3 & _ & _ & H4 & _).
  exists st', pg. repeat split; assumption.
Defined.

(** X5. After the settlement of an open-ended rental, rent stops accruing:
    for every later query date the due summary of the settled rental ends
    the period at the settlement date, shows the base amount that was due
    on that date, and counts no charge. *)
Theorem settled_rent_stops st (today asOf : date) rid rental c :
  get_rental st rid = Some rental ->
  rental_customer st rental = Some c ->
  r_end_date rental = None ->
  today <= asOf ->
  exists st' pg,
    Settle.settle_rental today POST rid st = (Redirected "list_rentals", st')
    /\ Due.rental_due_summary asOf rid st' = (Rendered pg, st')
    /\ Due.pg_period_end pg = today
    /\ Due.pg_base_due pg = Due.base_due rental today
    /\ (Due.pg_charges_due pg == 0)%Q
    /\ (Due.pg_due_amount pg
        == Due.base_due rental today - Spec.payments_total st rental)%Q.
Proof.
  intros Hr Hc He Hle.
  destruct (commit_nothing_outstanding st today rental c Hc)
    as (_ & _ & _ & Et).
  pose proof (commit_get_rental st today rid rental c Hr) as Hr'.
  destruct (rental_due_summary_renders _ asOf rid _ c Hr' Hc)
    as (pg & Hpg & Hpe & _ & Hb & Hch & Hpay & Hdue & _).
  eexists. exists pg.
  split; [apply settle_commit; eassumption|].
  split; [exact Hpg|].
  assert (Due.period_end
            (Settle.close_rental today (Settle.refundable st rental c) rental) asOf
          = today) as Epe.
  { unfold Due.period_end. simpl. rewrite He.
    destruct (Z.ltb_spec today asOf); [reflexivity|lia]. }
  assert (Due.base_due
            (Settle.close_rental today (Settle.refundable st rental c) rental) asOf
          = Due.base_due rental today) as Eb.
  { unfold Due.base_due, Due.intervals, Due.days_active. rewrite Epe.
    unfold Due.period_end. rewrite He. reflexivity. }
  split; [rewrite Hpe; exact Epe|]. split; [rewrite Hb; exact Eb|].
  assert (Due.pg_charges_due pg == 0)%Q as Ech by (rewrite Hch; exact Et).
  split; [exact Ech|].
  assert (Due.pg_total_payments pg == Spec.payments_total st rental)%Q as Epay.
  { rewrite Hpay. unfold Spec.payments_total. apply py_sum_amounts. }
  rewrite Hdue, Ech, Epay, Hb, Eb. ring.
Qed.

Lemma settled_rent_stops_witness :
  ymd2ord 2024 3 1 <= ymd2ord 2024 9 1
  /\ exists st' pg,
      Settle.settle_rental (ymd2ord 2024 3 1) POST 1 Scenario.with_deposit
      = (Redirected "list_rentals", st')
      /\ Due.rental_due_summary (ymd2ord 2024 9 1) 1 st' = (Rendered pg, st')
      /\ Due.pg_period_end pg = ymd2ord 2024 3 1
      /\ (Due.pg_due_amount pg == 9000)%Q.
Proof.
  assert (ymd2ord 2024 3 1 <= ymd2ord 2024 9 1) as H by (vm_compute; discriminate).
  split; [exact H|].
  destruct (settled_rent_stops Scenario.with_deposit
              (ymd2ord 2024 3 1) (ymd2ord 2024 9 1) 1
              (Scenario.rental 1 1 1 (ymd2ord 2024 1 1) None
                               (Some 3000%Q) (Some 5000%Q))
              Scenario.alice eq_refl eq_refl eq_refl H)
    as (st' & pg & H1 & H2 & H3 & _ & _ & H4).
  exists st', pg. split; [exact H1|]. split; [exact H2|]. split; [exact H3|].
  rewrite H4. vm_compute. reflexivity.
Defined.

(** * Payments, continued *)

(** X6. Recording a payment on a rental leaves its base amount due as it
    was and makes the amount paid the last term of the payments sum of the
    due summary; the amount due becomes the base amount plus the charges
    still unpaid afterwards minus the new payments sum. When no charge is
    ticked, the charges stay as they were and a payment that is not
    negative does not raise the amount due. *)
Theorem payment_lowers_due st (today : date) rid pf rental c :
  get_rental st rid = Some rental ->
  rental_customer st rental = Some c ->
  exists pg st' pg',
    Due.rental_due_summary today rid st = (Rendered pg, st)
    /\ Payments.add_payment POST rid pf st = (Redirected "list_rentals", st')
    /\ Due.rental_due_summary today rid st' = (Rendered pg', st')
    /\ Due.pg_base_due pg' = Due.pg_base_due pg
    /\ Due.pg_total_payments pg'
       = Tally.added (Tally.payment_amounts st rental
                      ++ [Qor0 (Some (Payments.fm_amount pf))])
    /\ Due.pg_due_amount pg'
       = (Due.pg_base_due pg + Tally.unpaid_charges st' rental
          - Due.pg_total_payments pg')%Q
    /\ (Payments.fm_fine_ids pf = [] -> Payments.fm_damage_ids pf = [] ->
        Payments.fm_salik_ids pf = [] ->
        Due.pg_charges_due pg' = Due.pg_charges_due pg
        /\ Due.pg_outstanding_fines pg' = Due.pg_outstanding_fines pg
        /\ Due.pg_outstanding_damages pg' = Due.pg_outstanding_damages pg
        /\ Due.pg_outstanding_salik pg' = Due.pg_outstanding_salik pg
        /\ ((0 <= Payments.fm_amount pf)%Q ->
            (Due.pg_due_amount pg' <= Due.pg_due_amount pg)%Q)).
Proof.
  intros Hr Hc.
  destruct (due_summary_tally st rental c Hc today rid Hr)
    as (pg & Hpg & Hb & Hch & Hpay & Hdue & Hf & Hd & Hs).
  exists pg. eexists.
  assert (Payments.add_payment POST rid pf st
          = (Redirected "list_rentals",
             {| customers := customers st; cars := cars st;
                rentals := rentals st;
                payments := payments st ++ [Payments.new_payment st rental pf];
                fines := Payments.settle_fines (Payments.fm_fine_ids pf) (fines st);
                damages := Payments.settle_damages (Payments.fm_damage_ids pf)
                                                   (damages st);
                saliks := Payments.settle_saliks (Payments.fm_salik_ids pf)
                                                 (saliks st);
                bookings := bookings st |})) as Hpost.
  { unfold Payments.add_payment. rewrite Hr, Hc. reflexivity. }
  match type of Hpost with _ = (_, ?s) => set (st' := s) in * end.
  destruct (due_summary_tally st' rental c Hc today rid Hr)
    as (pg' & Hpg' & Hb' & Hch' & Hpay' & Hdue' & Hf' & Hd' & Hs').
  exists pg'. split; [exact Hpg|]. split; [exact Hpost|]. split; [exact Hpg'|].
  assert (Due.pg_base_due pg' = Due.pg_base_due pg) as Eb.
  { rewrite Hb', Hb. reflexivity. }
  assert (Due.pg_total_payments pg'
          = Tally.added (Tally.payment_amounts st rental
                         ++ [Qor0 (Some (Payments.fm_amount pf))])) as Etot.
  { rewrite Hpay'. unfold Tally.payments_total.
    change (Tally.payment_amounts st' rental)
      with (Tally.payment_amounts
              (with_payment st (Payments.new_payment st rental pf)) rental).
    rewrite (payments_with_payment st rental
               (Payments.new_payment st rental pf) eq_refl).
    reflexivity. }
  assert (Due.pg_due_amount pg'
          = (Due.pg_base_due pg + Tally.unpaid_charges st' rental
             - Due.pg_total_payments pg')%Q) as Ed.
  { rewrite Hdue', Eb, Hch'. reflexivity. }
  split; [exact Eb|]. split; [exact Etot|]. split; [exact Ed|].
  intros Ef Edm Es.
  assert (fines st' = fines st) as Ef' by (subst st'; simpl; rewrite Ef; reflexivity).
  assert (damages st' = damages st) as Ed'
      by (subst st'; simpl; rewrite Edm; reflexivity).
  assert (saliks st' = saliks st) as Es'
      by (subst st'; simpl; rewrite Es; reflexivity).
  assert (Tally.unpaid_charges st' rental = Tally.unpaid_charges st rental)
    as Eu.
  { unfold Tally.unpaid_charges, Tally.fine_amounts, Tally.damage_amounts,
      Tally.salik_amounts. rewrite Ef', Ed', Es'. reflexivity. }
  split; [rewrite Hch', Hch; exact Eu|].
  split; [rewrite Hf', Hf, Ef'; reflexivity|].
  split; [rewrite Hd', Hd, Ed'; reflexivity|].
  split; [rewrite Hs', Hs, Es'; reflexivity|].
  intros Hpos. rewrite Ed, Etot, added_snoc, Eu, Hdue, Hch, Hpay.
  unfold Tally.payments_total.
  pose proof (Qor0_amount (Some (Payments.fm_amount pf))) as Ea.
  simpl Spec.amount in Ea. lra.
Qed.

Lemma payment_lowers_due_witness :
  exists pg st' pg',
    Due.rental_due_summary (ymd2ord 2024 2 15) 1 Paid.once
    = (Rendered pg, Paid.once)
    /\ Payments.add_payment POST 1 Paid.plain Paid.once
       = (Redirected "list_rentals", st')
    /\ Due.rental_due_summary (ymd2ord 2024 2 15) 1 st' = (Rendered pg', st')
    /\ (Due.pg_total_payments pg' == 1000 + 3000)%Q
    /\ (Due.pg_due_amount pg' == 6000 + (1200 + 300) - (1000 + 3000))%Q
    /\ (Due.pg_due_amount pg' <= Due.pg_due_amount pg)%Q.
Proof.
  destruct (payment_lowers_due Paid.once (ymd2ord 2024 2 15) 1 Paid.plain
              (Scenario.rental 1 1 1 (ymd2ord 2024 1 1) None
                               (Some 3000%Q) (Some 5000%Q))
              Scenario.alice eq_refl eq_refl)
    as (pg & st' & pg' & H1 & H2 & H3 & H4 & H5 & H6 & H7).
  destruct (H7 eq_refl eq_refl eq_refl) as (_ & _ & _ & _ & Hle).
  exists pg, st', pg'.
  split; [exact H1|]. split; [exact H2|]. split; [exact H3|].
  assert (st' = snd (Payments.add_payment POST 1 Paid.plain Paid.once)) as Est
      by (rewrite H2; reflexivity).
  assert (Rendered pg
          = fst (Due.rental_due_summary (ymd2ord 2024 2 15) 1 Paid.once)) as Epg
      by (rewrite H1; reflexivity).
  vm_compute in Epg. injection Epg as Epg.
  split; [rewrite H5; vm_compute; reflexivity|].
  split; [rewrite H6, H5, Est, Epg; vm_compute; reflexivity|].
  apply Hle. vm_compute. discriminate.
Defined.

(** * Creating rentals, continued *)

Section CreationFacts.

Lemma find_snoc {A} (p : A -> bool) (l : list A) (x : A) :
  find p (l ++ [x])
  = match find p l with
    | Some y => Some y
    | None => if p x then Some x else None
    end.
Proof.
  induction l as [|y l IH]; simpl; [reflexivity|].
  destruct (p y); [reflexivity|exact IH].
Qed.

Lemma fresh_id_above (ids : list Z) (k : Z) :
  In k ids -> k < Rentals.fresh_id ids.
Proof.
  unfold Rentals.fresh_id. induction ids as [|i ids IH]; simpl; [tauto|].
  intros [->|H]; [lia|]. specialize (IH H). lia.
Qed.

Lemma fresh_id_new (ids : list Z) : ~ In (Rentals.fresh_id ids) ids.
Proof. intros H. apply fresh_id_above in H. lia. Qed.

Lemma ForallOrdPairs_snoc {A} (R : A -> A -> Prop) (l : list A) (x : A) :
  ForallOrdPairs R l -> Forall (fun a => R a x) l ->
  ForallOrdPairs R (l ++ [x]).
Proof.
  induction 1 as [|a l Ha Hl IH]; intros Hx; simpl.
  - constructor; constructor.
  - inversion Hx as [|? ? Hax Hlx]; subst. constructor.
    + apply Forall_app. split; [exact Ha|]. constructor; [exact Hax|constructor].
    + apply IH. exact Hlx.
Qed.

Lemma add_rental_accepted m f st t st' :
  Rentals.add_rental m f st = (Redirected t, st') ->
  exists nb,
    m = POST
    /\ Rentals.conflict_rental st f = None
    /\ add_days (Rentals.fm_start_date f) 30 = Some nb
    /\ st' = Rentals.with_rentals st (rentals st ++ [Rentals.new_rental st f nb]).
Proof.
  unfold Rentals.add_rental. destruct m; [discriminate|].
  destruct (Rentals.conflict_rental st f); [discriminate|].
  destruct (add_days (Rentals.fm_start_date f) 30) as [nb|]; [|discriminate].
  intros H. injection H as _ <-. exists nb. repeat split.
Qed.

Lemma conflict_rental_none_inv st f :
  Rentals.conflict_rental st f = None ->
  forall r, In r (rentals st) -> r_car_id r = Rentals.fm_car_id f ->
            Rentals.overlaps (Rentals.fm_start_date f) (Rentals.fm_end_date f) r
            = false.
Proof.
  intros Hnone r Hin Hcar.
  destruct (Rentals.overlaps (Rentals.fm_start_date f) (Rentals.fm_end_date f) r)
    eqn:E; [|reflexivity].
  destruct (conflict_rental_found st f r Hin Hcar E) as [r' Hr'].
  congruence.
Qed.

Lemma add_rental_refused m f st :
  is_redirect (fst (Rentals.add_rental m f st)) = false ->
  snd (Rentals.add_rental m f st) = st.
Proof.
  unfold Rentals.add_rental. destruct m; [reflexivity|].
  destruct (Rentals.conflict_rental st f); [reflexivity|].
  destruct (add_days (Rentals.fm_start_date f) 30); simpl;
    [discriminate|reflexivity].
Qed.

End CreationFacts.

(** X7. When the creation of a rental is accepted, the table gains one row
    at its end, under a key no stored rental has; the new rental can be
    fetched under that key and every stored rental still under its own; the
    new rental is unsettled, bills every 30 days, first 30 days after its
    start; and its car counts as rented on every day from its start date to
    its end date. *)
Theorem creation_round_trip m f st t st' :
  Rentals.add_rental m f st = (Redirected t, st') ->
  exists new,
    rentals st' = rentals st ++ [new]
    /\ ~ In (r_id new) (map r_id (rentals st))
    /\ get_rental st' (r_id new) = Some new
    /\ (forall id r, get_rental st id = Some r -> get_rental st' id = Some r)
    /\ r_deposit_refunded new = false
    /\ r_billing_interval_days new = Some 30
    /\ r_next_billing_date new = Some (Rentals.fm_start_date f + 30)
    /\ (forall c d,
           car_id c = Rentals.fm_car_id f ->
           Rentals.fm_start_date f <= d ->
           Spec.le_end d (Rentals.fm_end_date f) ->
           Occupancy.is_rented_today st' c d = true).
Proof.
  intros H. apply add_rental_accepted in H as (nb & _ & _ & Hnb & ->).
  exists (Rentals.new_rental st f nb). simpl.
  split; [reflexivity|].
  split; [apply fresh_id_new|].
  assert (find (fun r => r_id r =? Rentals.fresh_id (map r_id (rentals st)))
               (rentals st) = None) as Hfresh.
  { destruct (find _ (rentals st)) as [r|] eqn:E; [|reflexivity].
    apply find_some in E as [Hin Hid]. apply Z.eqb_eq in Hid.
    exfalso. apply (fresh_id_new (map r_id (rentals st))).
    rewrite <- Hid. apply in_map. exact Hin. }
  split.
  { unfold get_rental. simpl. rewrite find_snoc, Hfresh, Z.eqb_refl.
    reflexivity. }
  split.
  { intros id r Hr. unfold get_rental in *. simpl. rewrite find_snoc, Hr.
    reflexivity. }
  split; [reflexivity|]. split; [reflexivity|]. split.
  { unfold add_days in Hnb.
    destruct (date_okb (Rentals.fm_start_date f + 30)); congruence. }
  intros c d Hcar Hs He. apply is_rented_today_spec.
  exists (Rentals.new_rental st f nb). simpl.
  split; [apply in_or_app; right; left; reflexivity|]. auto.
Qed.

Lemma creation_round_trip_witness :
  exists st' new,
    Rentals.add_rental POST Scenario.jan11_jan20 Scenario.january
    = (Redirected "list_rentals", st')
    /\ rentals st' = rentals Scenario.january ++ [new]
    /\ get_rental st' (r_id new) = Some new
    /\ Occupancy.is_rented_today st' Scenario.car1 (ymd2ord 2024 1 15) = true.
Proof.
  assert (Rentals.add_rental POST Scenario.jan11_jan20 Scenario.january
          = (Redirected "list_rentals", Scenario.two_rentals)) as H
      by (vm_compute; reflexivity).
  destruct (creation_round_trip POST Scenario.jan11_jan20 Scenario.january
              "list_rentals" Scenario.two_rentals H)
    as (new & H1 & _ & H2 & _ & _ & _ & _ & H3).
  exists Scenario.two_rentals, new.
  split; [exact H|]. split; [exact H1|]. split; [exact H2|].
  apply H3.
  - reflexivity.
  - vm_compute. discriminate.
  - vm_compute. discriminate.
Defined.

(** X8. Creating rentals keeps the rentals table free of clashes: if no two
    stored rentals of one car have intersecting ranges (an absent end date
    being open ended) and all dates are dates, the same holds after
    [add_rental], whatever its answer. *)
Theorem creation_keeps_no_overlap m f st :
  date_okb (Rentals.fm_start_date f) = true ->
  forallb rental_dates_ok (rentals st) = true ->
  Invariant.no_overlap (rentals st) ->
  Invariant.no_overlap (rentals (snd (Rentals.add_rental m f st))).
Proof.
  intros Hs Hst Hinv.
  destruct (Rentals.add_rental m f st) as [o st'] eqn:E.
  destruct (is_redirect o) eqn:Ered.
  - destruct o as [| t | |]; try discriminate.
    apply add_rental_accepted in E as (nb & _ & Hnone & _ & ->). simpl.
    apply ForallOrdPairs_snoc; [exact Hinv|].
    apply Forall_forall. intros r Hin [Hcar Hov].
    assert (Rentals.fm_start_date f <= date_max) as Hs'.
    { apply date_okb_spec in Hs. unfold date_ok in Hs. lia. }
    assert (r_start_date r <= date_max) as Hr'.
    { apply rental_dates_ok_start. rewrite forallb_forall in Hst.
      apply Hst. exact Hin. }
    pose proof (conflict_rental_none_inv st f Hnone r Hin Hcar) as Hno.
    assert (Rentals.overlaps (Rentals.fm_start_date f) (Rentals.fm_end_date f) r
            = true); [|congruence].
    apply overlaps_spec; [exact Hs'|exact Hr'|].
    unfold Spec.ranges_overlap in *. simpl in Hov. tauto.
  - pose proof (add_rental_refused m f st) as Hsame.
    rewrite E in Hsame. simpl in *. rewrite (Hsame Ered). exact Hinv.
Qed.

Lemma creation_keeps_no_overlap_witness :
  Invariant.no_overlap (rentals Scenario.january)
  /\ Invariant.no_overlap
       (rentals (snd (Rentals.add_rental POST Scenario.jan11_jan20
                                         Scenario.january))).
Proof.
  assert (Invariant.no_overlap (rentals Scenario.january)) as H.
  { unfold Invariant.no_overlap. simpl. constructor; constructor. }
  split; [exact H|].
  apply (creation_keeps_no_overlap POST Scenario.jan11_jan20 Scenario.january
           eq_refl eq_refl H).
Defined.

(** X9. In a rentals table without clashes a car has at most one active
    rental on any day: a stored rental of the car that has started and not
    ended is the only such rental, and it is the one the availability page
    reports (open ended, or available from the day after its end date). *)
Theorem active_rental_unique st (today : date) c r :
  Invariant.no_overlap (rentals st) ->
  In r (rentals st) ->
  r_car_id r = car_id c ->
  r_start_date r <= today ->
  Spec.le_end today (r_end_date r) ->
  (forall r',
      In r' (rentals st) -> r_car_id r' = car_id c ->
      r_start_date r' <= today -> Spec.le_end today (r_end_date r') ->
      r' = r)
  /\ Occupancy.availability_row st today c
     = match r_end_date r with
       | Some e =>
           match add_days e 1 with
           | Some d => Some (Occupancy.Rented, Occupancy.AvailableFrom d)
           | None => None
           end
       | None => Some (Occupancy.Rented, Occupancy.OpenEnded)
       end.
Proof.
  intros Hinv Hin Hcar Hs He.
  assert (forall r',
             In r' (rentals st) -> r_car_id r' = car_id c ->
             r_start_date r' <= today -> Spec.le_end today (r_end_date r') ->
             r' = r) as Huniq.
  { intros r' Hin' Hcar' Hs' He'.
    assert (forall a b, r_start_date a <= today -> Spec.le_end today (r_end_date b) ->
                        Spec.le_end (r_start_date a) (r_end_date b)) as Hle.
    { intros a b Ha Hb. unfold Spec.le_end in *.
      destruct (r_end_date b); [lia|exact I]. }
    destruct (ForallOrdPairs_In Hinv r' r Hin' Hin) as [E|[H|H]];
      [exact E| |]; exfalso; apply H; split; try congruence;
      split; apply Hle; assumption. }
  split; [exact Huniq|].
  destruct (row_rented st today c) as (r0 & Hin0 & Hcar0 & Hs0 & He0 & Hrow).
  { exists r. auto. }
  rewrite Hrow, (Huniq r0 Hin0 Hcar0 Hs0 He0). reflexivity.
Qed.

Lemma active_rental_unique_witness :
  Invariant.no_overlap (rentals Scenario.two_rentals)
  /\ Occupancy.availability_row Scenario.two_rentals (ymd2ord 2024 1 12)
                                Scenario.car1
     = Some (Occupancy.Rented, Occupancy.AvailableFrom (ymd2ord 2024 1 21)).
Proof.
  assert (Invariant.no_overlap (rentals Scenario.two_rentals)) as H.
  { unfold Invariant.no_overlap. vm_compute rentals.
    constructor; [|constructor; constructor].
    constructor; [|constructor].
    intros [_ [_ H]]. vm_compute in H. apply H. reflexivity. }
  split; [exact H|].
  destruct (active_rental_unique Scenario.two_rentals (ymd2ord 2024 1 12)
              Scenario.car1
              (Rentals.new_rental Scenario.january Scenario.jan11_jan20
                                  (ymd2ord 2024 2 10))
              H) as [_ Hrow].
  - right. left. reflexivity.
  - reflexivity.
  - vm_compute. discriminate.
  - vm_compute. discriminate.
  - rewrite Hrow. reflexivity.
Defined.

(** * The deposit balance *)

Section DepositFacts.

Lemma fold_left_deduct {A} (p : A -> bool) (amt : A -> option Q)
      (l : list A) (b0 : Q) :
  fold_left (fun b x => if p x then (b - Qor0 (amt x))%Q else b) l b0
  = Tally.deduct b0 (map (fun x => Qor0 (amt x)) (filter p l)).
Proof.
  unfold Tally.deduct. revert b0. induction l as [|x l IH]; intros b0; simpl.
  - reflexivity.
  - rewrite IH. destruct (p x); reflexivity.
Qed.

Lemma filter_marked {A} (sel on : A -> bool) (pay : A -> A) (l : list A) :
  (forall x, In x l -> sel x = true -> on (pay x) = true) ->
  (forall x, In x l -> sel x = false -> on x = false) ->
  filter on (map (fun x => if sel x then pay x else x) l)
  = map pay (filter sel l).
Proof.
  induction l as [|x l IH]; intros H1 H2; simpl; [reflexivity|].
  assert (filter on (map (fun x => if sel x then pay x else x) l)
          = map pay (filter sel l)) as IH'.
  { apply IH; intros y Hy; [apply H1|apply H2]; right; exact Hy. }
  destruct (sel x) eqn:E.
  - rewrite (H1 x (or_introl eq_refl) E). simpl. f_equal. exact IH'.
  - rewrite (H2 x (or_introl eq_refl) E). exact IH'.
Qed.

Variable st : Store.
Variable rental : Rental.
Variable c : Customer.
Hypothesis Hc : rental_customer st rental = Some c.

Lemma customer_fines_on_deposit :
  filter (fun f => (f_car_id f =? r_car_id rental)
                   && Deposit.via_deposit (f_settled_via f))
         (customer_fines st c)
  = filter (Ledger.fine_on_deposit rental) (fines st).
Proof.
  pose proof (rental_customer_id st rental c Hc) as Hid.
  unfold customer_fines. rewrite filter_filter. apply filter_ext. intros f.
  unfold Ledger.fine_on_deposit. rewrite Hid.
  destruct (f_customer_id f =? r_customer_id rental),
    (f_car_id f =? r_car_id rental); reflexivity.
Qed.

Lemma customer_damages_on_deposit :
  filter (fun d => (d_car_id d =? r_car_id rental)
                   && Deposit.via_deposit (d_settled_via d))
         (customer_damages st c)
  = filter (Ledger.damage_on_deposit rental) (damages st).
Proof.
  pose proof (rental_customer_id st rental c Hc) as Hid.
  unfold customer_damages. rewrite filter_filter. apply filter_ext. intros d.
  unfold Ledger.damage_on_deposit. rewrite Hid.
  destruct (d_customer_id d =? r_customer_id rental),
    (d_car_id d =? r_car_id rental); reflexivity.
Qed.

Lemma balance_with_deposit deposit :
  r_deposit rental = Some deposit ->
  ~ (deposit == 0)%Q ->
  Deposit.rental_deposit_balance st rental
  = Some (Tally.floored
            (Tally.deposit_less deposit (Ledger.fine_on_deposit rental)
                                (Ledger.damage_on_deposit rental) st)).
Proof.
  intros Hd Hnz. unfold Deposit.rental_deposit_balance. rewrite Hd.
  destruct (Qeq_bool deposit 0) eqn:E.
  { apply Qeq_bool_eq in E. contradiction. }
  rewrite Hc. cbv zeta. rewrite py_max_floored.
  rewrite (fold_left_deduct
             (fun d => (d_car_id d =? r_car_id rental)
                       && Deposit.via_deposit (d_settled_via d)) d_amount).
  rewrite (fold_left_deduct
             (fun f => (f_car_id f =? r_car_id rental)
                       && Deposit.via_deposit (f_settled_via f)) f_amount).
  rewrite customer_fines_on_deposit, customer_damages_on_deposit.
  reflexivity.
Qed.

End DepositFacts.

(** X10. The deposit balance of a rental is never negative. Without a
    deposit, or with a deposit of zero, it is zero, whether or not the
    customer row exists. Otherwise, for a rental whose customer row exists,
    it is the deposit less, one after the other in table order, the fines
    and then the damages of the rental's car and customer whose
    [settled_via] is "deposit", and zero when that difference is negative;
    toll entries are not deducted. It does not exceed a deposit that is
    not negative when none of the amounts deducted is negative. *)
Theorem deposit_balance_spec st rental :
  ((r_deposit rental = None \/ exists d, r_deposit rental = Some d /\ (d == 0)%Q) ->
   Deposit.rental_deposit_balance st rental = Some 0%Q)
  /\ (forall c deposit,
         rental_customer st rental = Some c ->
         r_deposit rental = Some deposit ->
         ~ (deposit == 0)%Q ->
         exists b,
           Deposit.rental_deposit_balance st rental = Some b
           /\ (0 <= b)%Q
           /\ b = Tally.floored
                    (Tally.deduct
                       (Tally.deduct deposit
                          (Tally.fine_amounts (Ledger.fine_on_deposit rental) st))
                       (Tally.damage_amounts (Ledger.damage_on_deposit rental) st))
           /\ ((0 <= deposit)%Q ->
               Forall (fun a => (0 <= a)%Q)
                      (Tally.fine_amounts (Ledger.fine_on_deposit rental) st) ->
               Forall (fun a => (0 <= a)%Q)
                      (Tally.damage_amounts (Ledger.damage_on_deposit rental) st) ->
               (b <= deposit)%Q)).
Proof.
  split.
  - unfold Deposit.rental_deposit_balance. intros [->|(d & -> & Hd)].
    + reflexivity.
    + apply Qeq_bool_iff in Hd. rewrite Hd. reflexivity.
  - intros c deposit Hc Hd Hnz.
    eexists. split; [apply (balance_with_deposit st rental c Hc deposit Hd Hnz)|].
    split; [apply floored_nonneg|]. split; [reflexivity|].
    intros Hpos Hf Hdm. apply floored_le_bound; [exact Hpos|].
    unfold Tally.deposit_less.
    pose proof (deduct_le _ deposit Hf) as H1.
    pose proof (deduct_le _ (Tally.deduct deposit
                               (Tally.fine_amounts (Ledger.fine_on_deposit rental)
                                                   st)) Hdm) as H2.
    lra.
Qed.

Lemma deposit_balance_spec_witness :
  exists r b,
    get_rental Scenario.settled 1 = Some r
    /\ Deposit.rental_deposit_balance Scenario.settled r = Some b
    /\ (b == 5000 - 1200)%Q /\ (b <= 5000)%Q.
Proof.
  destruct (proj2 (deposit_balance_spec Scenario.settled
                     (Settle.close_rental (ymd2ord 2024 3 1) 3500%Q
                        (Scenario.rental 1 1 1 (ymd2ord 2024 1 1) None
                                         (Some 3000%Q) (Some 5000%Q))))
              Scenario.alice 5000%Q eq_refl eq_refl)
    as (b & Hb & _ & Eb & Hle).
  - vm_compute. discriminate.
  - eexists. exists b. split; [reflexivity|]. split; [exact Hb|].
    split; [rewrite Eb; vm_compute; reflexivity|].
    apply Hle.
    + vm_compute. discriminate.
    + repeat constructor. vm_compute. discriminate.
    + constructor.
Defined.

Section DepositAfterSettlement.

Lemma filter_nil_false {A} (p : A -> bool) (l : list A) :
  filter p l = [] -> forall x, In x l -> p x = false.
Proof.
  intros H x Hin. destruct (p x) eqn:E; [|reflexivity].
  assert (In x (filter p l)) as Hx by (apply filter_In; auto).
  rewrite H in Hx. destruct Hx.
Qed.

Variable st : Store.
Variables (today : date) (rental : Rental) (c : Customer).
Hypothesis Hc : rental_customer st rental = Some c.

Lemma commit_fines_on_deposit :
  filter (Ledger.fine_on_deposit rental) (fines st) = [] ->
  Tally.fine_amounts (Ledger.fine_on_deposit rental)
    (Settle.commit today rental c (Settle.refundable st rental c) st)
  = Tally.fine_amounts (Spec.unpaid_fine rental) st.
Proof.
  intros Hnone. pose proof (rental_customer_id st rental c Hc) as Hid.
  unfold Tally.fine_amounts. simpl.
  rewrite (map_ext _ (fun f => if Spec.unpaid_fine rental f
                               then Settle.pay_fine "deposit" f else f))
    by (intros f; rewrite (fine_selected_spec rental c f Hid); reflexivity).
  rewrite filter_marked.
  - rewrite map_map. reflexivity.
  - intros f _ Hsel. unfold Spec.unpaid_fine in Hsel.
    unfold Ledger.fine_on_deposit. simpl.
    destruct (f_car_id f =? r_car_id rental),
      (f_customer_id f =? r_customer_id rental); simpl in *;
      try discriminate; reflexivity.
  - intros f Hin _. apply (filter_nil_false _ _ Hnone f Hin).
Qed.

Lemma commit_damages_on_deposit :
  filter (Ledger.damage_on_deposit rental) (damages st) = [] ->
  Tally.damage_amounts (Ledger.damage_on_deposit rental)
    (Settle.commit today rental c (Settle.refundable st rental c) st)
  = Tally.damage_amounts (Spec.unpaid_damage rental) st.
Proof.
  intros Hnone. pose proof (rental_customer_id st rental c Hc) as Hid.
  unfold Tally.damage_amounts. simpl.
  rewrite (map_ext _ (fun d => if Spec.unpaid_damage rental d
                               then Settle.pay_damage "deposit" d else d))
    by (intros d; rewrite (damage_selected_spec rental c d Hid); reflexivity).
  rewrite filter_marked.
  - rewrite map_map. reflexivity.
  - intros d _ Hsel. unfold Spec.unpaid_damage in Hsel.
    unfold Ledger.damage_on_deposit. simpl.
    destruct (d_car_id d =? r_car_id rental),
      (d_customer_id d =? r_customer_id rental); simpl in *;
      try discriminate; reflexivity.
  - intros d Hin _. apply (filter_nil_false _ _ Hnone d Hin).
Qed.

End DepositAfterSettlement.

(** X11. Settling a rental with a deposit, none of whose fines and damages
    had been settled via the deposit before, leaves as deposit balance the
    deposit less, one after the other in table order, the fines and then
    the damages that were unpaid at the settlement, zero when that
    difference is negative; the refund stored on the rental is the deposit
    less the total of the unpaid fines, damages and toll entries, zero
    when negative. The toll entries that the settlement charges to the
    deposit lower the refund and are left out of the balance. *)
Theorem deposit_balance_after_settlement st (today : date) rid rental c deposit :
  get_rental st rid = Some rental ->
  rental_customer st rental = Some c ->
  r_deposit rental = Some deposit ->
  ~ (deposit == 0)%Q ->
  filter (Ledger.fine_on_deposit rental) (fines st) = [] ->
  filter (Ledger.damage_on_deposit rental) (damages st) = [] ->
  exists st' rental' b refund,
    Settle.settle_rental today POST rid st = (Redirected "list_rentals", st')
    /\ get_rental st' rid = Some rental'
    /\ r_deposit_refunded_amount rental' = Some refund
    /\ Deposit.rental_deposit_balance st' rental' = Some b
    /\ b = Tally.floored
             (Tally.deduct
                (Tally.deduct deposit
                   (Tally.fine_amounts (Spec.unpaid_fine rental) st))
                (Tally.damage_amounts (Spec.unpaid_damage rental) st))
    /\ refund = Tally.floored (deposit - Tally.unpaid_charges st rental).
Proof.
  intros Hr Hc Hd Hnz Hf Hdm.
  pose proof (balance_with_deposit
                (Settle.commit today rental c (Settle.refundable st rental c) st)
                (Settle.close_rental today (Settle.refundable st rental c) rental)
                c Hc deposit Hd Hnz) as Hb.
  eexists. eexists. eexists. eexists.
  split; [apply settle_commit; eassumption|].
  split; [apply commit_rental; assumption|].
  split; [reflexivity|]. split; [exact Hb|].
  split.
  - unfold Tally.deposit_less.
    change (Ledger.fine_on_deposit (Settle.close_rental _ _ rental))
      with (Ledger.fine_on_deposit rental).
    change (Ledger.damage_on_deposit (Settle.close_rental _ _ rental))
      with (Ledger.damage_on_deposit rental).
    rewrite (commit_fines_on_deposit st today rental c Hc Hf),
      (commit_damages_on_deposit st today rental c Hc Hdm).
    reflexivity.
  - unfold Settle.refundable. rewrite py_max_floored, Hd.
    rewrite (charges_total_tally st rental c Hc).
    unfold Qor0. destruct (Qeq_bool deposit 0) eqn:E.
    { apply Qeq_bool_eq in E. contradiction. }
    reflexivity.
Qed.

Lemma deposit_balance_after_settlement_witness :
  exists st' rental' b refund,
    Settle.settle_rental (ymd2ord 2024 3 1) POST 1 Scenario.with_deposit
    = (Redirected "list_rentals", st')
    /\ get_rental st' 1 = Some rental'
    /\ r_deposit_refunded_amount rental' = Some refund
    /\ Deposit.rental_deposit_balance st' rental' = Some b
    /\ (b == 5000 - 1200)%Q /\ (refund == 5000 - (1200 + 300))%Q.
Proof.
  destruct (deposit_balance_after_settlement Scenario.with_deposit
              (ymd2ord 2024 3 1) 1
              (Scenario.rental 1 1 1 (ymd2ord 2024 1 1) None
                               (Some 3000%Q) (Some 5000%Q))
              Scenario.alice 5000%Q eq_refl eq_refl eq_refl)
    as (st' & rental' & b & refund & H1 & H2 & H3 & H4 & H5 & H6).
  - vm_compute. discriminate.
  - reflexivity.
  - reflexivity.
  - exists st', rental', b, refund.
    split; [exact H1|]. split; [exact H2|]. split; [exact H3|].
    split; [exact H4|]. split.
    + rewrite H5. vm_compute. reflexivity.
    + rewrite H6. vm_compute. reflexivity.
Defined.

(** * New charges *)

Section NewCharges.

Variable st : Store.
Variables (rid : Z) (rental : Rental) (c : Customer).
Hypothesis Hr : get_rental st rid = Some rental.
Hypothesis Hc : rental_customer st rental = Some c.

Lemma unpaid_charges_new_fine (f : Fine) :
  f_car_id f = r_car_id rental ->
  f_customer_id f = r_customer_id rental ->
  (Spec.unpaid_charges (Charges.with_fines st (fines st ++ [f])) rental
   == Spec.unpaid_charges st rental
      + (if f_paid f then 0 else Spec.amount (f_amount f)))%Q.
Proof.
  intros Hcar Hcust. unfold Spec.unpaid_charges. simpl.
  rewrite filter_app, map_app, total_app. simpl.
  unfold Spec.unpaid_fine at 2. rewrite Hcar, Hcust, !Z.eqb_refl. simpl.
  destruct (f_paid f); simpl; ring.
Qed.

Lemma unpaid_charges_new_salik (s : Salik) :
  s_rental_id s = r_id rental ->
  (Spec.unpaid_charges (Charges.with_saliks st (saliks st ++ [s])) rental
   == Spec.unpaid_charges st rental
      + (if s_paid s then 0 else Spec.amount (s_amount s)))%Q.
Proof.
  intros Hrid. unfold Spec.unpaid_charges. simpl.
  rewrite filter_app, map_app, total_app. simpl.
  unfold Spec.unpaid_salik at 2. rewrite Hrid, Z.eqb_refl. simpl.
  destruct (s_paid s); simpl; ring.
Qed.

Lemma outstanding_fines_new (f : Fine) :
  f_car_id f = r_car_id rental ->
  f_customer_id f = r_customer_id rental ->
  outstanding_fines (Charges.with_fines st (fines st ++ [f])) rental c
  = outstanding_fines st rental c ++ (if f_paid f then [] else [f]).
Proof.
  intros Hcar Hcust.
  rewrite (outstanding_fines_spec (Charges.with_fines st (fines st ++ [f]))
                                  rental c Hc),
    (outstanding_fines_spec st rental c Hc).
  simpl. rewrite filter_app. simpl.
  unfold Spec.unpaid_fine at 2. rewrite Hcar, Hcust, !Z.eqb_refl. simpl.
  destruct (f_paid f); reflexivity.
Qed.

Lemma outstanding_salik_new (s : Salik) :
  s_rental_id s = r_id rental ->
  outstanding_salik (Charges.with_saliks st (saliks st ++ [s])) rental
  = outstanding_salik st rental ++ (if s_paid s then [] else [s]).
Proof.
  intros Hrid. rewrite !outstanding_salik_spec.
  simpl. rewrite filter_app. simpl.
  unfold Spec.unpaid_salik at 2. rewrite Hrid, Z.eqb_refl. simpl.
  destruct (s_paid s); reflexivity.
Qed.

Lemma refundable_antitone st2 :
  rental_customer st2 rental = Some c ->
  (Spec.unpaid_charges st rental <= Spec.unpaid_charges st2 rental)%Q ->
  (Settle.refundable st2 rental c <= Settle.refundable st rental c)%Q.
Proof.
  intros Hc2 Hle.
  rewrite (refundable_now_spec st2 rental c Hc2),
    (refundable_now_spec st rental c Hc).
  apply Q.max_le_compat_r. lra.
Qed.

End NewCharges.

(** X12. A fine added for the car and the customer of a rental, and a toll
    entry added for the rental, leave the settlement preview as it was
    when they are entered as paid. Entered as unpaid, they come last in
    the preview's list of outstanding fines (of outstanding toll entries),
    the other lists stay as they were, and, when the amount is not
    negative, the total charges of the preview do not drop and the
    refundable amount does not rise. Adding a fine for a car or a customer
    that does not exist is answered with 404 and writes nothing. *)
Theorem new_charge_raises_total st (today : date) rid rental c car
        (f : Charges.Form) :
  get_rental st rid = Some rental ->
  rental_customer st rental = Some c ->
  get_car st (r_car_id rental) = Some car ->
  (exists pg st' pg',
      Settle.settle_rental today GET rid st = (Rendered pg, st)
      /\ Charges.add_fine POST (r_car_id rental) (r_customer_id rental) f st
         = (Redirected "list_rentals", st')
      /\ Settle.settle_rental today GET rid st' = (Rendered pg', st')
      /\ Settle.pg_outstanding_damages pg' = Settle.pg_outstanding_damages pg
      /\ Settle.pg_outstanding_salik pg' = Settle.pg_outstanding_salik pg
      /\ (Charges.fm_paid f = true -> pg' = pg)
      /\ (Charges.fm_paid f = false ->
          exists new,
            Settle.pg_outstanding_fines pg'
            = Settle.pg_outstanding_fines pg ++ [new]
            /\ f_amount new = Some (Charges.fm_amount f)
            /\ f_paid new = false
            /\ ((0 <= Charges.fm_amount f)%Q ->
                (Settle.pg_total_charges pg <= Settle.pg_total_charges pg')%Q
                /\ (Settle.pg_refundable pg' <= Settle.pg_refundable pg)%Q)))
  /\ (exists pg st' pg',
         Settle.settle_rental today GET rid st = (Rendered pg, st)
         /\ Charges.add_salik POST rid f st = (Redirected "list_rentals", st')
         /\ Settle.settle_rental today GET rid st' = (Rendered pg', st')
         /\ Settle.pg_outstanding_fines pg' = Settle.pg_outstanding_fines pg
         /\ Settle.pg_outstanding_damages pg' = Settle.pg_outstanding_damages pg
         /\ (Charges.fm_paid f = true -> pg' = pg)
         /\ (Charges.fm_paid f = false ->
             exists new,
               Settle.pg_outstanding_salik pg'
               = Settle.pg_outstanding_salik pg ++ [new]
               /\ s_amount new = Some (Charges.fm_amount f)
               /\ s_paid new = false
               /\ ((0 <= Charges.fm_amount f)%Q ->
                   (Settle.pg_total_charges pg <= Settle.pg_total_charges pg')%Q
                   /\ (Settle.pg_refundable pg' <= Settle.pg_refundable pg)%Q)))
  /\ (forall m cid cust_id,
         get_car st cid = None \/ get_customer st cust_id = None ->
         Charges.add_fine m cid cust_id f st = (NotFound, st)).
Proof.
  intros Hr Hc Hcar.
  assert (car_id car = r_car_id rental) as Ecar.
  { unfold get_car in Hcar. apply find_some in Hcar as [_ H].
    apply Z.eqb_eq. exact H. }
  pose proof (rental_customer_id st rental c Hc) as Ecust.
  split; [|split].
  - eexists. eexists. eexists.
    assert (Charges.add_fine POST (r_car_id rental) (r_customer_id rental) f st
            = (Redirected "list_rentals",
               Charges.with_fines st
                 (fines st
                  ++ [{| f_id := Rentals.fresh_id (map f_id (fines st));
                         f_car_id := car_id car;
                         f_customer_id := c_id c;
                         f_amount := Some (Charges.fm_amount f);
                         f_paid := Charges.fm_paid f;
                         f_settled_via := Charges.fm_settled_via f |}])))
      as Hadd.
    { unfold Charges.add_fine. rewrite Hcar.
      change (get_customer st (r_customer_id rental))
        with (rental_customer st rental).
      rewrite Hc. reflexivity. }
    split; [apply (settle_preview st today rid rental c Hr Hc)|].
    split; [exact Hadd|].
    match type of Hadd with
    | _ = (_, Charges.with_fines _ (_ ++ [?nf])) =>
        pose proof (outstanding_fines_new st rental c Hc nf Ecar Ecust) as Enew;
        pose proof (unpaid_charges_new_fine st rental nf Ecar Ecust) as Etot
    end.
    match type of Hadd with
    | _ = (_, ?s) =>
        split; [apply (settle_preview s today rid rental c Hr Hc)|];
        pose proof (charges_total_spec s rental c Hc) as Et';
        pose proof (refundable_antitone st rental c Hc s Hc) as Href
    end.
    pose proof (charges_total_spec st rental c Hc) as Et.
    cbn [Settle.pg_outstanding_fines Settle.pg_outstanding_damages
         Settle.pg_outstanding_salik Settle.pg_total_charges
         Settle.pg_refundable f_paid f_amount] in *.
    split; [reflexivity|]. split; [reflexivity|]. split.
    + intros Hpaid. rewrite Hpaid in Enew |- *. rewrite app_nil_r in Enew.
      unfold Settle.refundable, charges_total. rewrite Enew. reflexivity.
    + intros Hpaid. rewrite Hpaid in *.
      eexists. split; [exact Enew|]. split; [reflexivity|].
      split; [reflexivity|]. intros Hpos.
      cbn [Spec.amount] in Etot.
      assert (Spec.unpaid_charges st rental
              <= Spec.unpaid_charges
                   (Charges.with_fines st
                      (fines st
                       ++ [{| f_id := Rentals.fresh_id (map f_id (fines st));
                              f_car_id := car_id car;
                              f_customer_id := c_id c;
                              f_amount := Some (Charges.fm_amount f);
                              f_paid := false;
                              f_settled_via := Charges.fm_settled_via f |}]))
                   rental)%Q as Hle by lra.
      split; [lra|]. apply Href. exact Hle.
  - eexists. eexists. eexists.
    assert (Charges.add_salik POST rid f st
            = (Redirected "list_rentals",
               Charges.with_saliks st
                 (saliks st
                  ++ [{| s_id := Rentals.fresh_id (map s_id (saliks st));
                         s_car_id := r_car_id rental;
                         s_rental_id := rid;
                         s_amount := Some (Charges.fm_amount f);
                         s_paid := Charges.fm_paid f;
                         s_settled_via :=
                           Charges.or_none (Charges.fm_settled_via f) |}])))
      as Hadd.
    { unfold Charges.add_salik. rewrite Hr. reflexivity. }
    assert (rid = r_id rental) as Erid
        by (symmetry; apply (get_rental_id st); exact Hr).
    split; [apply (settle_preview st today rid rental c Hr Hc)|].
    split; [exact Hadd|].
    match type of Hadd with
    | _ = (_, Charges.with_saliks _ (_ ++ [?ns])) =>
        pose proof (outstanding_salik_new st rental ns Erid) as Enew;
        pose proof (unpaid_charges_new_salik st rental ns Erid) as Etot
    end.
    match type of Hadd with
    | _ = (_, ?s) =>
        split; [apply (settle_preview s today rid rental c Hr Hc)|];
        pose proof (charges_total_spec s rental c Hc) as Et';
        pose proof (refundable_antitone st rental c Hc s Hc) as Href
    end.
    pose proof (charges_total_spec st rental c Hc) as Et.
    cbn [Settle.pg_outstanding_fines Settle.pg_outstanding_damages
         Settle.pg_outstanding_salik Settle.pg_total_charges
         Settle.pg_refundable s_paid s_amount] in *.
    split; [reflexivity|]. split; [reflexivity|]. split.
    + intros Hpaid. rewrite Hpaid in Enew |- *. rewrite app_nil_r in Enew.
      unfold Settle.refundable, charges_total. rewrite Enew. reflexivity.
    + intros Hpaid. rewrite Hpaid in *.
      eexists. split; [exact Enew|]. split; [reflexivity|].
      split; [reflexivity|]. intros Hpos.
      cbn [Spec.amount] in Etot.
      assert (Spec.unpaid_charges st rental
              <= Spec.unpaid_charges
                   (Charges.with_saliks st
                      (saliks st
                       ++ [{| s_id := Rentals.fresh_id (map s_id (saliks st));
                              s_car_id := r_car_id rental;
                              s_rental_id := rid;
                              s_amount := Some (Charges.fm_amount f);
                              s_paid := false;
                              s_settled_via :=
                                Charges.or_none (Charges.fm_settled_via f) |}]))
                   rental)%Q as Hle by lra.
      split; [lra|]. apply Href. exact Hle.
  - intros m cid cust_id [H|H]; unfold Charges.add_fine; rewrite H;
      [reflexivity|]. destruct (get_car st cid); reflexivity.
Qed.

Lemma new_charge_raises_total_witness :
  exists pg st' pg' new,
    Settle.settle_rental (ymd2ord 2024 3 1) GET 1 Scenario.with_deposit
    = (Rendered pg, Scenario.with_deposit)
    /\ Charges.add_fine POST 1 1 Paid.charge250 Scenario.with_deposit
       = (Redirected "list_rentals", st')
    /\ Settle.settle_rental (ymd2ord 2024 3 1) GET 1 st' = (Rendered pg', st')
    /\ Settle.pg_outstanding_fines pg'
       = Settle.pg_outstanding_fines pg ++ [new]
    /\ f_amount new = Some 250%Q
    /\ (Settle.pg_total_charges pg <= Settle.pg_total_charges pg')%Q
    /\ (Settle.pg_refundable pg' <= Settle.pg_refundable pg)%Q.
Proof.
  destruct (new_charge_raises_total Scenario.with_deposit (ymd2ord 2024 3 1) 1
              (Scenario.rental 1 1 1 (ymd2ord 2024 1 1) None
                               (Some 3000%Q) (Some 5000%Q))
              Scenario.alice Scenario.car1 Paid.charge250
              eq_refl eq_refl eq_refl)
    as ((pg & st' & pg' & H1 & H2 & H3 & _ & _ & _ & H4) & _).
  destruct (H4 eq_refl) as (new & H5 & H6 & _ & H7).
  destruct H7 as [H8 H9]; [vm_compute; discriminate|].
  exists pg, st', pg', new. repeat split; assumption.
Defined.

(** * Bookings *)

Section BookingFacts.

Lemma covers_spec (d : date) (r : Rental) :
  Bookings.covers d r = true
  <-> r_start_date r <= d /\ Spec.le_end d (r_end_date r).
Proof. apply rental_active_spec. Qed.

Lemma covering_unique (rs : list Rental) (d : date) (r r' : Rental) :
  Invariant.no_overlap rs ->
  In r rs -> In r' rs -> r_car_id r = r_car_id r' ->
  Bookings.covers d r = true -> Bookings.covers d r' = true ->
  r' = r.
Proof.
  intros Hinv Hin Hin' Hcar Hc Hc'.
  apply covers_spec in Hc as [Hs He]. apply covers_spec in Hc' as [Hs' He'].
  assert (forall a b, r_start_date a <= d -> Spec.le_end d (r_end_date b) ->
                      Spec.le_end (r_start_date a) (r_end_date b)) as Hle.
  { intros a b Ha Hb. unfold Spec.le_end in *.
    destruct (r_end_date b); [lia|exact I]. }
  destruct (ForallOrdPairs_In Hinv r' r Hin' Hin) as [E|[H|H]];
    [exact E| |]; exfalso; apply H; split; try congruence;
    split; apply Hle; assumption.
Qed.

Variable st : Store.
Variable f : Bookings.Form.

Lemma booking_conflict_found r :
  Invariant.no_overlap (rentals st) ->
  In r (rentals st) -> r_car_id r = Bookings.fm_car_id f ->
  Bookings.covers (Bookings.fm_start_date f) r = true ->
  Bookings.conflict_rental st f = Some r.
Proof.
  intros Hinv Hin Hcar Hcov. unfold Bookings.conflict_rental.
  destruct (find (Bookings.covers (Bookings.fm_start_date f))
                 (rentals_of_car st (Bookings.fm_car_id f))) as [r'|] eqn:E.
  - apply find_some in E as [Hin' Hcov'].
    apply filter_In in Hin' as [Hin' Hcar']. apply Z.eqb_eq in Hcar'.
    f_equal. apply (covering_unique (rentals st) (Bookings.fm_start_date f));
      try assumption. congruence.
  - pose proof (find_none _ _ E r) as Hn. rewrite Hcov in Hn.
    assert (false = true); [|discriminate]. symmetry. apply Hn.
    apply filter_In. split; [exact Hin|]. apply Z.eqb_eq. exact Hcar.
Qed.

Lemma booking_conflict_none :
  (forall r, In r (rentals st) -> r_car_id r = Bookings.fm_car_id f ->
             ~ (r_start_date r <= Bookings.fm_start_date f
                /\ Spec.le_end (Bookings.fm_start_date f) (r_end_date r))) ->
  Bookings.conflict_rental st f = None.
Proof.
  intros H. unfold Bookings.conflict_rental.
  destruct (find _ _) as [r|] eqn:E; [|reflexivity].
  apply find_some in E as [Hin Hcov].
  apply filter_In in Hin as [Hin Hcar]. apply Z.eqb_eq in Hcar.
  apply covers_spec in Hcov. exfalso. exact (H r Hin Hcar Hcov).
Qed.

End BookingFacts.

(** X13. In a rentals table without clashes, a booking whose start date
    falls into a rental of the car that has an end date is rejected with
    that end date and nothing is stored; a booking whose start date falls
    into an open-ended rental of the car is accepted, and so is one whose
    start date falls into no rental of the car. The answer depends on the
    rentals only: existing bookings and the end date of the new booking are
    never looked at. *)
Theorem booking_check st f :
  (Invariant.no_overlap (rentals st) ->
   forall r,
     In r (rentals st) -> r_car_id r = Bookings.fm_car_id f ->
     r_start_date r <= Bookings.fm_start_date f ->
     Spec.le_end (Bookings.fm_start_date f) (r_end_date r) ->
     Bookings.add_booking POST f st
     = match r_end_date r with
       | Some e => (Rendered {| Bookings.pg_flash := Some e |}, st)
       | None =>
           (Redirected "list_bookings",
            Bookings.with_bookings st (bookings st ++ [Bookings.new_booking st f]))
       end)
  /\ ((forall r, In r (rentals st) -> r_car_id r = Bookings.fm_car_id f ->
                 ~ (r_start_date r <= Bookings.fm_start_date f
                    /\ Spec.le_end (Bookings.fm_start_date f) (r_end_date r))) ->
      Bookings.add_booking POST f st
      = (Redirected "list_bookings",
         Bookings.with_bookings st (bookings st ++ [Bookings.new_booking st f])))
  /\ (forall m st2 e2,
         rentals st2 = rentals st ->
         is_redirect (fst (Bookings.add_booking m f st))
         = is_redirect
             (fst (Bookings.add_booking m
                     {| Bookings.fm_car_id := Bookings.fm_car_id f;
                        Bookings.fm_start_date := Bookings.fm_start_date f;
                        Bookings.fm_end_date := e2 |} st2))).
Proof.
  split; [|split].
  - intros Hinv r Hin Hcar Hs He.
    assert (Bookings.covers (Bookings.fm_start_date f) r = true) as Hcov
        by (apply covers_spec; auto).
    unfold Bookings.add_booking.
    rewrite (booking_conflict_found st f r Hinv Hin Hcar Hcov).
    destruct (r_end_date r) as [e|]; [|reflexivity].
    simpl in He. apply Z.leb_le in He. rewrite He. reflexivity.
  - intros Hnone. unfold Bookings.add_booking.
    rewrite (booking_conflict_none st f Hnone). reflexivity.
  - intros m st2 e2 Hrs. unfold Bookings.add_booking. destruct m; [reflexivity|].
    unfold Bookings.conflict_rental, rentals_of_car. simpl. rewrite Hrs.
    destruct (find _ _) as [r|]; [|reflexivity].
    destruct (r_end_date r) as [e|]; [|reflexivity].
    destruct (Bookings.fm_start_date f <=? e); reflexivity.
Qed.

Lemma booking_check_witness :
  Invariant.no_overlap (rentals Examples.open_and_fixed)
  /\ Bookings.add_booking POST
       (Examples.booking 2 (ymd2ord 2024 1 5) (ymd2ord 2024 1 20))
       Examples.open_and_fixed
     = (Rendered {| Bookings.pg_flash := Some (ymd2ord 2024 1 10) |},
        Examples.open_and_fixed)
  /\ is_redirect
       (fst (Bookings.add_booking POST
               (Examples.booking 1 (ymd2ord 2024 1 5) (ymd2ord 2024 1 20))
               Examples.open_and_fixed)) = true.
Proof.
  assert (Invariant.no_overlap (rentals Examples.open_and_fixed)) as H.
  { unfold Invariant.no_overlap. vm_compute rentals.
    constructor; [|constructor; constructor].
    constructor; [|constructor].
    intros [Hcar _]. vm_compute in Hcar. discriminate Hcar. }
  split; [exact H|].
  pose proof (proj1 (booking_check Examples.open_and_fixed
                       (Examples.booking 2 (ymd2ord 2024 1 5) (ymd2ord 2024 1 20)))
                H
                (Scenario.rental 2 2 2 (ymd2ord 2024 1 1)
                                 (Some (ymd2ord 2024 1 10)) (Some 2000%Q) None))
    as Hfixed.
  pose proof (proj1 (booking_check Examples.open_and_fixed
                       (Examples.booking 1 (ymd2ord 2024 1 5) (ymd2ord 2024 1 20)))
                H
                (Scenario.rental 1 1 1 (ymd2ord 2024 1 1) None
                                 (Some 3000%Q) (Some 5000%Q)))
    as Hopen.
  split.
  - apply Hfixed.
    + right. left. reflexivity.
    + reflexivity.
    + vm_compute. discriminate.
    + vm_compute. discriminate.
  - rewrite Hopen.
    + reflexivity.
    + left. reflexivity.
    + reflexivity.
    + vm_compute. discriminate.
    + exact I.
Defined.

(** X14. An accepted booking is appended to the bookings table with the
    car and the dates of the form and touches no rental; from then on the
    car counts as booked on every day from the start date to the end date,
    and no car changes its rented state. Nothing checks that the end date
    is not before the start date: such a booking is stored, and changes
    the booked state of no car on any day. *)
Theorem booking_round_trip m f st t st' :
  Bookings.add_booking m f st = (Redirected t, st') ->
  exists b,
    bookings st' = bookings st ++ [b]
    /\ b_car_id b = Bookings.fm_car_id f
    /\ b_start_date b = Bookings.fm_start_date f
    /\ b_end_date b = Bookings.fm_end_date f
    /\ rentals st' = rentals st
    /\ (forall c d,
           car_id c = Bookings.fm_car_id f ->
           Bookings.fm_start_date f <= d <= Bookings.fm_end_date f ->
           Occupancy.is_booked_today st' c d = true)
    /\ (forall c d,
           Occupancy.is_rented_today st' c d = Occupancy.is_rented_today st c d)
    /\ (Bookings.fm_end_date f < Bookings.fm_start_date f ->
        forall c d,
          Occupancy.is_booked_today st' c d = Occupancy.is_booked_today st c d).
Proof.
  intros H.
  assert (st' = Bookings.with_bookings st (bookings st ++ [Bookings.new_booking st f]))
    as ->.
  { unfold Bookings.add_booking in H. destruct m; [discriminate|].
    destruct (Bookings.conflict_rental st f) as [r|].
    - destruct (r_end_date r) as [e|].
      + destruct (Bookings.fm_start_date f <=? e); [discriminate|].
        injection H as _ <-. reflexivity.
      + injection H as _ <-. reflexivity.
    - injection H as _ <-. reflexivity. }
  exists (Bookings.new_booking st f). simpl.
  repeat (split; [reflexivity|]). split; [|split].
  - intros c d Hcar Hd. apply is_booked_today_spec.
    exists (Bookings.new_booking st f). simpl.
    split; [apply in_or_app; right; left; reflexivity|]. auto.
  - intros c d. reflexivity.
  - intros Hend c d.
    unfold Occupancy.is_booked_today, bookings_of_car. simpl.
    rewrite filter_app, existsb_app. simpl.
    destruct (Bookings.fm_car_id f =? car_id c); simpl;
      [|apply orb_false_r].
    unfold Occupancy.booking_active, Occupancy.date_in_range. simpl.
    destruct (Z.leb_spec (Bookings.fm_start_date f) d),
      (Z.leb_spec d (Bookings.fm_end_date f)); simpl;
      try apply orb_false_r; lia.
Qed.

Lemma booking_round_trip_witness :
  exists st' b,
    Bookings.add_booking POST
      (Examples.booking 1 (ymd2ord 2024 1 5) (ymd2ord 2024 1 20))
      Examples.open_and_fixed
    = (Redirected "list_bookings", st')
    /\ bookings st' = bookings Examples.open_and_fixed ++ [b]
    /\ Occupancy.is_booked_today st' Scenario.car1 (ymd2ord 2024 1 12) = true.
Proof.
  assert (Bookings.add_booking POST
            (Examples.booking 1 (ymd2ord 2024 1 5) (ymd2ord 2024 1 20))
            Examples.open_and_fixed
          = (Redirected "list_bookings",
             Bookings.with_bookings Examples.open_and_fixed
               (bookings Examples.open_and_fixed
                ++ [Bookings.new_booking Examples.open_and_fixed
                      (Examples.booking 1 (ymd2ord 2024 1 5)
                                        (ymd2ord 2024 1 20))]))) as H
      by reflexivity.
  destruct (booking_round_trip _ _ _ _ _ H) as (b & H1 & _ & _ & _ & _ & H2 & _).
  eexists. exists b. split; [exact H|]. split; [exact H1|].
  apply H2; [reflexivity|]. split; vm_compute; discriminate.
Defined.

(** * Defleeting *)

Section DefleetFacts.

Lemma blocks_spec (today : date) (r : Rental) :
  Fleet.blocks today r = true
  <-> r_deposit_refunded r = false /\ Spec.le_end today (r_end_date r).
Proof.
  unfold Fleet.blocks, Spec.le_end. rewrite andb_true_iff, negb_true_iff.
  destruct (r_end_date r) as [e|]; [rewrite Z.leb_le|]; tauto.
Qed.

Variable st : Store.
Variable fl : Fleet.Tables.
Variable today : date.
Variables (cid : Z) (car : Car).
Hypothesis Hcar : get_car st cid = Some car.

Lemma blocked_iff :
  existsb (Fleet.blocks today) (rentals_of_car st (car_id car)) = true
  <-> exists r, In r (rentals st) /\ r_car_id r = car_id car
                /\ r_deposit_refunded r = false
                /\ Spec.le_end today (r_end_date r).
Proof.
  rewrite existsb_exists. unfold rentals_of_car. split.
  - intros (r & Hin & Hb). apply filter_In in Hin as [Hin Hc].
    apply Z.eqb_eq in Hc. apply blocks_spec in Hb. exists r. tauto.
  - intros (r & Hin & Hc & Hb). exists r. split.
    + apply filter_In. split; [exact Hin|]. apply Z.eqb_eq. exact Hc.
    + apply blocks_spec. exact Hb.
Qed.

Lemma defleet_blocked :
  existsb (Fleet.blocks today) (rentals_of_car st (car_id car)) = true ->
  Fleet.defleet_car today cid st fl
  = (Redirected "list_cars", Some Fleet.CannotDefleet, fl).
Proof. intros H. unfold Fleet.defleet_car. rewrite Hcar, H. reflexivity. Qed.

Lemma defleet_free :
  existsb (Fleet.blocks today) (rentals_of_car st (car_id car)) = false ->
  Fleet.defleet_car today cid st fl
  = match Fleet.defleet_record fl car with
    | None =>
        (Redirected "list_cars", Some Fleet.HasBeenDefleeted,
         {| Fleet.car_orders := Fleet.car_orders fl;
            Fleet.defleeted :=
              Fleet.defleeted fl
              ++ [{| Fleet.df_id :=
                       Rentals.fresh_id (map Fleet.df_id (Fleet.defleeted fl));
                     Fleet.df_car_id := car_id car;
                     Fleet.df_date := today |}] |})
    | Some _ => (Redirected "list_cars", None, fl)
    end.
Proof. intros H. unfold Fleet.defleet_car. rewrite Hcar, H. reflexivity. Qed.

Lemma defleet_record_none :
  Fleet.defleet_record fl car = None ->
  ~ In (car_id car) (map Fleet.df_car_id (Fleet.defleeted fl)).
Proof.
  intros Hnone Hin. apply in_map_iff in Hin as (d & Hd & Hin).
  pose proof (find_none _ _ Hnone d Hin) as H. simpl in H.
  rewrite Hd, Z.eqb_refl in H. discriminate.
Qed.

End DefleetFacts.

(** X15. A car with a rental that is not settled and is open ended or ends
    today or later (whether or not it has started) cannot be defleeted: the
    request is turned away and the tables stay as they were. A car all of
    whose rentals are settled or ended before today is defleeted: it gets
    one record dated today, unless it has one already, in which case
    nothing is written; a second request changes nothing. Under every
    answer no car gains a second record. *)
Theorem defleet_guard st fl (today : date) cid car :
  get_car st cid = Some car ->
  ((exists r, In r (rentals st) /\ r_car_id r = car_id car
              /\ r_deposit_refunded r = false
              /\ Spec.le_end today (r_end_date r)) ->
   Fleet.defleet_car today cid st fl
   = (Redirected "list_cars", Some Fleet.CannotDefleet, fl))
  /\ ((forall r, In r (rentals st) -> r_car_id r = car_id car ->
                 r_deposit_refunded r = true
                 \/ exists e, r_end_date r = Some e /\ e < today) ->
      exists flash fl' d,
        Fleet.defleet_car today cid st fl = (Redirected "list_cars", flash, fl')
        /\ Fleet.defleet_record fl' car = Some d
        /\ (Fleet.defleet_record fl car = None ->
            exists d', Fleet.defleeted fl' = Fleet.defleeted fl ++ [d']
                       /\ Fleet.df_car_id d' = car_id car
                       /\ Fleet.df_date d' = today)
        /\ (Fleet.defleet_record fl car <> None -> fl' = fl)
        /\ (forall later,
               Fleet.defleet_car later cid st fl'
               = (Redirected "list_cars", None, fl')
               \/ Fleet.defleet_car later cid st fl'
                  = (Redirected "list_cars", Some Fleet.CannotDefleet, fl')))
  /\ (NoDup (map Fleet.df_car_id (Fleet.defleeted fl)) ->
      NoDup (map Fleet.df_car_id
                 (Fleet.defleeted (snd (Fleet.defleet_car today cid st fl))))).
Proof.
  intros Hcar. split; [|split].
  - intros H. apply (defleet_blocked st fl today cid car Hcar).
    apply (blocked_iff st today car). exact H.
  - intros Hfree.
    assert (existsb (Fleet.blocks today) (rentals_of_car st (car_id car)) = false)
      as Hnb.
    { destruct (existsb _ _) eqn:E; [|reflexivity].
      apply (blocked_iff st today car) in E as (r & Hin & Hc & Hu & He).
      destruct (Hfree r Hin Hc) as [H|(e & He' & Hlt)]; [congruence|].
      rewrite He' in He. simpl in He. lia. }
    rewrite (defleet_free st fl today cid car Hcar Hnb).
    assert (forall fl2 later,
               Fleet.defleet_record fl2 car <> None ->
               Fleet.defleet_car later cid st fl2
               = (Redirected "list_cars", None, fl2)
               \/ Fleet.defleet_car later cid st fl2
                  = (Redirected "list_cars", Some Fleet.CannotDefleet, fl2))
      as Hagain.
    { intros fl2 later Hrec. unfold Fleet.defleet_car. rewrite Hcar.
      destruct (existsb (Fleet.blocks later) _); [right; reflexivity|].
      destruct (Fleet.defleet_record fl2 car); [left; reflexivity|congruence]. }
    destruct (Fleet.defleet_record fl car) as [d|] eqn:Erec.
    + exists None, fl, d. split; [reflexivity|]. split; [exact Erec|].
      split; [discriminate|]. split; [reflexivity|].
      intros later. apply Hagain. congruence.
    + eexists. eexists. eexists. split; [reflexivity|].
      assert (Fleet.defleet_record
                {| Fleet.car_orders := Fleet.car_orders fl;
                   Fleet.defleeted :=
                     Fleet.defleeted fl
                     ++ [{| Fleet.df_id :=
                              Rentals.fresh_id
                                (map Fleet.df_id (Fleet.defleeted fl));
                            Fleet.df_car_id := car_id car;
                            Fleet.df_date := today |}] |} car
              = Some {| Fleet.df_id :=
                          Rentals.fresh_id (map Fleet.df_id (Fleet.defleeted fl));
                        Fleet.df_car_id := car_id car;
                        Fleet.df_date := today |}) as Enew.
      { unfold Fleet.defleet_record in *. simpl.
        rewrite find_snoc, Erec. simpl. rewrite Z.eqb_refl. reflexivity. }
      split; [exact Enew|]. split.
      * intros _. eexists. split; [reflexivity|]. split; reflexivity.
      * split; [congruence|]. intros later. apply Hagain. congruence.
  - intros Hnd. unfold Fleet.defleet_car. rewrite Hcar.
    destruct (existsb _ _); [exact Hnd|].
    destruct (Fleet.defleet_record fl car) eqn:Erec; [exact Hnd|]. simpl.
    rewrite map_app. simpl.
    apply NoDup_app_remove_l with (l := []). simpl.
    apply Permutation.Permutation_NoDup
      with (l := car_id car :: map Fleet.df_car_id (Fleet.defleeted fl)).
    + apply Permutation.Permutation_cons_append.
    + constructor; [|exact Hnd].
      apply (defleet_record_none fl car Erec).
Qed.

Lemma defleet_guard_witness :
  Fleet.defleet_car (ymd2ord 2024 3 1) 1 Examples.open_and_fixed Examples.no_tables
  = (Redirected "list_cars", Some Fleet.CannotDefleet, Examples.no_tables)
  /\ exists flash fl' d,
      Fleet.defleet_car (ymd2ord 2024 3 1) 2 Examples.open_and_fixed
                        Examples.no_tables
      = (Redirected "list_cars", flash, fl')
      /\ Fleet.defleet_record fl' Scenario.car2 = Some d.
Proof.
  pose proof (defleet_guard Examples.open_and_fixed Examples.no_tables
                (ymd2ord 2024 3 1) 1 Scenario.car1 eq_refl) as (H1 & _).
  pose proof (defleet_guard Examples.open_and_fixed Examples.no_tables
                (ymd2ord 2024 3 1) 2 Scenario.car2 eq_refl) as (_ & H2 & _).
  split.
  - apply H1.
    exists (Scenario.rental 1 1 1 (ymd2ord 2024 1 1) None
                            (Some 3000%Q) (Some 5000%Q)).
    split; [left; reflexivity|]. repeat split.
  - destruct H2 as (flash & fl' & d & Hd & Hrec & _).
    + intros r [<-|[<-|[]]] Hc; [discriminate Hc|].
      right. eexists. split; [reflexivity|]. vm_compute. reflexivity.
    + exists flash, fl', d. split; assumption.
Defined.

Section SettleThenDefleet.

Lemma defleet_succeeds st fl (today : date) cid car :
  get_car st cid = Some car ->
  (forall r, In r (rentals st) -> r_car_id r = car_id car ->
             Fleet.blocks today r = false) ->
  exists flash fl' d,
    Fleet.defleet_car today cid st fl = (Redirected "list_cars", flash, fl')
    /\ Fleet.defleet_record fl' car = Some d
    /\ flash <> Some Fleet.CannotDefleet.
Proof.
  intros Hcar Hfree.
  assert (existsb (Fleet.blocks today) (rentals_of_car st (car_id car)) = false)
    as Hnb.
  { destruct (existsb _ _) eqn:E; [|reflexivity].
    apply existsb_exists in E as (r & Hin & Hb).
    apply filter_In in Hin as [Hin Hc]. apply Z.eqb_eq in Hc.
    rewrite (Hfree r Hin Hc) in Hb. discriminate. }
  rewrite (defleet_free st fl today cid car Hcar Hnb).
  destruct (Fleet.defleet_record fl car) as [d|] eqn:Erec.
  - exists None, fl, d. split; [reflexivity|]. split; [exact Erec|discriminate].
  - eexists. eexists. eexists. split; [reflexivity|]. split; [|discriminate].
    unfold Fleet.defleet_record in *. simpl.
    rewrite find_snoc, Erec. simpl. rewrite Z.eqb_refl. reflexivity.
Qed.

End SettleThenDefleet.

(** X16. A car whose only blocking rental is a given unsettled rental
    cannot be defleeted; once that rental has been settled, the same
    request goes through and the car has a defleet record. *)
Theorem settle_then_defleet st fl (today : date) rid rental c car :
  get_rental st rid = Some rental ->
  rental_customer st rental = Some c ->
  get_car st (r_car_id rental) = Some car ->
  r_deposit_refunded rental = false ->
  Spec.le_end today (r_end_date rental) ->
  (forall r, In r (rentals st) -> r_car_id r = r_car_id rental ->
             r_id r <> rid ->
             r_deposit_refunded r = true
             \/ exists e, r_end_date r = Some e /\ e < today) ->
  Fleet.defleet_car today (r_car_id rental) st fl
  = (Redirected "list_cars", Some Fleet.CannotDefleet, fl)
  /\ exists st' flash fl' d,
      Settle.settle_rental today POST rid st = (Redirected "list_rentals", st')
      /\ Fleet.defleet_car today (r_car_id rental) st' fl
         = (Redirected "list_cars", flash, fl')
      /\ Fleet.defleet_record fl' car = Some d
      /\ flash <> Some Fleet.CannotDefleet.
Proof.
  intros Hr Hc Hcar Hu He Hothers.
  assert (car_id car = r_car_id rental) as Ecar.
  { unfold get_car in Hcar. apply find_some in Hcar as [_ H].
    apply Z.eqb_eq. exact H. }
  pose proof (get_rental_id st rid rental Hr) as Eid.
  split.
  - apply (defleet_blocked st fl today _ car Hcar).
    apply (blocked_iff st today car). exists rental.
    split; [apply (get_rental_In st rid); exact Hr|]. auto.
  - eexists.
    destruct (defleet_succeeds
                (Settle.commit today rental c (Settle.refundable st rental c) st)
                fl today (r_car_id rental) car Hcar)
      as (flash & fl' & d & Hd & Hrec & Hflash).
    + intros r' Hin' Hc'. simpl in Hin'.
      apply in_map_iff in Hin' as (r & <- & Hin).
      destruct (r_id r =? r_id rental) eqn:E.
      * reflexivity.
      * apply Z.eqb_neq in E.
        destruct (Fleet.blocks today r) eqn:Hb; [|reflexivity].
        apply blocks_spec in Hb as [Hb1 Hb2].
        destruct (Hothers r Hin) as [H|(e & He' & Hlt)]; try congruence.
        rewrite He' in Hb2. simpl in Hb2. lia.
    + exists flash, fl', d.
      split; [exact (settle_commit st today rid rental c Hr Hc)|].
      split; [exact Hd|]. split; [exact Hrec|exact Hflash].
Qed.

Lemma settle_then_defleet_witness :
  Fleet.defleet_car (ymd2ord 2024 3 1) 1 Examples.open_and_fixed Examples.no_tables
  = (Redirected "list_cars", Some Fleet.CannotDefleet, Examples.no_tables)
  /\ exists st' flash fl' d,
      Settle.settle_rental (ymd2ord 2024 3 1) POST 1 Examples.open_and_fixed
      = (Redirected "list_rentals", st')
      /\ Fleet.defleet_car (ymd2ord 2024 3 1) 1 st' Examples.no_tables
         = (Redirected "list_cars", flash, fl')
      /\ Fleet.defleet_record fl' Scenario.car1 = Some d.
Proof.
  destruct (settle_then_defleet Examples.open_and_fixed Examples.no_tables
              (ymd2ord 2024 3 1) 1
              (Scenario.rental 1 1 1 (ymd2ord 2024 1 1) None
                               (Some 3000%Q) (Some 5000%Q))
              Scenario.alice Scenario.car1 eq_refl eq_refl eq_refl eq_refl I)
    as (H1 & st' & flash & fl' & d & H2 & H3 & H4 & _).
  - intros r [<-|[<-|[]]] Hc Hid; [exfalso; apply Hid; reflexivity|].
    discriminate Hc.
  - split; [exact H1|]. exists st', flash, fl', d. repeat split; assumption.
Defined.

(** * Sorting *)

Section SortFacts.

Context {A : Type}.
Variable key : A -> Z.

Lemma insert_by_perm (x : A) (l : list A) :
  Permutation (insert_by key x l) (x :: l).
Proof.
  induction l as [|y l IH]; simpl; [reflexivity|].
  destruct (key x <=? key y); [reflexivity|].
  rewrite IH. apply perm_swap.
Qed.

Lemma sort_by_perm (l : list A) : Permutation (sort_by key l) l.
Proof.
  induction l as [|x l IH]; simpl; [reflexivity|].
  rewrite insert_by_perm. constructor. exact IH.
Qed.

Lemma sort_by_In (l : list A) (x : A) : In x (sort_by key l) <-> In x l.
Proof.
  split; apply Permutation_in; [|symmetry]; apply sort_by_perm.
Qed.


Lemma insert_by_sorted (x : A) (l : list A) :
  StronglySorted (key_le key) l -> StronglySorted (key_le key) (insert_by key x l).
Proof.
  induction 1 as [|y l Hl IH Hy]; simpl.
  - constructor; constructor.
  - destruct (Z.leb_spec (key x) (key y)).
    + constructor; [constructor; assumption|].
      constructor; [exact H|].
      eapply Forall_impl; [|exact Hy]. unfold key_le. intros a Ha. lia.
    + constructor; [exact IH|].
      eapply Permutation_Forall; [symmetry; apply insert_by_perm|].
      constructor; [unfold key_le; lia|exact Hy].
Qed.

Lemma sort_by_sorted (l : list A) : StronglySorted (key_le key) (sort_by key l).
Proof.
  induction l as [|x l IH]; simpl; [constructor|].
  apply insert_by_sorted. exact IH.
Qed.

(** The value a loop of the shape [for x in l: v = f(x)] leaves in [v]
    when [l] is sorted: that of an element with the largest key. *)
Lemma last_of_sorted {B} (f : A -> B) (l : list A) (init : option B) :
  StronglySorted (key_le key) l ->
  match fold_left (fun _ x => Some (f x)) l init with
  | None => l = [] /\ init = None
  | Some v =>
      (l = [] /\ init = Some v)
      \/ exists x, In x l /\ v = f x /\ forall y, In y l -> key y <= key x
  end.
Proof.
  intros Hs. revert init. induction Hs as [|x l Hl IH Hx]; intros init; simpl.
  - destruct init; auto.
  - specialize (IH (Some (f x))).
    destruct (fold_left _ l (Some (f x))) as [v|].
    + right. destruct IH as [[-> Hv]|(z & Hz & Hv & Hmax)].
      * injection Hv as <-. exists x. split; [left; reflexivity|].
        split; [reflexivity|]. intros y [<-|[]]. lia.
      * exists z. split; [right; exact Hz|]. split; [exact Hv|].
        intros y [<-|Hy]; [|apply Hmax; exact Hy].
        rewrite Forall_forall in Hx. apply (Hx z Hz).
    + destruct IH as [_ H]. discriminate.
Qed.

End SortFacts.

(** * The dashboard *)

Section DashboardFacts.

Lemma count_length {A} (p : A -> bool) (l : list A) :
  Dashboard.count p l = Z.of_nat (List.length (filter p l)).
Proof.
  unfold Dashboard.count.
  assert (forall acc,
             fold_left (fun acc x => if p x then acc + 1 else acc) l acc
             = acc + Z.of_nat (List.length (filter p l))) as H.
  { induction l as [|x l IH]; intros acc; simpl; [lia|].
    rewrite IH. destruct (p x); simpl List.length; lia. }
  rewrite H. lia.
Qed.

Lemma three_way_split {A} (p q : A -> bool) (l : list A) :
  (List.length (filter p l)
   + List.length (filter (fun x => negb (p x) && q x) l)
   + List.length (filter (fun x => negb (p x) && negb (q x)) l)
   = List.length l)%nat.
Proof.
  induction l as [|x l IH]; simpl; [reflexivity|].
  destruct (p x), (q x); simpl; lia.
Qed.

Lemma last_payment_date_spec (ps : list Payment) :
  match Dashboard.last_payment_date ps with
  | None => ps = []
  | Some d =>
      exists p, In p ps /\ d = p_date p
                /\ forall q, In q ps -> p_date q <= p_date p
  end.
Proof.
  unfold Dashboard.last_payment_date.
  pose proof (last_of_sorted p_date p_date (sort_by p_date ps) None
                             (sort_by_sorted p_date ps)) as H.
  destruct (fold_left _ (sort_by p_date ps) None) as [d|].
  - destruct H as [[_ H]|(p & Hp & Hd & Hmax)]; [discriminate|].
    exists p. split; [apply (sort_by_In p_date); exact Hp|].
    split; [exact Hd|]. intros q Hq. apply Hmax.
    apply (sort_by_In p_date). exact Hq.
  - destruct H as [H _]. destruct ps as [|p ps]; [reflexivity|].
    assert (In p (sort_by p_date (p :: ps))) as Hin
        by (apply (sort_by_In p_date); left; reflexivity).
    rewrite H in Hin. destruct Hin.
Qed.

End DashboardFacts.

(** X17. The three counters of the dashboard are the numbers of cars that
    are rented today, booked but not rented today, and neither: the number
    of available cars, computed by subtraction, counts exactly the cars
    that are neither rented nor booked, is never negative, and the three
    add up to the number of cars. *)
Theorem dashboard_counters st (today : date) :
  Dashboard.rented_count st today
  = Z.of_nat (List.length
                (filter (fun c => Occupancy.is_rented_today st c today) (cars st)))
  /\ Dashboard.booked_count st today
     = Z.of_nat (List.length
                   (filter (fun c => negb (Occupancy.is_rented_today st c today)
                                     && Occupancy.is_booked_today st c today)
                           (cars st)))
  /\ Dashboard.available_count st today
     = Z.of_nat (List.length
                   (filter (fun c => negb (Occupancy.is_rented_today st c today)
                                     && negb (Occupancy.is_booked_today st c today))
                           (cars st)))
  /\ 0 <= Dashboard.available_count st today
  /\ Dashboard.rented_count st today + Dashboard.booked_count st today
     + Dashboard.available_count st today
     = Dashboard.total_cars st.
Proof.
  unfold Dashboard.available_count, Dashboard.rented_count,
    Dashboard.booked_count, Dashboard.total_cars.
  rewrite !count_length.
  pose proof (three_way_split (fun c => Occupancy.is_rented_today st c today)
                              (fun c => Occupancy.is_booked_today st c today)
                              (cars st)) as H.
  cbv beta in H. repeat split; lia.
Qed.

(** X18. A rental is listed as overdue on the dashboard exactly when it is
    open ended or ends today or later and every payment recorded on it is
    more than 30 days old; a rental without any payment is overdue from
    its first day (and before it, since the start date is not looked at),
    and so is a settled rental whose end date has not passed. *)
Theorem overdue_rentals_spec st (today : date) r :
  In r (Dashboard.overdue_rentals st today)
  <-> In r (rentals st)
      /\ Spec.le_end today (r_end_date r)
      /\ forall p, In p (payments st) -> p_rental_id p = r_id r ->
                   30 < today - p_date p.
Proof.
  unfold Dashboard.overdue_rentals. rewrite filter_In.
  unfold Dashboard.overdue. rewrite andb_true_iff.
  assert ((match r_end_date r with
           | Some e => today <=? e
           | None => true
           end = true) <-> Spec.le_end today (r_end_date r)) as Hend.
  { unfold Spec.le_end. destruct (r_end_date r); [apply Z.leb_le|tauto]. }
  rewrite Hend.
  assert (match Dashboard.last_payment_date (rental_payments st r) with
          | Some d => 30 <? days_between today d
          | None => true
          end = true
          <-> forall p, In p (payments st) -> p_rental_id p = r_id r ->
                        30 < today - p_date p) as Hpay.
  { pose proof (last_payment_date_spec (rental_payments st r)) as H.
    destruct (Dashboard.last_payment_date (rental_payments st r)) as [d|].
    - destruct H as (p & Hp & -> & Hmax). unfold days_between.
      rewrite Z.ltb_lt. split.
      + intros Hlt q Hq Hrid.
        assert (In q (rental_payments st r)) as Hq'.
        { apply filter_In. split; [exact Hq|]. apply Z.eqb_eq. exact Hrid. }
        specialize (Hmax q Hq'). lia.
      + intros Hall. apply filter_In in Hp as [Hp Hrid].
        apply Z.eqb_eq in Hrid. apply (Hall p Hp Hrid).
    - split; [|reflexivity]. intros _ p Hp Hrid.
      assert (In p (rental_payments st r)) as Hp'.
      { apply filter_In. split; [exact Hp|]. apply Z.eqb_eq. exact Hrid. }
      rewrite H in Hp'. destruct Hp'. }
  rewrite Hpay. tauto.
Qed.

(** * The two lists of rentals *)

(** X19. Every stored rental is on exactly one of the two lists, the list
    of rentals or the list of settled rentals, and the first is in the
    order of the start dates. Settling a rental puts it on the list of
    settled rentals, takes it off the list of rentals, and moves no other
    rental. *)
Theorem settlement_moves_rental st (today : date) rid rental c :
  get_rental st rid = Some rental ->
  rental_customer st rental = Some c ->
  (forall r, In r (rentals st)
             <-> (In r (Listing.list_rentals st)
                  \/ In r (Listing.list_settled_rentals st)))
  /\ (forall r, ~ (In r (Listing.list_rentals st)
                   /\ In r (Listing.list_settled_rentals st)))
  /\ StronglySorted (key_le r_start_date) (Listing.list_rentals st)
  /\ exists st' rental',
      Settle.settle_rental today POST rid st = (Redirected "list_rentals", st')
      /\ get_rental st' rid = Some rental'
      /\ In rental' (Listing.list_settled_rentals st')
      /\ (forall r, In r (Listing.list_rentals st') -> r_id r <> rid)
      /\ (forall r, r_id r <> rid ->
                    (In r (Listing.list_rentals st')
                     <-> In r (Listing.list_rentals st))
                    /\ (In r (Listing.list_settled_rentals st')
                        <-> In r (Listing.list_settled_rentals st))).
Proof.
  intros Hr Hc.
  assert (forall s r, In r (Listing.list_rentals s)
                      <-> In r (rentals s) /\ r_deposit_refunded r = false) as Hlist.
  { intros s r. unfold Listing.list_rentals.
    rewrite (sort_by_In r_start_date), filter_In, negb_true_iff. tauto. }
  assert (forall s r, In r (Listing.list_settled_rentals s)
                      <-> In r (rentals s) /\ r_deposit_refunded r = true) as Hset.
  { intros s r. unfold Listing.list_settled_rentals. apply filter_In. }
  split; [|split; [|split]].
  - intros r. rewrite Hlist, Hset. destruct (r_deposit_refunded r); tauto.
  - intros r. rewrite Hlist, Hset. intros [[_ H1] [_ H2]]. congruence.
  - apply sort_by_sorted.
  - pose proof (get_rental_id st rid rental Hr) as Eid.
    eexists. eexists.
    split; [exact (settle_commit st today rid rental c Hr Hc)|].
    split; [apply commit_rental; assumption|].
    assert (forall r,
               In r (rentals (Settle.commit today rental c
                                (Settle.refundable st rental c) st))
               <-> exists r0, In r0 (rentals st)
                              /\ r = (if r_id r0 =? rid
                                      then Settle.close_rental today
                                             (Settle.refundable st rental c) r0
                                      else r0)) as Hin.
    { intros r. simpl. rewrite in_map_iff, Eid.
      split; intros (r0 & H1 & H2); exists r0; auto. }
    split; [|split].
    + apply Hset. split; [|reflexivity]. apply Hin. exists rental.
      split; [apply (get_rental_In st rid); exact Hr|].
      rewrite Eid, Z.eqb_refl. reflexivity.
    + intros r Hl. apply Hlist in Hl as [Hl Hu]. apply Hin in Hl as (r0 & _ & ->).
      destruct (r_id r0 =? rid) eqn:E; [discriminate Hu|].
      apply Z.eqb_neq. exact E.
    + intros r Hid.
      assert (In r (rentals (Settle.commit today rental c
                               (Settle.refundable st rental c) st))
              <-> In r (rentals st)) as Hsame.
      { rewrite Hin. split.
        - intros (r0 & H0 & ->). destruct (r_id r0 =? rid) eqn:E; [|exact H0].
          apply Z.eqb_eq in E. simpl in Hid. contradiction.
        - intros H0. exists r. split; [exact H0|].
          apply Z.eqb_neq in Hid. rewrite Hid. reflexivity. }
      rewrite !Hlist, !Hset, Hsame. tauto.
Qed.

Lemma settlement_moves_rental_witness :
  exists st' rental',
    Settle.settle_rental (ymd2ord 2024 3 1) POST 1 Examples.open_and_fixed
    = (Redirected "list_rentals", st')
    /\ In rental' (Listing.list_settled_rentals st')
    /\ r_id rental' = 1
    /\ map r_id (Listing.list_rentals st') = [2].
Proof.
  destruct (settlement_moves_rental Examples.open_and_fixed (ymd2ord 2024 3 1) 1
              (Scenario.rental 1 1 1 (ymd2ord 2024 1 1) None
                               (Some 3000%Q) (Some 5000%Q))
              Scenario.alice eq_refl eq_refl)
    as (_ & _ & _ & st' & rental' & H1 & H2 & H3 & _).
  exists st', rental'. split; [exact H1|]. split; [exact H3|].
  assert (st' = snd (Settle.settle_rental (ymd2ord 2024 3 1) POST 1
                       Examples.open_and_fixed)) as E
      by (rewrite H1; reflexivity).
  split.
  - apply (get_rental_id st' 1). exact H2.
  - rewrite E. reflexivity.
Defined.

(** * The day counts of the report *)

Section SpanFacts.

Lemma ForallOrdPairs_filter {A} (R : A -> A -> Prop) (p : A -> bool) (l : list A) :
  ForallOrdPairs R l -> ForallOrdPairs R (filter p l).
Proof.
  induction 1 as [|a l Ha Hl IH]; simpl; [constructor|].
  destruct (p a); [|exact IH]. constructor; [|exact IH].
  apply Forall_forall. intros x Hx. apply filter_In in Hx as [Hx _].
  rewrite Forall_forall in Ha. apply Ha. exact Hx.
Qed.

Lemma ForallOrdPairs_map {A B} (R : B -> B -> Prop) (g : A -> B) (l : list A) :
  ForallOrdPairs (fun a b => R (g a) (g b)) l -> ForallOrdPairs R (map g l).
Proof.
  induction 1 as [|a l Ha Hl IH]; simpl; constructor; [|exact IH].
  apply Forall_map. exact Ha.
Qed.

Lemma ForallOrdPairs_impl {A} (R S : A -> A -> Prop) (l : list A) :
  (forall a b, In a l -> In b l -> R a b -> S a b) ->
  ForallOrdPairs R l -> ForallOrdPairs S l.
Proof.
  intros H Hl. induction Hl as [|a l Ha Hl IH]; constructor.
  - apply Forall_forall. intros x Hx. rewrite Forall_forall in Ha.
    apply H; [left; reflexivity|right; exact Hx|apply Ha; exact Hx].
  - apply IH. intros x y Hx Hy. apply H; right; assumption.
Qed.

Lemma total_len_split (p : Z * Z -> bool) (l : list (Z * Z)) :
  Spans.total_len l
  = Spans.total_len (filter p l)
    + Spans.total_len (filter (fun x => negb (p x)) l).
Proof.
  induction l as [|x l IH]; simpl; [reflexivity|].
  destruct (p x); simpl; lia.
Qed.

(** Ranges of days that lie between [lo] and [hi] and are pairwise apart
    hold no more days than there are from [lo] to [hi]. *)
Lemma packing (n : nat) :
  forall (l : list (Z * Z)) (lo hi : Z),
    (List.length l <= n)%nat ->
    lo <= hi + 1 ->
    (forall p, In p l -> lo <= fst p /\ fst p <= snd p /\ snd p <= hi) ->
    ForallOrdPairs Spans.apart l ->
    Spans.total_len l <= hi - lo + 1.
Proof.
  induction n as [|n IH]; intros l lo hi Hlen Hlohi Hin Hap.
  - destruct l; [simpl; lia|simpl in Hlen; lia].
  - destruct l as [|[s e] l]; [simpl; lia|].
    simpl in Hlen. inversion Hap as [|? ? Hx Hl]; subst.
    destruct (Hin (s, e) (or_introl eq_refl)) as (Hs & Hse & He). simpl in *.
    rewrite (total_len_split (fun q => snd q <? s) l).
    assert (Spans.total_len (filter (fun q => snd q <? s) l) <= (s - 1) - lo + 1)
      as Hleft.
    { apply IH.
      - pose proof (filter_length_le (fun q => snd q <? s) l). lia.
      - lia.
      - intros q Hq. apply filter_In in Hq as [Hq Hlt]. apply Z.ltb_lt in Hlt.
        destruct (Hin q (or_intror Hq)) as (H1 & H2 & H3). lia.
      - apply ForallOrdPairs_filter. exact Hl. }
    assert (Spans.total_len (filter (fun q => negb (snd q <? s)) l)
            <= hi - (e + 1) + 1) as Hright.
    { apply IH.
      - pose proof (filter_length_le (fun q => negb (snd q <? s)) l). lia.
      - lia.
      - intros q Hq. apply filter_In in Hq as [Hq Hge].
        apply negb_true_iff, Z.ltb_ge in Hge.
        destruct (Hin q (or_intror Hq)) as (H1 & H2 & H3).
        rewrite Forall_forall in Hx. specialize (Hx q Hq).
        unfold Spans.apart in Hx. simpl in Hx. lia.
      - apply ForallOrdPairs_filter. exact Hl. }
    unfold Spans.span_len. simpl. lia.
Qed.

Lemma days_rented_total (today : date) (rs : list Rental) :
  Reports.days_rented today rs = Spans.total_len (map (Spans.span today) rs).
Proof.
  unfold Reports.days_rented.
  assert (forall acc,
             fold_left (fun acc r =>
                          let e := match r_end_date r with
                                   | Some e => e
                                   | None => today
                                   end in
                          acc + (days_between e (r_start_date r) + 1)) rs acc
             = acc + Spans.total_len (map (Spans.span today) rs)) as H.
  { induction rs as [|r rs IH]; intros acc; simpl; [lia|].
    rewrite IH. unfold Spans.span_len, Spans.span, days_between. simpl. lia. }
  rewrite H. lia.
Qed.

Lemma fold_min_le (ds : list Z) (d : Z) :
  fold_left Z.min ds d <= d
  /\ forall x, In x ds -> fold_left Z.min ds d <= x.
Proof.
  revert d. induction ds as [|y ds IH]; intros d; simpl.
  - split; [lia|tauto].
  - destruct (IH (Z.min d y)) as [H1 H2]. split; [lia|].
    intros x [<-|Hx]; [lia|apply H2; exact Hx].
Qed.

Lemma earliest_le (today : date) (rs : list Rental) (r : Rental) :
  In r rs -> Reports.earliest today rs <= r_start_date r.
Proof.
  unfold Reports.earliest. destruct rs as [|r0 rs]; [intros []|].
  simpl. intros [<-|Hin].
  - apply (proj1 (fold_min_le _ _)).
  - apply (proj2 (fold_min_le _ _)). apply in_map. exact Hin.
Qed.

Lemma clash_free_apart (today : date) (a b : Rental) :
  r_car_id a = r_car_id b ->
  ~ Invariant.clash a b ->
  Spans.apart (Spans.span today a) (Spans.span today b).
Proof.
  intros Hcar Hno. unfold Spans.apart, Spans.span. simpl.
  unfold Invariant.clash, Spec.ranges_overlap, Spec.le_end in Hno.
  destruct (r_end_date a) as [ea|], (r_end_date b) as [eb|].
  - destruct (Z_lt_dec ea (r_start_date b)) as [H|H]; [left; exact H|].
    destruct (Z_lt_dec eb (r_start_date a)) as [H'|H']; [right; exact H'|].
    exfalso. apply Hno. split; [exact Hcar|]. split; lia.
  - left. destruct (Z_lt_dec ea (r_start_date b)) as [H|H]; [exact H|].
    exfalso. apply Hno. split; [exact Hcar|]. split; [exact I|lia].
  - right. destruct (Z_lt_dec eb (r_start_date a)) as [H|H]; [exact H|].
    exfalso. apply Hno. split; [exact Hcar|]. split; [lia|exact I].
  - exfalso. apply Hno. split; [exact Hcar|]. split; exact I.
Qed.

End SpanFacts.

(** X20. For a car whose rentals do not clash, have all started by today
    and end, when they have an end date, between their start date and
    today, the days rented counted by the report are never more than the
    days of the period from the earliest start date to today: the
    utilisation cannot exceed 100%. *)
Theorem days_rented_bounded st (today : date) c :
  Invariant.no_overlap (rentals st) ->
  (forall r, In r (rentals st) -> r_car_id r = car_id c ->
             r_start_date r <= today
             /\ forall e, r_end_date r = Some e -> r_start_date r <= e <= today) ->
  0 <= Reports.days_rented today (rentals_of_car st (car_id c))
    <= Reports.total_period today (rentals_of_car st (car_id c)).
Proof.
  intros Hinv Hsane.
  assert (ForallOrdPairs (fun a b => ~ Invariant.clash a b)
                         (rentals_of_car st (car_id c))) as Hinv'
      by (apply ForallOrdPairs_filter; exact Hinv).
  assert (forall r, In r (rentals_of_car st (car_id c)) ->
                    r_car_id r = car_id c
                    /\ r_start_date r <= today
                    /\ r_start_date r <= snd (Spans.span today r)
                    /\ snd (Spans.span today r) <= today) as Hrs.
  { intros r Hr. apply filter_In in Hr as [Hr Hc]. apply Z.eqb_eq in Hc.
    destruct (Hsane r Hr Hc) as [Hs He]. unfold Spans.span. simpl.
    destruct (r_end_date r) as [e|]; [specialize (He e eq_refl)|]; lia. }
  clear Hsane Hinv. revert Hinv' Hrs.
  generalize (rentals_of_car st (car_id c)). intros rs Hinv' Hrs.
  rewrite days_rented_total.
  assert (0 <= Spans.total_len (map (Spans.span today) rs)) as Hpos.
  { clear - Hrs. induction rs as [|r rs IH]; simpl; [lia|].
    assert (0 <= Spans.total_len (map (Spans.span today) rs)) as H
        by (apply IH; intros x Hx; apply Hrs; right; exact Hx).
    destruct (Hrs r (or_introl eq_refl)) as (_ & _ & H1 & _).
    unfold Spans.span_len. simpl in *. lia. }
  split; [exact Hpos|].
  unfold Reports.total_period, days_between.
  destruct rs as [|r0 rs'] eqn:Ers.
  { unfold Reports.earliest. simpl.
    destruct (Z.ltb_spec (today - today + 1) 1); lia. }
  rewrite <- Ers in *.
  assert (Reports.earliest today rs <= today) as Hearly.
  { pose proof (earliest_le today rs r0) as H.
    destruct (Hrs r0) as (_ & H0 & _); [rewrite Ers; left; reflexivity|].
    assert (In r0 rs) as Hin by (rewrite Ers; left; reflexivity).
    specialize (H Hin). lia. }
  assert (Spans.total_len (map (Spans.span today) rs)
          <= today - Reports.earliest today rs + 1) as Hpack.
  { apply (packing (List.length (map (Spans.span today) rs))).
    - lia.
    - lia.
    - intros p Hp. apply in_map_iff in Hp as (r & <- & Hr).
      destruct (Hrs r Hr) as (_ & _ & H1 & H2).
      pose proof (earliest_le today rs r Hr). simpl in *. lia.
    - apply ForallOrdPairs_map.
      apply (ForallOrdPairs_impl (fun a b => ~ Invariant.clash a b)).
      + intros a b Ha Hb. apply clash_free_apart.
        destruct (Hrs a Ha) as [-> _]. destruct (Hrs b Hb) as [-> _].
        reflexivity.
      + exact Hinv'. }
  destruct (Z.ltb_spec (today - Reports.earliest today rs + 1) 1); lia.
Qed.

Lemma days_rented_bounded_witness :
  Invariant.no_overlap (rentals Scenario.two_rentals)
  /\ 0 <= Reports.days_rented (ymd2ord 2024 2 1)
            (rentals_of_car Scenario.two_rentals 1)
       <= Reports.total_period (ymd2ord 2024 2 1)
            (rentals_of_car Scenario.two_rentals 1)
  /\ Reports.days_rented (ymd2ord 2024 2 1)
       (rentals_of_car Scenario.two_rentals 1) = 20
  /\ Reports.total_period (ymd2ord 2024 2 1)
       (rentals_of_car Scenario.two_rentals 1) = 32.
Proof.
  assert (Invariant.no_overlap (rentals Scenario.two_rentals)) as H.
  { unfold Invariant.no_overlap. vm_compute rentals.
    constructor; [|constructor; constructor].
    constructor; [|constructor].
    intros [_ [_ H]]. vm_compute in H. apply H. reflexivity. }
  split; [exact H|]. split; [|split; reflexivity].
  apply (days_rented_bounded Scenario.two_rentals (ymd2ord 2024 2 1)
                             Scenario.car1 H).
  intros r [<-|[<-|[]]] _; (split; [vm_compute; discriminate|]);
    intros e He; injection He as <-; split; vm_compute; discriminate.
Defined.

(** * The order of the cars *)

Section EnumerateFacts.

Context {A : Type}.

Lemma enumerate_fst (k : Z) (l : list A) :
  map fst (Fleet.enumerate k l)
  = map (fun i => k + Z.of_nat i) (seq 0 (List.length l)).
Proof.
  revert k. induction l as [|x l IH]; intros k; simpl; [reflexivity|].
  f_equal; [lia|]. rewrite IH, <- seq_shift, map_map.
  apply map_ext. intros i. lia.
Qed.

Lemma enumerate_snd (k : Z) (l : list A) : map snd (Fleet.enumerate k l) = l.
Proof.
  revert k. induction l as [|x l IH]; intros k; simpl; [reflexivity|].
  f_equal. apply IH.
Qed.

Lemma enumerate_In (k : Z) (l : list A) (i : Z) (x : A) :
  In (i, x) (Fleet.enumerate k l) -> k <= i /\ In x l.
Proof.
  revert k. induction l as [|y l IH]; intros k; simpl; [tauto|].
  intros [H|H].
  - injection H as <- <-. split; [lia|left; reflexivity].
  - apply IH in H. split; [lia|right; tauto].
Qed.

(** In a list enumerated in the order of a key, a smaller key has a
    smaller number. *)
Lemma enumerate_sorted (key : A -> Z) (k : Z) (l : list A) (i j : Z) (a b : A) :
  StronglySorted (key_le key) l ->
  In (i, a) (Fleet.enumerate k l) -> In (j, b) (Fleet.enumerate k l) ->
  key a < key b -> i < j.
Proof.
  intros Hs. revert k. induction Hs as [|x l Hl IH Hx]; intros k; simpl;
    [tauto|].
  intros [Ha|Ha] [Hb|Hb] Hlt.
  - injection Ha as <- <-. injection Hb as <- <-. lia.
  - injection Ha as <- <-. apply enumerate_In in Hb. lia.
  - injection Hb as <- <-. apply enumerate_In in Ha as [_ Ha].
    rewrite Forall_forall in Hx. specialize (Hx a Ha). unfold key_le in Hx. lia.
  - apply (IH (k + 1)); assumption.
Qed.

Lemma enumerate_value (g : A -> Z) (k : Z) (l : list A) (i : Z) (x : A) :
  map g l = map fst (Fleet.enumerate k l) ->
  In (i, x) (Fleet.enumerate k l) -> g x = i.
Proof.
  revert k. induction l as [|y l IH]; intros k; simpl; [tauto|].
  intros H [Hin|Hin].
  - injection Hin as <- <-. injection H as H _. exact H.
  - injection H as _ H. apply (IH (k + 1)); assumption.
Qed.

End EnumerateFacts.

Section OrderFacts.

Import Fleet.

(** The numbers the second loop hands out, as a function of the row. *)
Lemma assign_fold (ics : list (Z * CarOrder)) (os : list CarOrder) :
  NoDup (map (fun ic => co_id (snd ic)) ics) ->
  fold_left
    (fun acc ic =>
       map (fun o => if co_id o =? co_id (snd ic)
                     then set_index o (fst ic) else o) acc) ics os
  = map (fun o =>
           match find (fun ic => co_id (snd ic) =? co_id o) ics with
           | Some ic => set_index o (fst ic)
           | None => o
           end) os.
Proof.
  revert os. induction ics as [|ic ics IH]; intros os Hnd; simpl.
  - symmetry. apply map_id.
  - inversion Hnd as [|? ? Hnotin Hnd']; subst.
    rewrite IH by exact Hnd'. rewrite map_map. apply map_ext. intros o.
    rewrite (Z.eqb_sym (co_id (snd ic)) (co_id o)).
    destruct (co_id o =? co_id (snd ic)) eqn:E; [|reflexivity].
    apply Z.eqb_eq in E. simpl.
    destruct (find (fun ic0 => co_id (snd ic0) =? co_id o) ics) as [ic'|] eqn:F;
      [|reflexivity].
    exfalso. apply Hnotin. apply find_some in F as [Hin Hid].
    apply Z.eqb_eq in Hid. rewrite <- E, <- Hid.
    apply (in_map (fun ic0 => co_id (snd ic0))). exact Hin.
Qed.

Lemma find_enumerate (k : Z) (l : list CarOrder) :
  NoDup (map co_id l) ->
  map (fun o => find (fun ic => co_id (snd ic) =? co_id o) (enumerate k l)) l
  = map Some (enumerate k l).
Proof.
  revert k. induction l as [|x l IH]; intros k Hnd; simpl; [reflexivity|].
  inversion Hnd as [|? ? Hnotin Hnd']; subst.
  rewrite Z.eqb_refl. f_equal. rewrite <- (IH (k + 1) Hnd').
  apply map_ext_in. intros o Ho.
  destruct (co_id x =? co_id o) eqn:E; [|reflexivity].
  apply Z.eqb_eq in E. exfalso. apply Hnotin. rewrite E.
  apply in_map. exact Ho.
Qed.

Lemma find_enumerate_In (k : Z) (l : list CarOrder) (o : CarOrder) :
  NoDup (map co_id l) -> In o l ->
  exists i, find (fun ic => co_id (snd ic) =? co_id o) (enumerate k l) = Some (i, o)
            /\ In (i, o) (enumerate k l).
Proof.
  revert k. induction l as [|x l IH]; intros k Hnd Hin; simpl; [destruct Hin|].
  inversion Hnd as [|? ? Hnotin Hnd']; subst.
  destruct Hin as [->|Hin].
  - rewrite Z.eqb_refl. exists k. split; [reflexivity|left; reflexivity].
  - destruct (co_id x =? co_id o) eqn:E.
    + apply Z.eqb_eq in E. exfalso. apply Hnotin. rewrite E.
      apply in_map. exact Hin.
    + destruct (IH (k + 1) Hnd' Hin) as (i & Hf & Hi).
      exists i. split; [exact Hf|right; exact Hi].
Qed.

Lemma normalise_map (os : list CarOrder) :
  NoDup (map co_id os) ->
  normalise os
  = map (fun o =>
           match find (fun ic => co_id (snd ic) =? co_id o)
                      (enumerate 1 (sort_by co_order_index os)) with
           | Some ic => set_index o (fst ic)
           | None => o
           end) os.
Proof.
  intros Hnd. unfold normalise. apply assign_fold.
  rewrite <- (map_map snd co_id), enumerate_snd.
  eapply Permutation_NoDup; [|exact Hnd].
  apply Permutation_map. symmetry. apply sort_by_perm.
Qed.

Lemma normalise_ids (os : list CarOrder) :
  NoDup (map co_id os) ->
  map co_id (normalise os) = map co_id os
  /\ map co_car_id (normalise os) = map co_car_id os.
Proof.
  intros Hnd. rewrite (normalise_map os Hnd), !map_map.
  split; apply map_ext; intros o; destruct (find _ _); reflexivity.
Qed.

(** Every row receives the number of its place in the order of the
    indices. *)
Lemma normalise_row (os : list CarOrder) (o : CarOrder) :
  NoDup (map co_id os) -> In o os ->
  exists i,
    In (i, o) (enumerate 1 (sort_by co_order_index os))
    /\ In (set_index o i) (normalise os).
Proof.
  intros Hnd Hin.
  assert (NoDup (map co_id (sort_by co_order_index os))) as Hnd'.
  { eapply Permutation_NoDup; [|exact Hnd].
    apply Permutation_map. symmetry. apply sort_by_perm. }
  destruct (find_enumerate_In 1 (sort_by co_order_index os) o Hnd')
    as (i & Hf & Hi).
  { apply (sort_by_In co_order_index). exact Hin. }
  exists i. split; [exact Hi|].
  rewrite (normalise_map os Hnd). apply in_map_iff. exists o.
  rewrite Hf. split; [reflexivity|exact Hin].
Qed.

Lemma normalise_indices (os : list CarOrder) :
  NoDup (map co_id os) ->
  Permutation (map co_order_index (normalise os))
              (map (fun i => 1 + Z.of_nat i) (seq 0 (List.length os))).
Proof.
  intros Hnd.
  assert (NoDup (map co_id (sort_by co_order_index os))) as Hnd'.
  { eapply Permutation_NoDup; [|exact Hnd].
    apply Permutation_map. symmetry. apply sort_by_perm. }
  rewrite (normalise_map os Hnd), map_map.
  rewrite <- (Permutation_length (sort_by_perm co_order_index os)).
  rewrite <- enumerate_fst.
  rewrite <- (Permutation_map _ (sort_by_perm co_order_index os)).
  match goal with
  | |- Permutation (map ?F _) _ =>
      assert (map F (sort_by co_order_index os)
              = map (fun o =>
                       match o with
                       | Some ic => fst ic
                       | None => 0
                       end)
                    (map (fun o => find (fun ic => co_id (snd ic) =? co_id o)
                                        (enumerate 1 (sort_by co_order_index os)))
                         (sort_by co_order_index os))) as E
  end.
  { rewrite map_map. apply map_ext_in. intros o Ho.
    destruct (find_enumerate_In 1 (sort_by co_order_index os) o Hnd' Ho)
      as (i & Hf & _).
    rewrite Hf. reflexivity. }
  rewrite E, (find_enumerate 1 _ Hnd'), map_map. reflexivity.
Qed.

End OrderFacts.

Section EnsureFacts.

Import Fleet.

Lemma fold_max_ge (ds : list Z) (d : Z) :
  d <= fold_left Z.max ds d
  /\ forall x, In x ds -> x <= fold_left Z.max ds d.
Proof.
  revert d. induction ds as [|y ds IH]; intros d; simpl.
  - split; [lia|tauto].
  - destruct (IH (Z.max d y)) as [H1 H2]. split; [lia|].
    intros x [<-|Hx]; [lia|apply H2; exact Hx].
Qed.

Lemma max_index_ge (os : list CarOrder) (o : CarOrder) :
  In o os -> co_order_index o <= max_index os.
Proof.
  unfold max_index. destruct os as [|o0 os]; [intros []|].
  destruct (fold_max_ge (map co_order_index os) (co_order_index o0)) as [H1 H2].
  intros [<-|Hin].
  - destruct (_ =? 0) eqn:E; [apply Z.eqb_eq in E|]; lia.
  - specialize (H2 _ (in_map co_order_index _ _ Hin)).
    destruct (_ =? 0) eqn:E; [apply Z.eqb_eq in E|]; lia.
Qed.

(** The first loop, for any set of car ids taken as existing. *)
Lemma add_missing_fold (existing : list Z) (cs : list Car) :
  forall (mx : Z) (acc : list CarOrder),
    NoDup (map co_id acc) ->
    exists rows,
      snd (fold_left
             (fun state car =>
                if existsb (Z.eqb (car_id car)) existing then state
                else
                  (fst state + 1,
                   snd state
                   ++ [{| co_id := Rentals.fresh_id (map co_id (snd state));
                          co_car_id := car_id car;
                          co_order_index := fst state + 1 |}]))
             cs (mx, acc))
      = acc ++ rows
      /\ map co_car_id rows
         = map car_id
               (filter (fun c => negb (existsb (Z.eqb (car_id c)) existing)) cs)
      /\ NoDup (map co_id (acc ++ rows))
      /\ forall o, In o rows -> mx < co_order_index o.
Proof.
  induction cs as [|c cs IH]; intros mx acc Hnd; simpl.
  - exists []. rewrite app_nil_r. repeat split; [exact Hnd|intros o []].
  - destruct (existsb (Z.eqb (car_id c)) existing) eqn:E; simpl.
    + apply IH. exact Hnd.
    + destruct (IH (mx + 1)
                   (acc ++ [{| co_id := Rentals.fresh_id (map co_id acc);
                               co_car_id := car_id c;
                               co_order_index := mx + 1 |}]))
        as (rows & H1 & H2 & H3 & H4).
      { rewrite map_app. simpl.
        eapply Permutation_NoDup; [apply Permutation_cons_append|].
        constructor; [apply fresh_id_new|exact Hnd]. }
      eexists. rewrite H1, <- app_assoc. split; [reflexivity|]. simpl.
      split; [f_equal; exact H2|]. split.
      * rewrite <- app_assoc in H3. exact H3.
      * intros o [<-|Ho]; [simpl; lia|]. specialize (H4 o Ho). lia.
Qed.

Lemma add_missing_spec (cs : list Car) (os : list CarOrder) :
  NoDup (map co_id os) ->
  exists rows,
    add_missing cs os = os ++ rows
    /\ map co_car_id rows
       = map car_id
             (filter (fun c => negb (existsb (Z.eqb (car_id c))
                                             (map co_car_id os))) cs)
    /\ NoDup (map co_id (os ++ rows))
    /\ forall o, In o rows -> max_index os < co_order_index o.
Proof. intros Hnd. apply add_missing_fold. exact Hnd. Qed.

Lemma add_missing_full (cs : list Car) (os : list CarOrder) :
  (forall c, In c cs -> In (car_id c) (map co_car_id os)) ->
  add_missing cs os = os.
Proof.
  intros Hall. unfold add_missing.
  assert (forall state,
             fold_left
               (fun state car =>
                  if existsb (Z.eqb (car_id car)) (map co_car_id os) then state
                  else
                    (fst state + 1,
                     snd state
                     ++ [{| co_id := Rentals.fresh_id (map co_id (snd state));
                            co_car_id := car_id car;
                            co_order_index := fst state + 1 |}]))
               cs state = state) as H.
  { induction cs as [|c cs IH]; intros state; simpl; [reflexivity|].
    assert (existsb (Z.eqb (car_id c)) (map co_car_id os) = true) as ->.
    { apply existsb_exists. exists (car_id c).
      split; [apply Hall; left; reflexivity|apply Z.eqb_refl]. }
    apply IH. intros c' Hc'. apply Hall. right. exact Hc'. }
  rewrite H. reflexivity.
Qed.

Lemma NoDup_map_filter {A} (g : A -> Z) (p : A -> bool) (l : list A) :
  NoDup (map g l) -> NoDup (map g (filter p l)).
Proof.
  induction l as [|x l IH]; simpl; intros Hnd; [constructor|].
  inversion Hnd as [|? ? Hn Hnd']; subst.
  destruct (p x); simpl; [|apply IH; exact Hnd'].
  constructor; [|apply IH; exact Hnd'].
  intros Hin. apply Hn. apply in_map_iff in Hin as (y & Hy & Hin).
  apply filter_In in Hin as [Hin _]. rewrite <- Hy. apply in_map. exact Hin.
Qed.

Lemma add_missing_cars (cs : list Car) (os : list CarOrder) :
  NoDup (map co_id os) ->
  NoDup (map co_car_id os) ->
  NoDup (map car_id cs) ->
  NoDup (map co_car_id (add_missing cs os))
  /\ forall c, In c cs -> In (car_id c) (map co_car_id (add_missing cs os)).
Proof.
  intros Hid Hcar Hcs.
  destruct (add_missing_spec cs os Hid) as (rows & -> & Hrows & _ & _).
  rewrite map_app, Hrows. split.
  - apply NoDup_app; [exact Hcar| |].
    + apply NoDup_map_filter. exact Hcs.
    + intros k Hk Hk'. apply in_map_iff in Hk' as (c & <- & Hc).
      apply filter_In in Hc as [_ Hc]. apply negb_true_iff in Hc.
      assert (existsb (Z.eqb (car_id c)) (map co_car_id os) = true);
        [|congruence].
      apply existsb_exists. exists (car_id c). split; [exact Hk|apply Z.eqb_refl].
  - intros c Hc. apply in_or_app.
    destruct (existsb (Z.eqb (car_id c)) (map co_car_id os)) eqn:E.
    + left. apply existsb_exists in E as (k & Hk & Hkc).
      apply Z.eqb_eq in Hkc. rewrite Hkc. exact Hk.
    + right. apply in_map. apply filter_In. split; [exact Hc|].
      rewrite E. reflexivity.
Qed.

End EnsureFacts.

(** X21. Whatever the order table held, after [ensure_car_order] the
    order indices of its rows are the numbers 1 to N, each once, every car
    has exactly one row, every row that was there is still there under its
    key and car, and the defleet records are untouched (primary keys and
    the car of a row being unique). *)
Theorem ensure_car_order_normal st fl :
  NoDup (map Fleet.co_id (Fleet.car_orders fl)) ->
  NoDup (map Fleet.co_car_id (Fleet.car_orders fl)) ->
  NoDup (map car_id (cars st)) ->
  Permutation
    (map Fleet.co_order_index (Fleet.car_orders (Fleet.ensure_car_order st fl)))
    (map (fun i => 1 + Z.of_nat i)
         (seq 0 (List.length (Fleet.car_orders (Fleet.ensure_car_order st fl)))))
  /\ (forall c, In c (cars st) ->
                In (car_id c)
                   (map Fleet.co_car_id
                        (Fleet.car_orders (Fleet.ensure_car_order st fl))))
  /\ NoDup (map Fleet.co_car_id (Fleet.car_orders (Fleet.ensure_car_order st fl)))
  /\ NoDup (map Fleet.co_id (Fleet.car_orders (Fleet.ensure_car_order st fl)))
  /\ (forall o, In o (Fleet.car_orders fl) ->
                exists i, In (Fleet.set_index o i)
                             (Fleet.car_orders (Fleet.ensure_car_order st fl)))
  /\ Fleet.defleeted (Fleet.ensure_car_order st fl) = Fleet.defleeted fl.
Proof.
  intros Hid Hcar Hcs. simpl.
  destruct (add_missing_spec (cars st) (Fleet.car_orders fl) Hid)
    as (rows & Eadd & _ & Hnd & _).
  assert (NoDup (map Fleet.co_id
                     (Fleet.add_missing (cars st) (Fleet.car_orders fl)))) as Hnd'
      by (rewrite Eadd; exact Hnd).
  destruct (normalise_ids _ Hnd') as [Eids Ecars].
  destruct (add_missing_cars (cars st) (Fleet.car_orders fl) Hid Hcar Hcs)
    as [Hnc Hall].
  split.
  { assert (List.length (Fleet.normalise
                           (Fleet.add_missing (cars st) (Fleet.car_orders fl)))
            = List.length (Fleet.add_missing (cars st) (Fleet.car_orders fl)))
      as ->.
    { rewrite <- (length_map Fleet.co_id), Eids. apply length_map. }
    apply normalise_indices. exact Hnd'. }
  split; [rewrite Ecars; exact Hall|].
  split; [rewrite Ecars; exact Hnc|].
  split; [rewrite Eids; exact Hnd'|].
  split; [|reflexivity].
  intros o Ho.
  destruct (normalise_row (Fleet.add_missing (cars st) (Fleet.car_orders fl)) o Hnd')
    as (i & _ & Hi).
  { rewrite Eadd. apply in_or_app. left. exact Ho. }
  exists i. exact Hi.
Qed.

Lemma ensure_car_order_normal_witness :
  map (fun o => (Fleet.co_car_id o, Fleet.co_order_index o))
      (Fleet.car_orders
         (Fleet.ensure_car_order FleetExamples.three_cars FleetExamples.gappy))
  = [(2, 1); (1, 2); (3, 3)]
  /\ Permutation
       (map Fleet.co_order_index
            (Fleet.car_orders
               (Fleet.ensure_car_order FleetExamples.three_cars
                                       FleetExamples.gappy)))
       [1; 2; 3].
Proof.
  split; [reflexivity|].
  destruct (ensure_car_order_normal FleetExamples.three_cars FleetExamples.gappy)
    as (H & _).
  - simpl. repeat constructor; simpl; intuition discriminate.
  - simpl. repeat constructor; simpl; intuition discriminate.
  - simpl. repeat constructor; simpl; intuition discriminate.
  - exact H.
Defined.

(** X22. [ensure_car_order] keeps the order of the rows: of two rows of
    the table, the one with the smaller index has the smaller index
    afterwards, and the row made for a car that had none comes after every
    row that was there. *)
Theorem ensure_car_order_keeps_order st fl :
  NoDup (map Fleet.co_id (Fleet.car_orders fl)) ->
  (forall o1 o2,
      In o1 (Fleet.car_orders fl) -> In o2 (Fleet.car_orders fl) ->
      Fleet.co_order_index o1 < Fleet.co_order_index o2 ->
      exists i1 i2,
        In (Fleet.set_index o1 i1)
           (Fleet.car_orders (Fleet.ensure_car_order st fl))
        /\ In (Fleet.set_index o2 i2)
              (Fleet.car_orders (Fleet.ensure_car_order st fl))
        /\ i1 < i2)
  /\ (forall o c,
         In o (Fleet.car_orders fl) -> In c (cars st) ->
         ~ In (car_id c) (map Fleet.co_car_id (Fleet.car_orders fl)) ->
         exists i o',
           In (Fleet.set_index o i)
              (Fleet.car_orders (Fleet.ensure_car_order st fl))
           /\ In o' (Fleet.car_orders (Fleet.ensure_car_order st fl))
           /\ Fleet.co_car_id o' = car_id c
           /\ i < Fleet.co_order_index o').
Proof.
  intros Hid. simpl.
  destruct (add_missing_spec (cars st) (Fleet.car_orders fl) Hid)
    as (rows & Eadd & Hrows & Hnd & Hnew).
  assert (NoDup (map Fleet.co_id
                     (Fleet.add_missing (cars st) (Fleet.car_orders fl)))) as Hnd'
      by (rewrite Eadd; exact Hnd).
  assert (forall a b,
             In a (Fleet.add_missing (cars st) (Fleet.car_orders fl)) ->
             In b (Fleet.add_missing (cars st) (Fleet.car_orders fl)) ->
             Fleet.co_order_index a < Fleet.co_order_index b ->
             exists i j,
               In (Fleet.set_index a i)
                  (Fleet.normalise
                     (Fleet.add_missing (cars st) (Fleet.car_orders fl)))
               /\ In (Fleet.set_index b j)
                     (Fleet.normalise
                        (Fleet.add_missing (cars st) (Fleet.car_orders fl)))
               /\ i < j) as Hord.
  { intros a b Ha Hb Hlt.
    destruct (normalise_row _ a Hnd' Ha) as (i & Hi & Hi').
    destruct (normalise_row _ b Hnd' Hb) as (j & Hj & Hj').
    exists i, j. split; [exact Hi'|]. split; [exact Hj'|].
    apply (enumerate_sorted Fleet.co_order_index 1
             (sort_by Fleet.co_order_index
                      (Fleet.add_missing (cars st) (Fleet.car_orders fl)))
             i j a b); try assumption.
    apply sort_by_sorted. }
  split.
  - intros o1 o2 H1 H2 Hlt.
    apply Hord; try assumption; rewrite Eadd; apply in_or_app; left; assumption.
  - intros o c Ho Hc Hmiss.
    assert (In (car_id c) (map Fleet.co_car_id rows)) as Hrow.
    { rewrite Hrows. apply in_map. apply filter_In. split; [exact Hc|].
      apply negb_true_iff. destruct (existsb _ _) eqn:E; [|reflexivity].
      apply existsb_exists in E as (k & Hk & Hkc). apply Z.eqb_eq in Hkc.
      exfalso. apply Hmiss. rewrite Hkc. exact Hk. }
    apply in_map_iff in Hrow as (n & Hn & Hnin).
    destruct (Hord o n) as (i & j & Hi & Hj & Hij).
    + rewrite Eadd. apply in_or_app. left. exact Ho.
    + rewrite Eadd. apply in_or_app. right. exact Hnin.
    + pose proof (max_index_ge _ o Ho). specialize (Hnew n Hnin). lia.
    + exists i, (Fleet.set_index n j). split; [exact Hi|]. split; [exact Hj|].
      split; [exact Hn|exact Hij].
Qed.

Lemma ensure_car_order_keeps_order_witness :
  exists i1 i2,
    In (Fleet.set_index
          {| Fleet.co_id := 1; Fleet.co_car_id := 2; Fleet.co_order_index := 5 |}
          i1)
       (Fleet.car_orders
          (Fleet.ensure_car_order FleetExamples.three_cars FleetExamples.gappy))
    /\ In (Fleet.set_index
             {| Fleet.co_id := 2; Fleet.co_car_id := 1;
                Fleet.co_order_index := 9 |} i2)
          (Fleet.car_orders
             (Fleet.ensure_car_order FleetExamples.three_cars FleetExamples.gappy))
    /\ i1 < i2.
Proof.
  destruct (ensure_car_order_keeps_order FleetExamples.three_cars
                                         FleetExamples.gappy) as [H _].
  - simpl. repeat constructor; simpl; intuition discriminate.
  - apply H.
    + left. reflexivity.
    + right. left. reflexivity.
    + reflexivity.
Defined.

Section NormalTables.

Import Fleet.

Lemma sorted_perm_eq (l1 l2 : list Z) :
  StronglySorted Z.le l1 -> StronglySorted Z.lt l2 -> Permutation l1 l2 ->
  l1 = l2.
Proof.
  intros H1. revert l2. induction H1 as [|a l1 Hl1 IH Ha]; intros l2 H2 Hp.
  - apply Permutation_nil in Hp. subst. reflexivity.
  - destruct l2 as [|b l2].
    { symmetry in Hp. apply Permutation_nil in Hp. discriminate. }
    inversion H2 as [|? ? Hl2 Hb]; subst.
    assert (a = b) as ->.
    { assert (In a (b :: l2)) as Ha2
          by (apply (Permutation_in _ Hp); left; reflexivity).
      assert (In b (a :: l1)) as Hb1
          by (apply (Permutation_in _ (Permutation_sym Hp)); left; reflexivity).
      rewrite Forall_forall in Ha, Hb.
      destruct Ha2 as [E|Ha2]; [congruence|].
      destruct Hb1 as [E|Hb1]; [congruence|].
      specialize (Ha b Hb1). specialize (Hb a Ha2). lia. }
    f_equal. apply IH; [exact Hl2|]. apply (Permutation_cons_inv Hp).
Qed.

Lemma enumerate_fst_sorted {A} (k : Z) (l : list A) :
  StronglySorted Z.lt (map fst (enumerate k l)).
Proof.
  revert k. induction l as [|x l IH]; intros k; simpl; constructor.
  - apply IH.
  - apply Forall_forall. intros i Hi. apply in_map_iff in Hi as ([j y] & <- & Hj).
    apply enumerate_In in Hj. simpl. lia.
Qed.

Lemma sorted_map_key {A} (key : A -> Z) (l : list A) :
  StronglySorted (key_le key) l -> StronglySorted Z.le (map key l).
Proof.
  induction 1 as [|x l Hl IH Hx]; simpl; constructor; [exact IH|].
  apply Forall_map. exact Hx.
Qed.

(** A table whose indices are the numbers 1 to N, each once, is left as it
    is by the second loop. *)
Lemma normalise_normal (os : list CarOrder) :
  NoDup (map co_id os) ->
  Permutation (map co_order_index os)
              (map (fun i => 1 + Z.of_nat i) (seq 0 (List.length os))) ->
  normalise os = os.
Proof.
  intros Hnd Hperm.
  assert (NoDup (map co_id (sort_by co_order_index os))) as Hnd'.
  { eapply Permutation_NoDup; [|exact Hnd].
    apply Permutation_map. symmetry. apply sort_by_perm. }
  assert (map co_order_index (sort_by co_order_index os)
          = map fst (enumerate 1 (sort_by co_order_index os))) as Hidx.
  { apply sorted_perm_eq.
    - apply sorted_map_key. apply sort_by_sorted.
    - apply enumerate_fst_sorted.
    - rewrite enumerate_fst.
      rewrite (Permutation_length (sort_by_perm co_order_index os)).
      rewrite <- Hperm. apply Permutation_map. apply sort_by_perm. }
  rewrite (normalise_map os Hnd).
  rewrite <- (map_id os) at 2. apply map_ext_in. intros o Ho.
  destruct (find_enumerate_In 1 (sort_by co_order_index os) o Hnd')
    as (i & Hf & Hi).
  { apply (sort_by_In co_order_index). exact Ho. }
  rewrite Hf. simpl.
  rewrite <- (enumerate_value co_order_index 1 _ i o Hidx Hi).
  destruct o; reflexivity.
Qed.

End NormalTables.

(** X23. [ensure_car_order] is idempotent: run on the tables it has just
    left, it changes nothing. *)
Theorem ensure_car_order_idempotent st fl :
  NoDup (map Fleet.co_id (Fleet.car_orders fl)) ->
  NoDup (map Fleet.co_car_id (Fleet.car_orders fl)) ->
  NoDup (map car_id (cars st)) ->
  Fleet.ensure_car_order st (Fleet.ensure_car_order st fl)
  = Fleet.ensure_car_order st fl.
Proof.
  intros Hid Hcar Hcs.
  destruct (add_missing_spec (cars st) (Fleet.car_orders fl) Hid)
    as (rows & Eadd & _ & Hnd & _).
  assert (NoDup (map Fleet.co_id
                     (Fleet.add_missing (cars st) (Fleet.car_orders fl)))) as Hnd'
      by (rewrite Eadd; exact Hnd).
  destruct (normalise_ids _ Hnd') as [Eids Ecars].
  destruct (add_missing_cars (cars st) (Fleet.car_orders fl) Hid Hcar Hcs)
    as [_ Hall].
  unfold Fleet.ensure_car_order. simpl.
  rewrite add_missing_full by (intros c Hc; rewrite Ecars; apply Hall; exact Hc).
  f_equal. apply normalise_normal.
  - rewrite Eids. exact Hnd'.
  - assert (List.length (Fleet.normalise
                           (Fleet.add_missing (cars st) (Fleet.car_orders fl)))
            = List.length (Fleet.add_missing (cars st) (Fleet.car_orders fl)))
      as ->.
    { rewrite <- (length_map Fleet.co_id), Eids. apply length_map. }
    apply normalise_indices. exact Hnd'.
Qed.

Lemma ensure_car_order_idempotent_witness :
  Fleet.ensure_car_order FleetExamples.three_cars
    (Fleet.ensure_car_order FleetExamples.three_cars FleetExamples.gappy)
  = Fleet.ensure_car_order FleetExamples.three_cars FleetExamples.gappy
  /\ Fleet.ensure_car_order FleetExamples.three_cars FleetExamples.gappy
     <> FleetExamples.gappy.
Proof.
  split.
  - apply ensure_car_order_idempotent;
      simpl; repeat constructor; simpl; intuition discriminate.
  - vm_compute. discriminate.
Defined.

Section MoveFacts.

Import Fleet.

Lemma tables_eta (fl : Tables) :
  {| car_orders := car_orders fl; defleeted := defleeted fl |} = fl.
Proof. destruct fl; reflexivity. Qed.

Lemma set_index_eta (o : CarOrder) : set_index o (co_order_index o) = o.
Proof. destruct o; reflexivity. Qed.

Lemma ensure_normal st fl :
  FleetSpec.normal st fl -> ensure_car_order st fl = fl.
Proof.
  intros (Hid & _ & Hall & Hperm). unfold ensure_car_order.
  rewrite (add_missing_full _ _ Hall), (normalise_normal _ Hid Hperm).
  apply tables_eta.
Qed.

Lemma In_seq_range (n : nat) (k : Z) :
  In k (map (fun i => 1 + Z.of_nat i) (seq 0 n)) <-> 1 <= k <= Z.of_nat n.
Proof.
  rewrite in_map_iff. split.
  - intros (i & <- & Hi). apply in_seq in Hi. lia.
  - intros Hk. exists (Z.to_nat (k - 1)). split; [lia|]. apply in_seq. lia.
Qed.

Lemma sorted_lt_NoDup (l : list Z) : StronglySorted Z.lt l -> NoDup l.
Proof.
  induction 1 as [|a m Hm IH Ha]; constructor; [|exact IH].
  intros Hin. rewrite Forall_forall in Ha. specialize (Ha a Hin). lia.
Qed.

Lemma NoDup_seq_range (n : nat) :
  NoDup (map (fun i => 1 + Z.of_nat i) (seq 0 n)).
Proof.
  pose proof (enumerate_fst_sorted 1 (seq 0 n)) as Hs.
  rewrite enumerate_fst, length_seq in Hs.
  apply sorted_lt_NoDup. exact Hs.
Qed.

Variable os : list CarOrder.
Hypothesis Hid : NoDup (map co_id os).
Hypothesis Hperm :
  Permutation (map co_order_index os)
              (map (fun i => 1 + Z.of_nat i) (seq 0 (List.length os))).

Lemma normal_index_range (o : CarOrder) :
  In o os -> 1 <= co_order_index o <= Z.of_nat (List.length os).
Proof.
  intros Ho. apply In_seq_range. apply (Permutation_in _ Hperm).
  apply in_map. exact Ho.
Qed.

Lemma normal_index_exists (k : Z) :
  1 <= k <= Z.of_nat (List.length os) ->
  exists o, In o os /\ co_order_index o = k.
Proof.
  intros Hk. apply In_seq_range in Hk.
  apply (Permutation_in _ (Permutation_sym Hperm)) in Hk.
  apply in_map_iff in Hk as (o & Ho & Hin). exists o. auto.
Qed.

Lemma NoDup_map_inj {A B} (g : A -> B) (l : list A) (a b : A) :
  NoDup (map g l) -> In a l -> In b l -> g a = g b -> a = b.
Proof.
  induction l as [|x l IH]; simpl; intros Hnd Ha Hb Hg; [destruct Ha|].
  inversion Hnd as [|? ? Hn Hnd']; subst.
  destruct Ha as [->|Ha], Hb as [->|Hb]; try reflexivity.
  - exfalso. apply Hn. rewrite Hg. apply in_map. exact Hb.
  - exfalso. apply Hn. rewrite <- Hg. apply in_map. exact Ha.
  - apply IH; assumption.
Qed.

Lemma normal_index_inj (a b : CarOrder) :
  In a os -> In b os -> co_order_index a = co_order_index b -> a = b.
Proof.
  apply NoDup_map_inj. eapply Permutation_NoDup.
  - symmetry. exact Hperm.
  - apply NoDup_seq_range.
Qed.

Lemma normal_id_inj (a b : CarOrder) :
  In a os -> In b os -> co_id a = co_id b -> a = b.
Proof. apply NoDup_map_inj. exact Hid. Qed.

End MoveFacts.

Section SwapFacts.

Import Fleet.

Lemma find_by_car (os : list CarOrder) (cur : CarOrder) :
  NoDup (map co_car_id os) -> In cur os ->
  find (fun o => co_car_id o =? co_car_id cur) os = Some cur.
Proof.
  intros Hnd Hin.
  destruct (find (fun o => co_car_id o =? co_car_id cur) os) as [o|] eqn:E.
  - apply find_some in E as [Ho Hc]. apply Z.eqb_eq in Hc. f_equal.
    apply (NoDup_map_inj co_car_id os); assumption.
  - pose proof (find_none _ _ E cur Hin) as H. simpl in H.
    rewrite Z.eqb_refl in H. discriminate.
Qed.

Lemma sort_by_head {A} (key : A -> Z) (l : list A) :
  match sort_by key l with
  | [] => l = []
  | x :: _ => In x l /\ forall y, In y l -> key x <= key y
  end.
Proof.
  pose proof (sort_by_sorted key l) as Hs.
  pose proof (sort_by_In key l) as Hin.
  destruct (sort_by key l) as [|x rest].
  - destruct l as [|y l]; [reflexivity|].
    destruct (proj2 (Hin y) (or_introl eq_refl)).
  - inversion Hs as [|? ? _ Hx]; subst. split.
    + apply Hin. left. reflexivity.
    + intros y Hy. apply Hin in Hy as [<-|Hy]; [lia|].
      rewrite Forall_forall in Hx. apply (Hx y Hy).
Qed.

Variable os : list CarOrder.
Hypothesis Hid : NoDup (map co_id os).
Hypothesis Hperm :
  Permutation (map co_order_index os)
              (map (fun i => 1 + Z.of_nat i) (seq 0 (List.length os))).

(** The row [move_car_up] exchanges with: the one just above. *)
Lemma prev_row (cur : CarOrder) :
  In cur os ->
  match sort_by (fun o => - co_order_index o)
                (filter (fun o => co_order_index o <? co_order_index cur) os) with
  | [] => co_order_index cur = 1
  | prev :: _ =>
      In prev os /\ co_order_index prev = co_order_index cur - 1
  end.
Proof.
  intros Hcur.
  pose proof (normal_index_range os Hperm cur Hcur) as Hr.
  pose proof (sort_by_head (fun o => - co_order_index o)
                (filter (fun o => co_order_index o <? co_order_index cur) os))
    as Hh.
  destruct (sort_by _ _) as [|prev rest].
  - destruct (Z.eq_dec (co_order_index cur) 1) as [E|E]; [exact E|].
    destruct (normal_index_exists os Hperm (co_order_index cur - 1))
      as (p & Hp & Hpi); [lia|].
    assert (In p (filter (fun o => co_order_index o <? co_order_index cur) os))
      as Hin by (apply filter_In; split; [exact Hp|apply Z.ltb_lt; lia]).
    rewrite Hh in Hin. destruct Hin.
  - destruct Hh as [Hin Hmax]. apply filter_In in Hin as [Hin Hlt].
    apply Z.ltb_lt in Hlt. split; [exact Hin|].
    pose proof (normal_index_range os Hperm prev Hin) as Hrp.
    destruct (normal_index_exists os Hperm (co_order_index cur - 1))
      as (p & Hp & Hpi); [lia|].
    assert (In p (filter (fun o => co_order_index o <? co_order_index cur) os))
      as Hpf by (apply filter_In; split; [exact Hp|apply Z.ltb_lt; lia]).
    specialize (Hmax p Hpf). simpl in Hmax. lia.
Qed.

(** The row [move_car_down] exchanges with: the one just below. *)
Lemma next_row (cur : CarOrder) :
  In cur os ->
  match sort_by co_order_index
                (filter (fun o => co_order_index cur <? co_order_index o) os) with
  | [] => co_order_index cur = Z.of_nat (List.length os)
  | nxt :: _ =>
      In nxt os /\ co_order_index nxt = co_order_index cur + 1
  end.
Proof.
  intros Hcur.
  pose proof (normal_index_range os Hperm cur Hcur) as Hr.
  pose proof (sort_by_head co_order_index
                (filter (fun o => co_order_index cur <? co_order_index o) os))
    as Hh.
  destruct (sort_by _ _) as [|nxt rest].
  - destruct (Z.eq_dec (co_order_index cur) (Z.of_nat (List.length os)))
      as [E|E]; [exact E|].
    destruct (normal_index_exists os Hperm (co_order_index cur + 1))
      as (p & Hp & Hpi); [lia|].
    assert (In p (filter (fun o => co_order_index cur <? co_order_index o) os))
      as Hin by (apply filter_In; split; [exact Hp|apply Z.ltb_lt; lia]).
    rewrite Hh in Hin. destruct Hin.
  - destruct Hh as [Hin Hmin]. apply filter_In in Hin as [Hin Hlt].
    apply Z.ltb_lt in Hlt. split; [exact Hin|].
    pose proof (normal_index_range os Hperm nxt Hin) as Hrp.
    destruct (normal_index_exists os Hperm (co_order_index cur + 1))
      as (p & Hp & Hpi); [lia|].
    assert (In p (filter (fun o => co_order_index cur <? co_order_index o) os))
      as Hpf by (apply filter_In; split; [exact Hp|apply Z.ltb_lt; lia]).
    specialize (Hmin p Hpf). lia.
Qed.

Lemma swap_ids (a b : CarOrder) :
  map co_id (swap_index a b os) = map co_id os
  /\ map co_car_id (swap_index a b os) = map co_car_id os
  /\ List.length (swap_index a b os) = List.length os.
Proof.
  unfold swap_index. rewrite !map_map, length_map.
  split; [|split; [|reflexivity]]; apply map_ext; intros o;
    (destruct (co_id o =? co_id a); [reflexivity|]);
    destruct (co_id o =? co_id b); reflexivity.
Qed.

Lemma swap_indices (a b : CarOrder) :
  In a os -> In b os ->
  map co_order_index (swap_index a b os)
  = map (FleetSpec.transpose (co_order_index a) (co_order_index b))
        (map co_order_index os).
Proof.
  intros Ha Hb. unfold swap_index. rewrite !map_map. apply map_ext_in.
  intros o Ho. unfold FleetSpec.transpose.
  destruct (co_id o =? co_id a) eqn:Ea.
  - apply Z.eqb_eq in Ea. rewrite (normal_id_inj os Hid o a Ho Ha Ea).
    rewrite Z.eqb_refl. reflexivity.
  - destruct (co_order_index o =? co_order_index a) eqn:Ia.
    { apply Z.eqb_eq in Ia. rewrite (normal_index_inj os Hperm o a Ho Ha Ia) in Ea.
      rewrite Z.eqb_refl in Ea. discriminate. }
    destruct (co_id o =? co_id b) eqn:Eb.
    + apply Z.eqb_eq in Eb. rewrite (normal_id_inj os Hid o b Ho Hb Eb).
      rewrite Z.eqb_refl. reflexivity.
    + destruct (co_order_index o =? co_order_index b) eqn:Ib; [|reflexivity].
      apply Z.eqb_eq in Ib. rewrite (normal_index_inj os Hperm o b Ho Hb Ib) in Eb.
      rewrite Z.eqb_refl in Eb. discriminate.
Qed.

Lemma transpose_perm (x y : Z) (l : list Z) :
  NoDup l -> In x l -> In y l ->
  Permutation (map (FleetSpec.transpose x y) l) l.
Proof.
  intros Hnd Hx Hy.
  assert (forall u, FleetSpec.transpose x y (FleetSpec.transpose x y u) = u)
    as Hinv.
  { intros u. unfold FleetSpec.transpose.
    destruct (Z.eqb_spec u x) as [Eux|Hux].
    - destruct (Z.eqb_spec y x) as [Eyx|Hyx]; [congruence|].
      rewrite Z.eqb_refl. congruence.
    - destruct (Z.eqb_spec u y) as [Euy|Huy].
      + rewrite Z.eqb_refl. congruence.
      + destruct (Z.eqb_spec u x); [contradiction|].
        destruct (Z.eqb_spec u y); [contradiction|reflexivity]. }
  apply NoDup_Permutation; [|exact Hnd|].
  - clear Hx Hy. induction l as [|u l IH]; simpl; [constructor|].
    inversion Hnd as [|? ? Hn Hnd']; subst. constructor; [|apply IH; exact Hnd'].
    intros Hin. apply in_map_iff in Hin as (v & Hv & Hvin).
    apply Hn. rewrite <- (Hinv u), <- Hv, Hinv. exact Hvin.
  - assert (forall u, In u l -> In (FleetSpec.transpose x y u) l) as Hclosed.
    { intros u Hu. unfold FleetSpec.transpose.
      destruct (u =? x); [exact Hy|]. destruct (u =? y); [exact Hx|exact Hu]. }
    intros u. split.
    + intros Hin. apply in_map_iff in Hin as (v & <- & Hv).
      apply Hclosed. exact Hv.
    + intros Hu. apply in_map_iff. exists (FleetSpec.transpose x y u).
      split; [apply Hinv|apply Hclosed; exact Hu].
Qed.

Lemma swap_normal (a b : CarOrder) :
  In a os -> In b os ->
  Permutation (map co_order_index (swap_index a b os))
              (map (fun i => 1 + Z.of_nat i)
                   (seq 0 (List.length (swap_index a b os)))).
Proof.
  intros Ha Hb.
  destruct (swap_ids a b) as (_ & _ & ->).
  rewrite (swap_indices a b Ha Hb), <- Hperm.
  apply transpose_perm.
  - eapply Permutation_NoDup; [symmetry; exact Hperm|apply NoDup_seq_range].
  - apply in_map. exact Ha.
  - apply in_map. exact Hb.
Qed.

Lemma swap_rows (a b : CarOrder) :
  In a os -> In b os -> co_id a <> co_id b ->
  In (set_index a (co_order_index b)) (swap_index a b os)
  /\ In (set_index b (co_order_index a)) (swap_index a b os)
  /\ forall o, In o os -> co_id o <> co_id a -> co_id o <> co_id b ->
               In o (swap_index a b os).
Proof.
  intros Ha Hb Hab. unfold swap_index. repeat split.
  - apply in_map_iff. exists a. rewrite Z.eqb_refl. auto.
  - apply in_map_iff. exists b. apply Z.eqb_neq in Hab.
    rewrite (Z.eqb_sym (co_id b) (co_id a)), Hab, Z.eqb_refl. auto.
  - intros o Ho H1 H2. apply in_map_iff. exists o.
    apply Z.eqb_neq in H1, H2. rewrite H1, H2. auto.
Qed.

Lemma swap_back (a b : CarOrder) :
  In a os -> In b os -> co_id a <> co_id b ->
  swap_index (set_index a (co_order_index b)) (set_index b (co_order_index a))
             (swap_index a b os)
  = os.
Proof.
  intros Ha Hb Hab. unfold swap_index. rewrite map_map.
  rewrite <- (map_id os) at 2. apply map_ext_in. intros o Ho.
  destruct (co_id o =? co_id a) eqn:Ea.
  - apply Z.eqb_eq in Ea. rewrite (normal_id_inj os Hid o a Ho Ha Ea).
    simpl. rewrite Z.eqb_refl. destruct a; reflexivity.
  - destruct (co_id o =? co_id b) eqn:Eb.
    + apply Z.eqb_eq in Eb. rewrite (normal_id_inj os Hid o b Ho Hb Eb).
      simpl. apply Z.eqb_neq in Hab.
      rewrite (Z.eqb_sym (co_id b) (co_id a)), Hab, Z.eqb_refl.
      destruct b; reflexivity.
    + simpl. rewrite Ea, Eb. reflexivity.
Qed.

End SwapFacts.

Section MoveResults.

Import Fleet.

Variable st : Store.
Variable fl : Tables.
Hypothesis Hnormal : FleetSpec.normal st fl.

Lemma move_up_result (cur : CarOrder) :
  In cur (car_orders fl) ->
  move_car_up (co_car_id cur) st fl
  = match sort_by (fun o => - co_order_index o)
                  (filter (fun o => co_order_index o <? co_order_index cur)
                          (car_orders fl)) with
    | prev :: _ =>
        (Redirected "list_cars",
         with_orders fl (swap_index cur prev (car_orders fl)))
    | [] => (Redirected "list_cars", fl)
    end.
Proof.
  intros Hcur. destruct Hnormal as (_ & Hcar & _).
  unfold move_car_up. rewrite (ensure_normal st fl Hnormal).
  rewrite (find_by_car _ cur Hcar Hcur). reflexivity.
Qed.

Lemma move_down_result (cur : CarOrder) :
  In cur (car_orders fl) ->
  move_car_down (co_car_id cur) st fl
  = match sort_by co_order_index
                  (filter (fun o => co_order_index cur <? co_order_index o)
                          (car_orders fl)) with
    | nxt :: _ =>
        (Redirected "list_cars",
         with_orders fl (swap_index cur nxt (car_orders fl)))
    | [] => (Redirected "list_cars", fl)
    end.
Proof.
  intros Hcur. destruct Hnormal as (_ & Hcar & _).
  unfold move_car_down. rewrite (ensure_normal st fl Hnormal).
  rewrite (find_by_car _ cur Hcar Hcur). reflexivity.
Qed.

Lemma swap_keeps_normal (a b : CarOrder) :
  In a (car_orders fl) -> In b (car_orders fl) ->
  FleetSpec.normal st (with_orders fl (swap_index a b (car_orders fl))).
Proof.
  intros Ha Hb. destruct Hnormal as (Hid & Hcar & Hall & Hperm).
  destruct (swap_ids (car_orders fl) a b) as (E1 & E2 & _).
  unfold FleetSpec.normal. simpl. rewrite E1, E2.
  split; [exact Hid|]. split; [exact Hcar|]. split; [exact Hall|].
  apply swap_normal; assumption.
Qed.

Lemma not_a_car (cid : Z) :
  ~ In cid (map co_car_id (car_orders fl)) ->
  move_car_up cid st fl = (Redirected "list_cars", fl)
  /\ move_car_down cid st fl = (Redirected "list_cars", fl).
Proof.
  intros Hnot. unfold move_car_up, move_car_down.
  rewrite (ensure_normal st fl Hnormal).
  destruct (find (fun o => co_car_id o =? cid) (car_orders fl)) as [o|] eqn:E;
    [|split; reflexivity].
  apply find_some in E as [Ho Hc]. apply Z.eqb_eq in Hc.
  exfalso. apply Hnot. rewrite <- Hc. apply in_map. exact Ho.
Qed.

End MoveResults.

(** X24. On an order table as [ensure_car_order] leaves it, moving a car
    up exchanges its index with that of the car just above and touches no
    other row; the table stays in that form. Moving up the car at the top,
    or a car that has no row, changes nothing. *)
Theorem move_car_up_swaps st fl cur :
  FleetSpec.normal st fl ->
  In cur (Fleet.car_orders fl) ->
  (Fleet.co_order_index cur = 1 ->
   Fleet.move_car_up (Fleet.co_car_id cur) st fl = (Redirected "list_cars", fl))
  /\ (1 < Fleet.co_order_index cur ->
      exists prev fl',
        In prev (Fleet.car_orders fl)
        /\ Fleet.co_order_index prev = Fleet.co_order_index cur - 1
        /\ Fleet.move_car_up (Fleet.co_car_id cur) st fl
           = (Redirected "list_cars", fl')
        /\ In (Fleet.set_index cur (Fleet.co_order_index cur - 1))
              (Fleet.car_orders fl')
        /\ In (Fleet.set_index prev (Fleet.co_order_index cur))
              (Fleet.car_orders fl')
        /\ (forall o, In o (Fleet.car_orders fl) -> o <> cur -> o <> prev ->
                      In o (Fleet.car_orders fl'))
        /\ Fleet.defleeted fl' = Fleet.defleeted fl
        /\ FleetSpec.normal st fl')
  /\ (forall cid,
         ~ In cid (map Fleet.co_car_id (Fleet.car_orders fl)) ->
         Fleet.move_car_up cid st fl = (Redirected "list_cars", fl)).
Proof.
  intros Hn Hcur. pose proof Hn as (Hid & Hcar & Hall & Hperm).
  pose proof (prev_row (Fleet.car_orders fl) Hperm cur Hcur) as Hprev.
  pose proof (move_up_result st fl Hn cur Hcur) as Hres.
  split; [|split].
  - intros Htop. rewrite Hres.
    destruct (sort_by _ _) as [|prev rest]; [reflexivity|].
    destruct Hprev as [Hin Hidx].
    pose proof (normal_index_range _ Hperm prev Hin). lia.
  - intros Hlow. destruct (sort_by _ _) as [|prev rest]; [lia|].
    destruct Hprev as [Hin Hidx].
    assert (Fleet.co_id cur <> Fleet.co_id prev) as Hne.
    { intros E. rewrite (normal_id_inj _ Hid cur prev Hcur Hin E) in Hidx. lia. }
    destruct (swap_rows (Fleet.car_orders fl) cur prev Hcur Hin Hne)
      as (H1 & H2 & H3).
    exists prev. eexists. split; [exact Hin|]. split; [exact Hidx|].
    split; [exact Hres|]. simpl.
    split; [rewrite <- Hidx; exact H1|]. split; [exact H2|].
    split; [|split; [reflexivity|apply swap_keeps_normal; assumption]].
    intros o Ho Hoc Hop. apply H3; [exact Ho| |]; intros E.
    + apply Hoc. apply (normal_id_inj _ Hid); assumption.
    + apply Hop. apply (normal_id_inj _ Hid); assumption.
  - intros cid Hnot. apply (not_a_car st fl Hn cid Hnot).
Qed.

(** X25. On an order table as [ensure_car_order] leaves it, moving a car
    that is not at the top up and then down again gives back the table as
    it was; moving down the car at the bottom changes nothing. *)
Theorem move_up_then_down st fl cur :
  FleetSpec.normal st fl ->
  In cur (Fleet.car_orders fl) ->
  (1 < Fleet.co_order_index cur ->
   exists fl',
     Fleet.move_car_up (Fleet.co_car_id cur) st fl = (Redirected "list_cars", fl')
     /\ Fleet.move_car_down (Fleet.co_car_id cur) st fl'
        = (Redirected "list_cars", fl))
  /\ (Fleet.co_order_index cur = Z.of_nat (List.length (Fleet.car_orders fl)) ->
      Fleet.move_car_down (Fleet.co_car_id cur) st fl
      = (Redirected "list_cars", fl)).
Proof.
  intros Hn Hcur. pose proof Hn as (Hid & Hcar & Hall & Hperm). split.
  - intros Hlow.
    pose proof (prev_row (Fleet.car_orders fl) Hperm cur Hcur) as Hprev.
    pose proof (move_up_result st fl Hn cur Hcur) as Hres.
    destruct (sort_by _ _) as [|prev rest]; [lia|].
    destruct Hprev as [Hin Hidx].
    assert (Fleet.co_id cur <> Fleet.co_id prev) as Hne.
    { intros E. rewrite (normal_id_inj _ Hid cur prev Hcur Hin E) in Hidx. lia. }
    eexists. split; [exact Hres|].
    pose proof (swap_keeps_normal st fl Hn cur prev Hcur Hin) as Hn'.
    destruct (swap_rows (Fleet.car_orders fl) cur prev Hcur Hin Hne)
      as (H1 & H2 & _).
    pose proof Hn' as (Hid' & _ & _ & Hperm'). simpl in Hid', Hperm'.
    pose proof (move_down_result st _ Hn'
                  (Fleet.set_index cur (Fleet.co_order_index prev)) H1) as Hdown.
    simpl in Hdown. rewrite Hdown. clear Hdown.
    pose proof (next_row _ Hperm'
                  (Fleet.set_index cur (Fleet.co_order_index prev)) H1) as Hnext.
    simpl in Hnext.
    pose proof (normal_index_range _ Hperm cur Hcur) as Hrange.
    destruct (swap_ids (Fleet.car_orders fl) cur prev) as (_ & _ & Elen).
    destruct (sort_by _ _) as [|nxt rest'].
    + rewrite Elen in Hnext. lia.
    + destruct Hnext as [Hnin Hnidx].
      assert (nxt = Fleet.set_index prev (Fleet.co_order_index cur)) as ->.
      { apply (normal_index_inj _ Hperm'); [exact Hnin|exact H2|]. simpl. lia. }
      rewrite (swap_back (Fleet.car_orders fl) Hid cur prev Hcur Hin Hne).
      unfold Fleet.with_orders. simpl. rewrite tables_eta. reflexivity.
  - intros Hbottom.
    pose proof (next_row (Fleet.car_orders fl) Hperm cur Hcur) as Hnext.
    rewrite (move_down_result st fl Hn cur Hcur).
    destruct (sort_by _ _) as [|nxt rest]; [reflexivity|].
    destruct Hnext as [Hin Hidx].
    pose proof (normal_index_range _ Hperm nxt Hin). lia.
Qed.

Lemma ordered_is_normal :
  FleetSpec.normal FleetExamples.three_cars FleetExamples2.ordered.
Proof.
  unfold FleetSpec.normal. simpl.
  split; [repeat constructor; simpl; intuition discriminate|].
  split; [repeat constructor; simpl; intuition discriminate|].
  split; [|apply Permutation_refl].
  intros c [<-|[<-|[<-|[]]]]; simpl; tauto.
Defined.

Lemma move_car_up_swaps_witness :
  exists fl',
    Fleet.move_car_up 1 FleetExamples.three_cars FleetExamples2.ordered
    = (Redirected "list_cars", fl')
    /\ In (Fleet.set_index FleetExamples2.row_of_car1 1) (Fleet.car_orders fl')
    /\ FleetSpec.normal FleetExamples.three_cars fl'.
Proof.
  destruct (move_car_up_swaps FleetExamples.three_cars FleetExamples2.ordered
              FleetExamples2.row_of_car1 ordered_is_normal)
    as (_ & H & _).
  - right. left. reflexivity.
  - destruct H as (prev & fl' & _ & _ & H1 & H2 & _ & _ & _ & H3);
      [reflexivity|].
    exists fl'. split; [exact H1|]. split; [exact H2|exact H3].
Defined.

Lemma move_up_then_down_witness :
  exists fl',
    Fleet.move_car_up 1 FleetExamples.three_cars FleetExamples2.ordered
    = (Redirected "list_cars", fl')
    /\ Fleet.move_car_down 1 FleetExamples.three_cars fl'
       = (Redirected "list_cars", FleetExamples2.ordered).
Proof.
  destruct (move_up_then_down FleetExamples.three_cars FleetExamples2.ordered
              FleetExamples2.row_of_car1 ordered_is_normal)
    as (H & _).
  - right. left. reflexivity.
  - apply H. reflexivity.
Defined.
